(** * AssetTrack: the in-memory store and its REST handlers

    A shallow embedding of [internal/models/models.go],
    [internal/store/memory.go], the asset and maintenance handlers of
    [internal/api/handlers.go], [CORS] of [internal/middleware/middleware.go]
    and [formatMoney] of the InsureQuote pages, followed by the properties
    of the store (filtering, lookup, update, delete, seeding, identifier
    generation, lock discipline, statistics, maintenance records and audit
    entries), of the handlers served from the store, of [formatMoney] and
    of [CORS].

    Conventions.
    - A Go [string] is a Rocq [string] (a sequence of bytes).
    - A Go [int] is a [Z] in the 64-bit two's-complement range, the width
      of [int] on a 64-bit platform; every increment goes through [int_wrap].
    - A Go [float64] is a primitive float, NaN and the infinities included.
    - A [time.Time] is an abstract instant, the value read from the clock;
      its year lies between 0 and 9999, as for every reading of the clock
      and every time the JSON decoder accepts, so that it can be printed.
    - A Go [map] is a [gmap]; the order in which [range] visits its keys is
      not fixed by the language, so every loop over a map takes the visiting
      order as an argument.
    - A slice is a [list]; the nil slice and the empty slice are both [[]]
      (the code only ever builds slices by [append] to a nil slice).
    - An [error] is [option string]: [None] is [nil], [Some msg] an error
      whose text is [msg]. *)

From stdpp Require Import gmap strings list fin_maps pretty.
From Stdlib Require Import Ascii Floats.

Set Warnings "-register-all".
Open Scope Z_scope.

(** ** Go base types *)

Definition float64 : Type := float.
Definition Time : Type := Z.
Definition error : Type := option string.

Definition int_min : Z := - 2 ^ 63.
Definition int_max : Z := 2 ^ 63 - 1.

(** Two's-complement reduction of an integer result to the range of [int]. *)
Definition int_wrap (z : Z) : Z := (z + 2 ^ 63) `mod` 2 ^ 64 - 2 ^ 63.

(** [x++] on an [int]. *)
Definition int_incr (x : Z) : Z := int_wrap (x + 1).

(** [len(l)] *)
Definition len {A} (l : list A) : Z := Z.of_nat (length l).

Arguments int_wrap : simpl never.
Arguments int_incr : simpl never.

(** ** package strings *)

Definition is_ascii_byte (c : ascii) : bool := bool_decide (nat_of_ascii c < 128)%nat.

Definition is_upper_byte (c : ascii) : bool :=
  bool_decide (65 ≤ nat_of_ascii c)%nat && bool_decide (nat_of_ascii c ≤ 90)%nat.

(** [c += 'a' - 'A'] for an upper-case ASCII letter, any other byte unchanged. *)
Definition lower_byte (c : ascii) : ascii :=
  if is_upper_byte c then ascii_of_nat (nat_of_ascii c + 32) else c.

Fixpoint isASCII (s : string) : bool :=
  match s with
  | EmptyString => true
  | String c s' => is_ascii_byte c && isASCII s'
  end.

Fixpoint map_bytes (f : ascii → ascii) (s : string) : string :=
  match s with
  | EmptyString => EmptyString
  | String c s' => String (f c) (map_bytes f s')
  end.

(** [strings.HasPrefix] *)
Fixpoint HasPrefix (s prefix : string) : bool :=
  match prefix, s with
  | EmptyString, _ => true
  | String p prefix', String c s' => bool_decide (c = p) && HasPrefix s' prefix'
  | String _ _, EmptyString => false
  end.

(** [strings.Contains]: [substr] occurs in [s] at some byte offset. *)
Fixpoint Contains (s substr : string) : bool :=
  HasPrefix s substr ||
  match s with
  | EmptyString => false
  | String _ s' => Contains s' substr
  end.

(** ** package fmt *)

Fixpoint zeros (n : nat) : string :=
  match n with
  | O => EmptyString
  | S n' => String "0" (zeros n')
  end.

(** Left padding with ['0'] up to [width] bytes. *)
Definition pad0 (width : nat) (digits : string) : string :=
  zeros (width - String.length digits) +:+ digits.

(** The verb [%03d]: decimal digits padded with zeros to width 3; for a
    negative number the sign takes one of the three columns. *)
Definition fmt_03d (n : Z) : string :=
  if bool_decide (n < 0) then "-" +:+ pad0 2 (pretty (Z.abs n))
  else pad0 3 (pretty n).

Arguments fmt_03d : simpl never.

(** ** package models *)

Module Asset.
Record t := mk {
  ID : string;
  Tag : string;
  Name : string;
  Category : string;
  Status : string;
  Location : string;
  Department : string;
  AssignedTo : string;
  PurchaseDate : string;
  PurchaseCost : float64;
  CurrentValue : float64;
  Vendor : string;
  SerialNumber : string;
  Model : string;
  Warranty : string;
  Notes : string;
  CreatedAt : Time;
  UpdatedAt : Time;
}.

Definition with_ID (v : string) (a : t) : t :=
  mk v (Tag a) (Name a) (Category a) (Status a) (Location a) (Department a)
     (AssignedTo a) (PurchaseDate a) (PurchaseCost a) (CurrentValue a)
     (Vendor a) (SerialNumber a) (Model a) (Warranty a) (Notes a)
     (CreatedAt a) (UpdatedAt a).

Definition with_CreatedAt (v : Time) (a : t) : t :=
  mk (ID a) (Tag a) (Name a) (Category a) (Status a) (Location a) (Department a)
     (AssignedTo a) (PurchaseDate a) (PurchaseCost a) (CurrentValue a)
     (Vendor a) (SerialNumber a) (Model a) (Warranty a) (Notes a)
     v (UpdatedAt a).

Definition with_UpdatedAt (v : Time) (a : t) : t :=
  mk (ID a) (Tag a) (Name a) (Category a) (Status a) (Location a) (Department a)
     (AssignedTo a) (PurchaseDate a) (PurchaseCost a) (CurrentValue a)
     (Vendor a) (SerialNumber a) (Model a) (Warranty a) (Notes a)
     (CreatedAt a) v.
End Asset.
Abbreviation Asset := Asset.t.

Module MaintenanceRecord.
Record t := mk {
  ID : string;
  AssetID : string;
  Date : string;
  Type_ : string;
  Description : string;
  Cost : float64;
  Technician : string;
  Status : string;
  CreatedAt : Time;
}.

Definition with_ID (v : string) (r : t) : t :=
  mk v (AssetID r) (Date r) (Type_ r) (Description r) (Cost r) (Technician r)
     (Status r) (CreatedAt r).

Definition with_CreatedAt (v : Time) (r : t) : t :=
  mk (ID r) (AssetID r) (Date r) (Type_ r) (Description r) (Cost r)
     (Technician r) (Status r) v.
End MaintenanceRecord.
Abbreviation MaintenanceRecord := MaintenanceRecord.t.

Module AuditEntry.
Record t := mk {
  ID : string;
  AssetID : string;
  Timestamp : Time;
  User : string;
  Action : string;
  Details : string;
}.

Definition with_ID (v : string) (e : t) : t :=
  mk v (AssetID e) (Timestamp e) (User e) (Action e) (Details e).

Definition with_Timestamp (v : Time) (e : t) : t :=
  mk (ID e) (AssetID e) v (User e) (Action e) (Details e).
End AuditEntry.
Abbreviation AuditEntry := AuditEntry.t.

Module AssetFilter.
Record t := mk {
  Status : string;
  Category : string;
  Department : string;
  Search : string;
  Limit : Z;
  Offset : Z;
}.
End AssetFilter.
Abbreviation AssetFilter := AssetFilter.t.

Module AssetStats.
Record t := mk {
  Total : Z;
  Active : Z;
  Maintenance : Z;
  Retired : Z;
  TotalValue : float64;
  ByCategory : gmap string Z;
  ByDepartment : gmap string Z;
}.
End AssetStats.
Abbreviation AssetStats := AssetStats.t.

(** ** package sync: a reader/writer mutex as seen by one goroutine *)

Module RWMutex.
Record t := mk {
  readers : nat;
  writer : bool;
}.
End RWMutex.
Abbreviation RWMutex := RWMutex.t.

(** The zero value of [sync.RWMutex]: nobody holds it. *)
Definition unlocked : RWMutex := RWMutex.mk 0 false.

(** ** package store *)

Record MemoryStore := mkMemoryStore {
  mu : RWMutex;
  assets : gmap string Asset;
  maintenance : gmap string (list MaintenanceRecord);
  audit : gmap string (list AuditEntry);
  nextID : Z;
}.

Definition set_mu (v : RWMutex) (s : MemoryStore) : MemoryStore :=
  mkMemoryStore v (assets s) (maintenance s) (audit s) (nextID s).
Definition set_assets (v : gmap string Asset) (s : MemoryStore) : MemoryStore :=
  mkMemoryStore (mu s) v (maintenance s) (audit s) (nextID s).
Definition set_maintenance (v : gmap string (list MaintenanceRecord))
    (s : MemoryStore) : MemoryStore :=
  mkMemoryStore (mu s) (assets s) v (audit s) (nextID s).
Definition set_audit (v : gmap string (list AuditEntry)) (s : MemoryStore) : MemoryStore :=
  mkMemoryStore (mu s) (assets s) (maintenance s) v (nextID s).
Definition set_nextID (v : Z) (s : MemoryStore) : MemoryStore :=
  mkMemoryStore (mu s) (assets s) (maintenance s) (audit s) v.

(** The wall clock: [now k] is what the [k]-th call of [time.Now] returns. *)
Record Clock := mkClock {
  now : nat → Time;
  ticks : nat;
}.

Definition time_Now (c : Clock) : Time * Clock :=
  (now c (ticks c), mkClock (now c) (S (ticks c))).

(** What a method does to the shared fields of the store, in program order. *)
Inductive field := f_assets | f_maintenance | f_audit | f_nextID.

Inductive event :=
  | EvRLock | EvRUnlock | EvLock | EvUnlock
  | EvRead (f : field)
  | EvWrite (f : field).

Record World := mkWorld {
  store : MemoryStore;
  clock : Clock;
  log : list event;
}.

(** A method call either returns a value in a new world, or does not return
    ([None]): it blocks on the mutex for ever, or the runtime aborts on an
    unlock of a mutex that is not held. *)
Definition M (A : Type) : Type := World → option (A * World).

Definition ret {A} (a : A) : M A := λ w, Some (a, w).

Definition bind {A B} (c : M A) (k : A → M B) : M B :=
  λ w, match c w with
       | Some (a, w') => k a w'
       | None => None
       end.

Notation "x <- c ;; k" := (bind c (λ x, k))
  (at level 100, c at next level, right associativity).
Notation "c ;;; k" := (bind c (λ _, k))
  (at level 100, right associativity).

(** [defer d] at the head of a body: [d] runs when the body has produced the
    values to return. *)
Definition defer {A} (d : M unit) (body : M A) : M A :=
  r <- body ;; d ;;; ret r.

Definition emit (e : event) (w : World) : World :=
  mkWorld (store w) (clock w) (log w ++ [e]).

Definition mu_RLock : M unit := λ w,
  let m := mu (store w) in
  if RWMutex.writer m then None
  else Some (tt, emit EvRLock
    (mkWorld (set_mu (RWMutex.mk (S (RWMutex.readers m)) false) (store w))
             (clock w) (log w))).

Definition mu_RUnlock : M unit := λ w,
  let m := mu (store w) in
  match RWMutex.readers m with
  | O => None
  | S n => Some (tt, emit EvRUnlock
      (mkWorld (set_mu (RWMutex.mk n (RWMutex.writer m)) (store w))
               (clock w) (log w)))
  end.

Definition mu_Lock : M unit := λ w,
  let m := mu (store w) in
  if RWMutex.writer m then None
  else match RWMutex.readers m with
       | O => Some (tt, emit EvLock
           (mkWorld (set_mu (RWMutex.mk 0 true) (store w)) (clock w) (log w)))
       | S _ => None
       end.

Definition mu_Unlock : M unit := λ w,
  let m := mu (store w) in
  if RWMutex.writer m then
    Some (tt, emit EvUnlock
      (mkWorld (set_mu (RWMutex.mk (RWMutex.readers m) false) (store w))
               (clock w) (log w)))
  else None.

(** [time.Now()] *)
Definition Now : M Time := λ w,
  let '(t, c) := time_Now (clock w) in
  Some (t, mkWorld (store w) c (log w)).

(** A read of a shared field. *)
Definition reads {A} (fld : field) (f : MemoryStore → A) : M A := λ w,
  Some (f (store w), emit (EvRead fld) w).

(** An update of a shared field. *)
Definition writes (fld : field) (f : MemoryStore → MemoryStore) : M unit := λ w,
  Some (tt, emit (EvWrite fld) (mkWorld (f (store w)) (clock w) (log w))).

(** [for _, v := range m]: the values of [m] in the visiting order [order]. *)
Definition range_values {V} (m : gmap string V) (order : list string) : list V :=
  omap (λ k, m !! k) order.

(** The visiting order of a [range] over [m] is some enumeration of its keys. *)
Definition range_order {V} (m : gmap string V) (order : list string) : Prop :=
  order ≡ₚ (map_to_list m).*1.

(** [m[k]] for a map of slices: the nil slice when [k] is absent. *)
Definition slice_at {V} (m : gmap string (list V)) (k : string) : list V :=
  default [] (m !! k).

Section Store.

(** [strings.Map(unicode.ToLower, s)], the path [strings.ToLower] takes for
    a string with a byte outside ASCII. The Unicode case tables belong to the
    Go library; the store is verified for any such mapping. *)
Variable unicode_ToLower : string → string.

(** [strings.ToLower] *)
Definition ToLower (s : string) : string :=
  if isASCII s then map_bytes lower_byte s else unicode_ToLower s.

(** [fmt.Errorf("asset not found: %s", id)] *)
Definition asset_not_found (id : string) : error :=
  Some ("asset not found: " +:+ id).

(** One iteration of the loop of [ListAssets]: each [continue] leaves
    [result] as it is, the last statement appends. *)
Definition ListAssets_iter (filter : AssetFilter) (result : list Asset) (a : Asset)
    : list Asset :=
  if bool_decide (AssetFilter.Status filter ≠ "")
     && bool_decide (Asset.Status a ≠ AssetFilter.Status filter) then result
  else if bool_decide (AssetFilter.Category filter ≠ "")
     && bool_decide (Asset.Category a ≠ AssetFilter.Category filter) then result
  else if bool_decide (AssetFilter.Department filter ≠ "")
     && bool_decide (Asset.Department a ≠ AssetFilter.Department filter) then result
  else if bool_decide (AssetFilter.Search filter ≠ "")
     && negb (Contains (ToLower (Asset.Name a)) (ToLower (AssetFilter.Search filter)))
  then result
  else result ++ [a].

(** [ListAssets] returns assets matching the filter. *)
Definition ListAssets (order : list string) (filter : AssetFilter)
    : M (list Asset * error) :=
  mu_RLock ;;;
  defer mu_RUnlock (
    visited <- reads f_assets (λ s, range_values (assets s) order) ;;
    ret (foldl (ListAssets_iter filter) [] visited, None)).

(** [GetAsset] returns a single asset by ID. *)
Definition GetAsset (id : string) : M (option Asset * error) :=
  mu_RLock ;;;
  defer mu_RUnlock (
    asset <- reads f_assets (λ s, assets s !! id) ;;
    match asset with
    | None => ret (None, asset_not_found id)
    | Some a => ret (Some a, None)
    end).

(** [CreateAsset] adds a new asset. The caller's [*asset] is updated in
    place; its final value is returned next to the error. *)
Definition CreateAsset (asset : Asset) : M (Asset * error) :=
  mu_Lock ;;;
  defer mu_Unlock (
    asset <- (if bool_decide (Asset.ID asset = "") then
                writes f_nextID (λ s, set_nextID (int_incr (nextID s)) s) ;;;
                n <- reads f_nextID nextID ;;
                ret (Asset.with_ID ("A" +:+ fmt_03d n) asset)
              else ret asset) ;;
    t <- Now ;;
    let asset := Asset.with_CreatedAt t asset in
    t <- Now ;;
    let asset := Asset.with_UpdatedAt t asset in
    writes f_assets (λ s, set_assets (<[Asset.ID asset := asset]> (assets s)) s) ;;;
    ret (asset, None)).

(** [UpdateAsset] updates an existing asset. *)
Definition UpdateAsset (asset : Asset) : M (Asset * error) :=
  mu_Lock ;;;
  defer mu_Unlock (
    old <- reads f_assets (λ s, assets s !! Asset.ID asset) ;;
    match old with
    | None => ret (asset, asset_not_found (Asset.ID asset))
    | Some _ =>
        t <- Now ;;
        let asset := Asset.with_UpdatedAt t asset in
        writes f_assets (λ s, set_assets (<[Asset.ID asset := asset]> (assets s)) s) ;;;
        ret (asset, None)
    end).

(** [DeleteAsset] removes an asset. *)
Definition DeleteAsset (id : string) : M error :=
  mu_Lock ;;;
  defer mu_Unlock (
    old <- reads f_assets (λ s, assets s !! id) ;;
    match old with
    | None => ret (asset_not_found id)
    | Some _ =>
        writes f_assets (λ s, set_assets (delete id (assets s)) s) ;;;
        ret None
    end).

(** [m[k]++] on a [map[string]int]. *)
Definition count_incr (k : string) (m : gmap string Z) : gmap string Z :=
  <[k := int_incr (default 0 (m !! k))]> m.

(** One iteration of the loop of [GetAssetStats]. *)
Definition GetAssetStats_iter (stats : AssetStats) (a : Asset) : AssetStats :=
  let stats := AssetStats.mk
    (int_incr (AssetStats.Total stats))
    (AssetStats.Active stats) (AssetStats.Maintenance stats)
    (AssetStats.Retired stats)
    (AssetStats.TotalValue stats + Asset.CurrentValue a)%float
    (count_incr (Asset.Category a) (AssetStats.ByCategory stats))
    (count_incr (Asset.Department a) (AssetStats.ByDepartment stats)) in
  if bool_decide (Asset.Status a = "active") then
    AssetStats.mk (AssetStats.Total stats) (int_incr (AssetStats.Active stats))
      (AssetStats.Maintenance stats) (AssetStats.Retired stats)
      (AssetStats.TotalValue stats) (AssetStats.ByCategory stats)
      (AssetStats.ByDepartment stats)
  else if bool_decide (Asset.Status a = "maintenance") then
    AssetStats.mk (AssetStats.Total stats) (AssetStats.Active stats)
      (int_incr (AssetStats.Maintenance stats)) (AssetStats.Retired stats)
      (AssetStats.TotalValue stats) (AssetStats.ByCategory stats)
      (AssetStats.ByDepartment stats)
  else if bool_decide (Asset.Status a = "retired") then
    AssetStats.mk (AssetStats.Total stats) (AssetStats.Active stats)
      (AssetStats.Maintenance stats) (int_incr (AssetStats.Retired stats))
      (AssetStats.TotalValue stats) (AssetStats.ByCategory stats)
      (AssetStats.ByDepartment stats)
  else stats.

(** [GetAssetStats] returns aggregate statistics. *)
Definition GetAssetStats (order : list string) : M (AssetStats * error) :=
  mu_RLock ;;;
  defer mu_RUnlock (
    let stats := AssetStats.mk 0 0 0 0 0%float ∅ ∅ in
    visited <- reads f_assets (λ s, range_values (assets s) order) ;;
    ret (foldl GetAssetStats_iter stats visited, None)).

(** [ListMaintenance] returns maintenance records for an asset. *)
Definition ListMaintenance (assetID : string) : M (list MaintenanceRecord * error) :=
  mu_RLock ;;;
  defer mu_RUnlock (
    records <- reads f_maintenance (λ s, slice_at (maintenance s) assetID) ;;
    ret (records, None)).

(** [ListAllMaintenance] returns all maintenance records. *)
Definition ListAllMaintenance (order : list string)
    : M (list MaintenanceRecord * error) :=
  mu_RLock ;;;
  defer mu_RUnlock (
    visited <- reads f_maintenance (λ s, range_values (maintenance s) order) ;;
    ret (foldl (λ result records, result ++ records) [] visited, None)).

(** [CreateMaintenance] adds a new maintenance record. *)
Definition CreateMaintenance (record : MaintenanceRecord)
    : M (MaintenanceRecord * error) :=
  mu_Lock ;;;
  defer mu_Unlock (
    writes f_nextID (λ s, set_nextID (int_incr (nextID s)) s) ;;;
    n <- reads f_nextID nextID ;;
    let record := MaintenanceRecord.with_ID ("M" +:+ fmt_03d n) record in
    t <- Now ;;
    let record := MaintenanceRecord.with_CreatedAt t record in
    old <- reads f_maintenance
      (λ s, slice_at (maintenance s) (MaintenanceRecord.AssetID record)) ;;
    writes f_maintenance (λ s, set_maintenance
      (<[MaintenanceRecord.AssetID record := old ++ [record]]> (maintenance s)) s) ;;;
    ret (record, None)).

(** [ListAuditEntries] returns audit entries for an asset. *)
Definition ListAuditEntries (assetID : string) : M (list AuditEntry * error) :=
  mu_RLock ;;;
  defer mu_RUnlock (
    entries <- reads f_audit (λ s, slice_at (audit s) assetID) ;;
    ret (entries, None)).

(** [CreateAuditEntry] adds an audit entry. *)
Definition CreateAuditEntry (entry : AuditEntry) : M (AuditEntry * error) :=
  mu_Lock ;;;
  defer mu_Unlock (
    writes f_nextID (λ s, set_nextID (int_incr (nextID s)) s) ;;;
    n <- reads f_nextID nextID ;;
    let entry := AuditEntry.with_ID ("AU" +:+ fmt_03d n) entry in
    t <- Now ;;
    let entry := AuditEntry.with_Timestamp t entry in
    old <- reads f_audit (λ s, slice_at (audit s) (AuditEntry.AssetID entry)) ;;
    writes f_audit (λ s, set_audit
      (<[AuditEntry.AssetID entry := old ++ [entry]]> (audit s)) s) ;;;
    ret (entry, None)).

End Store.

(** The zero value of [time.Time], which a composite literal leaves in a
    field it does not mention. *)
Definition Time_zero : Time := 0.

(** The double-quote byte, code 34, of a string literal. *)
Definition dquote : string := String "034"%char EmptyString.

(** The slice literal [assets] of [loadSampleData]. *)
Definition sample_assets : list Asset := [
    Asset.mk "A001" "IT-LAP-001" ("MacBook Pro 16" +:+ dquote) "Laptops"
      "active" "HQ Floor 3" "Engineering" "John Smith" "2024-01-15"
      2499.00%float 2100.00%float "Apple Inc." "C02XG123HKGY"
      "MacBook Pro 16 M3" "2027-01-15" "Primary development machine" Time_zero
      Time_zero;
    Asset.mk "A002" "IT-LAP-002" "ThinkPad X1 Carbon" "Laptops" "active"
      "HQ Floor 2" "Sales" "Jane Doe" "2024-02-20" 1899.00%float 1650.00%float
      "Lenovo" "PF3ABCD1" "X1 Carbon Gen 11" "2027-02-20" "" Time_zero
      Time_zero;
    Asset.mk "A003" "IT-MON-001" "Dell U2723QE" "Monitors" "active"
      "HQ Floor 3" "Engineering" "John Smith" "2024-01-15" 799.00%float
      700.00%float "Dell" "CN0M2K831234" "UltraSharp 27 4K" "2027-01-15"
      "4K USB-C Hub Monitor" Time_zero Time_zero;
    Asset.mk "A004" "IT-SRV-001" "Dell PowerEdge R750" "Servers" "active"
      "Data Center" "IT Operations" "Unassigned" "2023-06-01" 12500.00%float
      10000.00%float "Dell" "SVCTAG001" "PowerEdge R750xs" "2026-06-01"
      "Primary application server" Time_zero Time_zero;
    Asset.mk "A005" "IT-LAP-003" "MacBook Air M2" "Laptops" "maintenance"
      "IT Storage" "Marketing" "Bob Wilson" "2024-03-10" 1299.00%float
      1150.00%float "Apple Inc." "C02YH456JKLY" "MacBook Air 13 M2"
      "2027-03-10" "Battery replacement scheduled" Time_zero Time_zero;
    Asset.mk "A006" "IT-NET-001" "Cisco Catalyst 9300" "Network" "active"
      "Server Room A" "IT Operations" "Unassigned" "2023-01-20" 4500.00%float
      3800.00%float "Cisco" "FCW2345K001" "C9300-48P" "2026-01-20"
      "48-port PoE+ switch" Time_zero Time_zero;
    Asset.mk "A007" "IT-PRN-001" "HP LaserJet Pro" "Printers" "active"
      "HQ Floor 2" "Shared" "Unassigned" "2024-04-05" 549.00%float
      500.00%float "HP" "VNB3R12345" "M404dn" "2025-04-05"
      "Department printer" Time_zero Time_zero;
    Asset.mk "A008" "IT-LAP-004" "Dell XPS 15" "Laptops" "retired"
      "IT Storage" "Finance" "Unassigned" "2021-05-15" 1799.00%float
      0.00%float "Dell" "5CG123ABC" "XPS 15 9510" "2024-05-15"
      "End of life - data wiped" Time_zero Time_zero;
    Asset.mk "A009" "IT-MON-002" "LG 34WN80C-B" "Monitors" "active"
      "HQ Floor 2" "Sales" "Jane Doe" "2024-02-20" 699.00%float 600.00%float
      "LG" "LG34WN001" "34WN80C-B" "2027-02-20" "Ultrawide monitor" Time_zero
      Time_zero;
    Asset.mk "A010" "IT-LAP-005" "HP EliteBook 840" "Laptops" "active"
      "HQ Floor 1" "HR" "Alice Brown" "2024-05-01" 1499.00%float 1400.00%float
      "HP" "5CG456DEF" "EliteBook 840 G9" "2027-05-01" "" Time_zero Time_zero
  ].

(** The two slice literals assigned to [s.maintenance]. *)
Definition sample_maintenance_A001 : list MaintenanceRecord := [
    MaintenanceRecord.mk "M001" "A001" "2025-01-02" "Scheduled"
      "Annual checkup and cleaning" 75.00%float "" "completed" Time_zero;
    MaintenanceRecord.mk "M002" "A001" "2024-09-15" "Repair"
      "Battery replacement" 199.00%float "" "completed" Time_zero;
    MaintenanceRecord.mk "M003" "A001" "2024-06-20" "Upgrade"
      "RAM upgrade to 32GB" 350.00%float "" "completed" Time_zero
  ].

Definition sample_maintenance_A005 : list MaintenanceRecord := [
    MaintenanceRecord.mk "M004" "A005" "2025-01-03" "Repair"
      "Battery replacement" 189.00%float "" "pending" Time_zero;
    MaintenanceRecord.mk "M005" "A005" "2024-08-10" "Scheduled"
      "Annual checkup" 50.00%float "" "completed" Time_zero
  ].

(** The body of the loop of [loadSampleData]: two clock readings, then the
    copy [a] goes into the map under its own ID. *)
Definition loadSampleData_iter (sc : MemoryStore * Clock) (a : Asset)
    : MemoryStore * Clock :=
  let '(s, c) := sc in
  let '(t, c) := time_Now c in
  let a := Asset.with_CreatedAt t a in
  let '(t, c) := time_Now c in
  let a := Asset.with_UpdatedAt t a in
  (set_assets (<[Asset.ID a := a]> (assets s)) s, c).

Definition loadSampleData (s : MemoryStore) (c : Clock) : MemoryStore * Clock :=
  let '(s, c) := foldl loadSampleData_iter (s, c) sample_assets in
  let s := set_maintenance (<["A001" := sample_maintenance_A001]> (maintenance s)) s in
  let s := set_maintenance (<["A005" := sample_maintenance_A005]> (maintenance s)) s in
  (s, c).

(** [NewMemoryStore] creates a new in-memory store with sample data. The
    store is not shared yet, so no lock is taken. *)
Definition NewMemoryStore (c : Clock) : MemoryStore * Clock :=
  let s := mkMemoryStore unlocked ∅ ∅ ∅ 100 in
  loadSampleData s c.

(** The interface [Store]: the method set the handlers call through, over
    whatever state an implementation keeps. *)
Class Store (S : Type) := {
  Store_ListAssets : AssetFilter → S → option ((list Asset * error) * S);
  Store_GetAsset : string → S → option ((option Asset * error) * S);
  Store_CreateAsset : Asset → S → option ((Asset * error) * S);
  Store_UpdateAsset : Asset → S → option ((Asset * error) * S);
  Store_DeleteAsset : string → S → option (error * S);
  Store_GetAssetStats : S → option ((AssetStats * error) * S);
  Store_ListMaintenance : string → S → option ((list MaintenanceRecord * error) * S);
  Store_ListAllMaintenance : S → option ((list MaintenanceRecord * error) * S);
  Store_CreateMaintenance :
    MaintenanceRecord → S → option ((MaintenanceRecord * error) * S);
  Store_ListAuditEntries : string → S → option ((list AuditEntry * error) * S);
  Store_CreateAuditEntry : AuditEntry → S → option ((AuditEntry * error) * S);
}.

(** The order in which the runtime visits the keys of each map. *)
Record Schedule := mkSchedule {
  assets_order : gmap string Asset → list string;
  maintenance_order : gmap string (list MaintenanceRecord) → list string;
}.

(** [*MemoryStore] implements [Store]. *)
Definition MemoryStore_Store (unicode_ToLower : string → string) (sch : Schedule)
    : Store World := {|
  Store_ListAssets filter w :=
    ListAssets unicode_ToLower (assets_order sch (assets (store w))) filter w;
  Store_GetAsset := GetAsset;
  Store_CreateAsset := CreateAsset;
  Store_UpdateAsset := UpdateAsset;
  Store_DeleteAsset := DeleteAsset;
  Store_GetAssetStats w := GetAssetStats (assets_order sch (assets (store w))) w;
  Store_ListMaintenance := ListMaintenance;
  Store_ListAllMaintenance w :=
    ListAllMaintenance (maintenance_order sch (maintenance (store w))) w;
  Store_CreateMaintenance := CreateMaintenance;
  Store_ListAuditEntries := ListAuditEntries;
  Store_CreateAuditEntry := CreateAuditEntry;
|}.

(** ** package api *)

(** A JSON document as [encoding/json] builds it, before it is printed. A
    [time.Time] is printed as a string in RFC 3339 form; the leaf keeps the
    instant. *)
Inductive json :=
  | JNull
  | JInt (n : Z)
  | JFloat (x : float64)
  | JString (s : string)
  | JTime (t : Time)
  | JArray (elems : list json)
  | JObject (members : list (string * json)).

(** [models.Asset] has a tag on every field and none with [omitempty]. *)
Definition marshal_Asset (a : Asset) : json :=
  JObject [
    ("id", JString (Asset.ID a));
    ("tag", JString (Asset.Tag a));
    ("name", JString (Asset.Name a));
    ("category", JString (Asset.Category a));
    ("status", JString (Asset.Status a));
    ("location", JString (Asset.Location a));
    ("department", JString (Asset.Department a));
    ("assigned_to", JString (Asset.AssignedTo a));
    ("purchase_date", JString (Asset.PurchaseDate a));
    ("purchase_cost", JFloat (Asset.PurchaseCost a));
    ("current_value", JFloat (Asset.CurrentValue a));
    ("vendor", JString (Asset.Vendor a));
    ("serial_number", JString (Asset.SerialNumber a));
    ("model", JString (Asset.Model a));
    ("warranty", JString (Asset.Warranty a));
    ("notes", JString (Asset.Notes a));
    ("created_at", JTime (Asset.CreatedAt a));
    ("updated_at", JTime (Asset.UpdatedAt a))
  ].

(** The values the asset handlers put into an [interface{}]. *)
Inductive dynamic :=
  | of_Assets (v : list Asset)
  | of_AssetPtr (v : option Asset).

(** A nil slice and a nil pointer are printed as [null]. *)
Definition marshal_dynamic (d : dynamic) : json :=
  match d with
  | of_Assets [] => JNull
  | of_Assets v => JArray (marshal_Asset <$> v)
  | of_AssetPtr None => JNull
  | of_AssetPtr (Some a) => marshal_Asset a
  end.

(** [meta]: [Total int `json:"total,omitempty"`] *)
Record meta := mkMeta {
  Total : Z;
}.

(** [apiResponse]: all three fields are tagged [omitempty]; [Data] is an
    [interface{}] ([None] is the nil interface), [Meta] a [*meta]. *)
Record apiResponse := mkApiResponse {
  Data : option dynamic;
  Error : string;
  Meta : option meta;
}.

(** [omitempty] drops a zero number, an empty string, a nil interface and a
    nil pointer. *)
Definition marshal_meta (m : meta) : json :=
  JObject (if bool_decide (Total m = 0) then [] else [("total", JInt (Total m))]).

Definition marshal_apiResponse (r : apiResponse) : json :=
  JObject (
    match Data r with
    | None => []
    | Some d => [("data", marshal_dynamic d)]
    end ++
    (if bool_decide (Error r = "") then [] else [("error", JString (Error r))]) ++
    match Meta r with
    | None => []
    | Some m => [("meta", marshal_meta m)]
    end).

(** [http.ResponseWriter]: the header map, the status line once written, and
    the documents written to the body. *)
Record ResponseWriter := mkResponseWriter {
  header : gmap string (list string);
  status : option Z;
  body : list json;
}.

Definition StatusOK : Z := 200.
Definition StatusNotFound : Z := 404.
Definition StatusInternalServerError : Z := 500.

(** [w.Header().Set(key, value)] *)
Definition Header_Set (key value : string) (w : ResponseWriter) : ResponseWriter :=
  mkResponseWriter (<[key := [value]]> (header w)) (status w) (body w).

(** [w.WriteHeader(code)]: only the first call sets the status. *)
Definition WriteHeader (code : Z) (w : ResponseWriter) : ResponseWriter :=
  match status w with
  | None => mkResponseWriter (header w) (Some code) (body w)
  | Some _ => w
  end.

(** [encoding/json] prints every [float64] but a NaN and the two
    infinities: for these it gives up with an [UnsupportedValueError]. *)
Definition finite (x : float64) : bool := negb (is_nan x) && negb (is_infinity x).

(** A document [encoding/json] can print: none of its numbers is a NaN or
    an infinity. *)
Fixpoint encodable (doc : json) : bool :=
  match doc with
  | JFloat x => finite x
  | JArray elems => forallb encodable elems
  | JObject members => forallb (λ m, encodable m.2) members
  | _ => true
  end.

(** [json.NewEncoder(w).Encode(v)] builds the whole document before it
    writes a byte: for a value it cannot print it returns an error and
    writes nothing, and the handlers drop that error. A write before any
    [WriteHeader] sends status 200. *)
Definition Encode (v : apiResponse) (w : ResponseWriter) : ResponseWriter :=
  let doc := marshal_apiResponse v in
  if encodable doc then
    let w := WriteHeader StatusOK w in
    mkResponseWriter (header w) (status w) (body w ++ [doc])
  else w.

(** [*http.Request]: the parsed query string and the route parameters that
    chi extracted from the path. *)
Record Request := mkRequest {
  URL_Query : gmap string (list string);
  URLParams : gmap string string;
}.

(** [url.Values.Get]: the first value of the key, or the empty string. *)
Definition Values_Get (q : gmap string (list string)) (key : string) : string :=
  match q !! key with
  | Some (v :: _) => v
  | _ => ""
  end.

(** [chi.URLParam(r, key)] *)
Definition URLParam (r : Request) (key : string) : string :=
  default "" (URLParams r !! key).

(** What a handler works on: the store behind [h.store], the response
    writer, and the lines [h.logger] has written. *)
Record Env (S : Type) := mkEnv {
  env_store : S;
  env_w : ResponseWriter;
  env_logger : list string;
}.
Arguments mkEnv {S}.
Arguments env_store {S}.
Arguments env_w {S}.
Arguments env_logger {S}.

Definition respondJSON (code : Z) (data : dynamic) (w : ResponseWriter)
    : ResponseWriter :=
  let w := Header_Set "Content-Type" "application/json" w in
  let w := WriteHeader code w in
  Encode (mkApiResponse (Some data) "" None) w.

Definition respondError (code : Z) (message : string) (w : ResponseWriter)
    : ResponseWriter :=
  let w := Header_Set "Content-Type" "application/json" w in
  let w := WriteHeader code w in
  Encode (mkApiResponse None message None) w.

Definition respondList (data : dynamic) (total : Z) (w : ResponseWriter)
    : ResponseWriter :=
  let w := Header_Set "Content-Type" "application/json" w in
  let w := WriteHeader StatusOK w in
  Encode (mkApiResponse (Some data) "" (Some (mkMeta total))) w.

(** The filter [Handler.ListAssets] builds from the query string; [Limit]
    and [Offset] keep their zero value. *)
Definition request_filter (r : Request) : AssetFilter :=
  AssetFilter.mk
    (Values_Get (URL_Query r) "status")
    (Values_Get (URL_Query r) "category")
    (Values_Get (URL_Query r) "department")
    (Values_Get (URL_Query r) "search")
    0 0.

(** [Handler.ListAssets]: GET /api/assets *)
Definition Handler_ListAssets {S} `{Store S} (r : Request) (e : Env S)
    : option (Env S) :=
  let filter := request_filter r in
  match Store_ListAssets filter (env_store e) with
  | None => None
  | Some ((assets, err), s) =>
      match err with
      | Some msg =>
          Some (mkEnv s
            (respondError StatusInternalServerError "Failed to list assets" (env_w e))
            (env_logger e ++ ["failed to list assets error=" +:+ msg]))
      | None =>
          Some (mkEnv s (respondList (of_Assets assets) (len assets) (env_w e))
                  (env_logger e))
      end
  end.

(** [Handler.GetAsset]: GET /api/assets/{id} *)
Definition Handler_GetAsset {S} `{Store S} (r : Request) (e : Env S)
    : option (Env S) :=
  let id := URLParam r "id" in
  match Store_GetAsset id (env_store e) with
  | None => None
  | Some ((asset, err), s) =>
      match err with
      | Some _ =>
          Some (mkEnv s (respondError StatusNotFound "Asset not found" (env_w e))
                  (env_logger e))
      | None =>
          Some (mkEnv s (respondJSON StatusOK (of_AssetPtr asset) (env_w e))
                  (env_logger e))
      end
  end.

(** ** Vocabulary of the properties *)

(** [sub] occurs in [s]. *)
Definition substring (sub s : string) : Prop :=
  ∃ pre post, s = pre +:+ sub +:+ post.

Section Matching.
Variable unicode_ToLower : string → string.

(** [search] occurs in [name] when the case of letters is ignored. *)
Definition search_hit (search name : string) : Prop :=
  substring (ToLower unicode_ToLower search) (ToLower unicode_ToLower name).

(** An asset satisfies a filter: every field of the filter that is not
    empty holds of the asset. [Limit] and [Offset] play no part. *)
Definition satisfies (filter : AssetFilter) (a : Asset) : Prop :=
  (AssetFilter.Status filter = "" ∨ Asset.Status a = AssetFilter.Status filter) ∧
  (AssetFilter.Category filter = "" ∨ Asset.Category a = AssetFilter.Category filter) ∧
  (AssetFilter.Department filter = ""
     ∨ Asset.Department a = AssetFilter.Department filter) ∧
  (AssetFilter.Search filter = "" ∨ search_hit (AssetFilter.Search filter) (Asset.Name a)).

End Matching.

(** The assets a store holds, one entry per key. *)
Definition stored_assets (s : MemoryStore) : list Asset :=
  (map_to_list (assets s)).*2.

(** The lock a method holds while it runs. *)
Inductive mode := ReadMode | WriteMode.

Definition acquire (m : mode) : event :=
  match m with ReadMode => EvRLock | WriteMode => EvLock end.

Definition release (m : mode) : event :=
  match m with ReadMode => EvRUnlock | WriteMode => EvUnlock end.

(** Under the read lock a method may read the shared fields, under the write
    lock it may read and write them; lock operations are not accesses. *)
Definition access_ok (m : mode) (e : event) : bool :=
  match e, m with
  | EvRead _, _ => true
  | EvWrite _, WriteMode => true
  | _, _ => false
  end.

Global Instance field_eq_dec : EqDecision field.
Proof. solve_decision. Defined.
Global Instance event_eq_dec : EqDecision event.
Proof. solve_decision. Defined.

(** A trace is one critical section in mode [m]: the lock is taken first,
    released last, and everything between is an access the lock allows. *)
Definition critical_section (m : mode) (tr : list event) : bool :=
  match tr with
  | [] => false
  | e :: rest =>
      bool_decide (e = acquire m) &&
      match reverse rest with
      | [] => false
      | r :: accesses => bool_decide (r = release m) && forallb (access_ok m) accesses
      end
  end.

(** A call of one of the eleven methods of [*MemoryStore]. *)
Inductive call :=
  | call_ListAssets (order : list string) (filter : AssetFilter)
  | call_GetAsset (id : string)
  | call_GetAssetStats (order : list string)
  | call_ListMaintenance (assetID : string)
  | call_ListAllMaintenance (order : list string)
  | call_ListAuditEntries (assetID : string)
  | call_CreateAsset (asset : Asset)
  | call_UpdateAsset (asset : Asset)
  | call_DeleteAsset (id : string)
  | call_CreateMaintenance (record : MaintenanceRecord)
  | call_CreateAuditEntry (entry : AuditEntry).

(** The lock each method is expected to take. *)
Definition mode_of (c : call) : mode :=
  match c with
  | call_ListAssets _ _ | call_GetAsset _ | call_GetAssetStats _
  | call_ListMaintenance _ | call_ListAllMaintenance _
  | call_ListAuditEntries _ => ReadMode
  | call_CreateAsset _ | call_UpdateAsset _ | call_DeleteAsset _
  | call_CreateMaintenance _ | call_CreateAuditEntry _ => WriteMode
  end.

Section Calls.
Variable unicode_ToLower : string → string.

(** Runs a call; the value is the identifier the call generated, if it
    generated one ([CreateAsset] does so only for an empty [ID]). *)
Definition exec (c : call) : M (option string) :=
  match c with
  | call_ListAssets order filter =>
      _ <- ListAssets unicode_ToLower order filter ;; ret None
  | call_GetAsset id => _ <- GetAsset id ;; ret None
  | call_GetAssetStats order => _ <- GetAssetStats order ;; ret None
  | call_ListMaintenance assetID => _ <- ListMaintenance assetID ;; ret None
  | call_ListAllMaintenance order => _ <- ListAllMaintenance order ;; ret None
  | call_ListAuditEntries assetID => _ <- ListAuditEntries assetID ;; ret None
  | call_CreateAsset asset =>
      r <- CreateAsset asset ;;
      ret (if bool_decide (Asset.ID asset = "") then Some (Asset.ID r.1) else None)
  | call_UpdateAsset asset => _ <- UpdateAsset asset ;; ret None
  | call_DeleteAsset id => _ <- DeleteAsset id ;; ret None
  | call_CreateMaintenance record =>
      r <- CreateMaintenance record ;; ret (Some (MaintenanceRecord.ID r.1))
  | call_CreateAuditEntry entry =>
      r <- CreateAuditEntry entry ;; ret (Some (AuditEntry.ID r.1))
  end.

(** Runs calls one after the other and collects the generated identifiers. *)
Fixpoint exec_all (cs : list call) : M (list string) :=
  match cs with
  | [] => ret []
  | c :: cs' =>
      id <- exec c ;;
      ids <- exec_all cs' ;;
      ret (match id with Some i => i :: ids | None => ids end)
  end.

End Calls.

(** The world in which a fresh store starts its life. *)
Definition new_world (c : Clock) : World :=
  let '(s, c') := NewMemoryStore c in mkWorld s c' [].

(** The first member named [key] in a list of members. *)
Fixpoint assoc (key : string) (members : list (string * json)) : option json :=
  match members with
  | [] => None
  | (k, v) :: rest => if bool_decide (k = key) then Some v else assoc key rest
  end.

(** Member [key] of a JSON object. *)
Definition member (key : string) (j : json) : option json :=
  match j with
  | JObject members => assoc key members
  | _ => None
  end.

(** The two numbers of an asset, and the one of a maintenance record, are
    neither a NaN nor an infinity. *)
Definition Asset_finite (a : Asset) : bool :=
  finite (Asset.PurchaseCost a) && finite (Asset.CurrentValue a).
Definition Record_finite (r : MaintenanceRecord) : bool :=
  finite (MaintenanceRecord.Cost r).

(** ** Inputs and vocabulary of the examples and of the identifier properties *)

(** A clock whose [k]-th reading is the instant [k]. *)
Definition clock0 : Clock := mkClock (λ k, Z.of_nat k) 0.

(** The world of a store fresh from [NewMemoryStore]. *)
Definition world0 : World := new_world clock0.

(** The visiting order that follows the enumeration of the map. *)
Definition order0 : list string := (map_to_list (assets (store world0))).*1.

(** The filter of the request [GET /api/assets?status=active&search=mac]. *)
Definition active_mac : AssetFilter := AssetFilter.mk "active" "" "" "mac" 0 0.

(** The schedule that follows the enumeration of each map. *)
Definition sch0 : Schedule :=
  mkSchedule (λ m, (map_to_list m).*1) (λ m, (map_to_list m).*1).

(** A handler environment over the fresh store, with nothing written yet. *)
Definition env0 : Env World := mkEnv world0 (mkResponseWriter ∅ None []) [].

(** The request [GET /api/assets/A001]. *)
Definition get_A001 : Request := mkRequest ∅ {["id" := "A001"]}.

(** An update of the sample asset A002 that moves it to another floor. *)
Definition moved_A002 : Asset :=
  Asset.mk "A002" "IT-LAP-002" "ThinkPad X1 Carbon" "Laptops" "active"
    "HQ Floor 4" "Sales" "Jane Doe" "2024-02-20" 1899.00%float 1650.00%float
    "Lenovo" "PF3ABCD1" "X1 Carbon Gen 11" "2027-02-20" "" Time_zero Time_zero.

(** The identifiers of the sample assets. *)
Definition sample_ids : list string :=
  ["A001"; "A002"; "A003"; "A004"; "A005"; "A006"; "A007"; "A008"; "A009"; "A010"].

(** A second asset sent with the ID of the sample asset A003. *)
Definition clash_A003 : Asset :=
  Asset.mk "A003" "IT-MON-009" "Eizo CG2700X" "Monitors" "active" "HQ Floor 1"
    "Design" "Unassigned" "2025-03-01" 3200.00%float 3200.00%float "Eizo"
    "EZ0001" "ColorEdge CG2700X" "2030-03-01" "" Time_zero Time_zero.

(** An asset as [ui.AssetCreate] builds it from a form whose [purchasecost]
    field reads [NaN], a word that [fmt.Sscanf] accepts for [%f]. *)
Definition costs_NaN : Asset :=
  Asset.mk "" "IT-MON-010" "Eizo CG2700X" "Monitors" "active" "HQ Floor 1"
    "Design" "Unassigned" "2025-03-01" nan 3200.00%float "Eizo"
    "EZ0002" "ColorEdge CG2700X" "2030-03-01" "" Time_zero Time_zero.


(** The letters in front of the number in an identifier the call generates. *)
Definition generated_prefix (c : call) : option string :=
  match c with
  | call_CreateAsset asset =>
      if bool_decide (Asset.ID asset = "") then Some "A" else None
  | call_CreateMaintenance _ => Some "M"
  | call_CreateAuditEntry _ => Some "AU"
  | _ => None
  end.

(** A maintenance record as [POST /api/maintenance] decodes it. *)
Definition record0 : MaintenanceRecord :=
  MaintenanceRecord.mk "" "A002" "2025-02-01" "Repair" "Keyboard replacement"
    120.00%float "Sam" "pending" Time_zero.

(** A digit, as opposed to a letter of a prefix. *)
Definition is_digit (c : ascii) : Prop := ∃ d, c = pretty_N_char d.


(** How many of the calls generate an identifier. *)
Fixpoint generated_count (cs : list call) : Z :=
  match cs with
  | [] => 0
  | c :: cs' =>
      match generated_prefix c with Some _ => 1 | None => 0 end + generated_count cs'
  end.

(** A call of [CreateAsset] whose argument brings an [ID] of its own. *)
Definition names_own_ID (c : call) : bool :=
  match c with
  | call_CreateAsset asset => negb (bool_decide (Asset.ID asset = ""))
  | _ => false
  end.

(** Every key of the asset map is the [ID] of a sample asset or an [ID]
    made from a value the counter has already taken. *)
Definition keys_generated (s : MemoryStore) : Prop :=
  ∀ k, is_Some (assets s !! k) →
    k ∈ sample_ids ∨ ∃ n, 100 < n ≤ nextID s ∧ k = "A" +:+ fmt_03d n.

(** An asset without an [ID], as [POST /api/assets] decodes it. *)
Definition unnamed_asset : Asset := Asset.with_ID "" moved_A002.


(** The request [GET /api/assets?status=active&search=mac]. *)
Definition list_active_mac : Request :=
  mkRequest {["status" := ["active"]; "search" := ["mac"]]} ∅.

(** ** Vocabulary of the further properties *)

(** Every record of the store is filed under the key it names: an asset
    under its [ID], a maintenance record and an audit entry under their
    [AssetID]. *)
Definition filed_by_id (s : MemoryStore) : Prop :=
  (∀ k a, assets s !! k = Some a → Asset.ID a = k) ∧
  (∀ k rs r, maintenance s !! k = Some rs → r ∈ rs → MaintenanceRecord.AssetID r = k) ∧
  (∀ k es e, audit s !! k = Some es → e ∈ es → AuditEntry.AssetID e = k).

(** How many assets of a list have a given status, category, department. *)
Definition with_status (st : string) (l : list Asset) : Z :=
  len (filter (λ a, Asset.Status a = st) l).
Definition with_category (c : string) (l : list Asset) : Z :=
  len (filter (λ a, Asset.Category a = c) l).
Definition with_department (d : string) (l : list Asset) : Z :=
  len (filter (λ a, Asset.Department a = d) l).

(** The entry of a counting map for a key counted [n] times: no entry for
    a key never counted. *)
Definition counted (n : Z) : option Z := if decide (n = 0) then None else Some n.

(** The statistics before the first iteration of [GetAssetStats]. *)
Definition stats_zero : AssetStats := AssetStats.mk 0 0 0 0 0%float ∅ ∅.

(** A record for an asset that is not stored, sent with an ID of its own. *)
Definition record_orphan : MaintenanceRecord :=
  MaintenanceRecord.mk "M001" "Z999" "2025-02-01" "Repair" "Unknown device"
    10.00%float "" "pending" Time_zero.

(** An audit entry for the sample asset A002. *)
Definition entry0 : AuditEntry :=
  AuditEntry.mk "" "A002" Time_zero "sam" "update" "moved to floor 4".

(** The visiting order of the maintenance map that follows its enumeration. *)
Definition morder0 : list string := (map_to_list (maintenance (store world0))).*1.

(** An asset sent with the ID the counter of a fresh store produces next. *)
Definition given_A101 : Asset := Asset.with_ID "A101" clash_A003.

(** ** package api: the handlers that read a body or write other values *)

(** [models.MaintenanceRecord] has a tag on every field and none with
    [omitempty]. *)
Definition marshal_MaintenanceRecord (r : MaintenanceRecord) : json :=
  JObject [
    ("id", JString (MaintenanceRecord.ID r));
    ("asset_id", JString (MaintenanceRecord.AssetID r));
    ("date", JString (MaintenanceRecord.Date r));
    ("type", JString (MaintenanceRecord.Type_ r));
    ("description", JString (MaintenanceRecord.Description r));
    ("cost", JFloat (MaintenanceRecord.Cost r));
    ("technician", JString (MaintenanceRecord.Technician r));
    ("status", JString (MaintenanceRecord.Status r));
    ("created_at", JTime (MaintenanceRecord.CreatedAt r))
  ].

(** The values all the handlers modelled here put into an [interface{}]:
    those of the two read handlers, a [models.Asset], a
    [models.MaintenanceRecord] and a [[]models.MaintenanceRecord]. *)
Inductive payload :=
  | of_dynamic (d : dynamic)
  | of_Asset (v : Asset)
  | of_Record (v : MaintenanceRecord)
  | of_Records (v : list MaintenanceRecord).

Definition marshal_payload (p : payload) : json :=
  match p with
  | of_dynamic d => marshal_dynamic d
  | of_Asset a => marshal_Asset a
  | of_Record r => marshal_MaintenanceRecord r
  | of_Records [] => JNull
  | of_Records v => JArray (marshal_MaintenanceRecord <$> v)
  end.

(** The document [encoding/json] prints for an [apiResponse] whose [Data]
    holds a value printed as [data] ([None] for the nil interface). *)
Definition apiResponse_json (data : option json) (err : string) (m : option meta)
    : json :=
  JObject (
    match data with
    | None => []
    | Some d => [("data", d)]
    end ++
    (if bool_decide (err = "") then [] else [("error", JString err)]) ++
    match m with
    | None => []
    | Some m => [("meta", marshal_meta m)]
    end).

(** [json.NewEncoder(w).Encode] of a value printed as [doc]: nothing is
    written when [doc] cannot be printed. *)
Definition Encode_json (doc : json) (w : ResponseWriter) : ResponseWriter :=
  if encodable doc then
    let w := WriteHeader StatusOK w in
    mkResponseWriter (header w) (status w) (body w ++ [doc])
  else w.

(** [respondJSON] and [respondList] at any payload. *)
Definition respondJSON_payload (code : Z) (data : payload) (w : ResponseWriter)
    : ResponseWriter :=
  let w := Header_Set "Content-Type" "application/json" w in
  let w := WriteHeader code w in
  Encode_json (apiResponse_json (Some (marshal_payload data)) "" None) w.

Definition respondList_payload (data : payload) (total : Z) (w : ResponseWriter)
    : ResponseWriter :=
  let w := Header_Set "Content-Type" "application/json" w in
  let w := WriteHeader StatusOK w in
  Encode_json
    (apiResponse_json (Some (marshal_payload data)) "" (Some (mkMeta total))) w.

Definition StatusCreated : Z := 201.
Definition StatusNoContent : Z := 204.
Definition StatusBadRequest : Z := 400.

Section Handlers.

(** [json.NewDecoder(r.Body).Decode(&v)] into a zero [models.Asset] and a
    zero [models.MaintenanceRecord]: the decoded value, or [None] when
    [Decode] returns an error. The decoder belongs to the Go library; the
    handlers are verified for any decoder. *)
Variable decode_Asset : string → option Asset.
Variable decode_MaintenanceRecord : string → option MaintenanceRecord.

Context {S : Type} `{Store S}.

(** [Handler.CreateAsset]: POST /api/assets, [rbody] being the bytes of [r.Body]. *)
Definition Handler_CreateAsset (r : Request) (rbody : string) (e : Env S)
    : option (Env S) :=
  match decode_Asset rbody with
  | None =>
      Some (mkEnv (env_store e)
              (respondError StatusBadRequest "Invalid request body" (env_w e))
              (env_logger e))
  | Some asset =>
      if bool_decide (Asset.Name asset = "") then
        Some (mkEnv (env_store e)
                (respondError StatusBadRequest "Name is required" (env_w e))
                (env_logger e))
      else
        match Store_CreateAsset asset (env_store e) with
        | None => None
        | Some ((asset, Some msg), s) =>
            Some (mkEnv s
                    (respondError StatusInternalServerError "Failed to create asset"
                       (env_w e))
                    (env_logger e ++ ["failed to create asset error=" +:+ msg]))
        | Some ((asset, None), s) =>
            Some (mkEnv s (respondJSON_payload StatusCreated (of_Asset asset) (env_w e))
                    (env_logger e))
        end
  end.

(** [Handler.UpdateAsset]: PUT /api/assets/{id} *)
Definition Handler_UpdateAsset (r : Request) (rbody : string) (e : Env S)
    : option (Env S) :=
  let id := URLParam r "id" in
  match decode_Asset rbody with
  | None =>
      Some (mkEnv (env_store e)
              (respondError StatusBadRequest "Invalid request body" (env_w e))
              (env_logger e))
  | Some asset =>
      let asset := Asset.with_ID id asset in
      match Store_UpdateAsset asset (env_store e) with
      | None => None
      | Some ((asset, Some _), s) =>
          Some (mkEnv s (respondError StatusNotFound "Asset not found" (env_w e))
                  (env_logger e))
      | Some ((asset, None), s) =>
          Some (mkEnv s (respondJSON_payload StatusOK (of_Asset asset) (env_w e))
                  (env_logger e))
      end
  end.

(** [Handler.DeleteAsset]: DELETE /api/assets/{id} *)
Definition Handler_DeleteAsset (r : Request) (e : Env S) : option (Env S) :=
  let id := URLParam r "id" in
  match Store_DeleteAsset id (env_store e) with
  | None => None
  | Some (Some _, s) =>
      Some (mkEnv s (respondError StatusNotFound "Asset not found" (env_w e))
              (env_logger e))
  | Some (None, s) =>
      Some (mkEnv s (WriteHeader StatusNoContent (env_w e)) (env_logger e))
  end.

(** [Handler.GetAssetMaintenance]: GET /api/assets/{id}/maintenance *)
Definition Handler_GetAssetMaintenance (r : Request) (e : Env S) : option (Env S) :=
  let id := URLParam r "id" in
  match Store_ListMaintenance id (env_store e) with
  | None => None
  | Some ((records, Some msg), s) =>
      Some (mkEnv s
              (respondError StatusInternalServerError "Failed to list maintenance"
                 (env_w e))
              (env_logger e ++ ["failed to list maintenance error=" +:+ msg]))
  | Some ((records, None), s) =>
      Some (mkEnv s (respondList_payload (of_Records records) (len records) (env_w e))
              (env_logger e))
  end.

(** [Handler.ListAllMaintenance]: GET /api/maintenance *)
Definition Handler_ListAllMaintenance (r : Request) (e : Env S) : option (Env S) :=
  match Store_ListAllMaintenance (env_store e) with
  | None => None
  | Some ((records, Some msg), s) =>
      Some (mkEnv s
              (respondError StatusInternalServerError "Failed to list maintenance"
                 (env_w e))
              (env_logger e ++ ["failed to list maintenance error=" +:+ msg]))
  | Some ((records, None), s) =>
      Some (mkEnv s (respondList_payload (of_Records records) (len records) (env_w e))
              (env_logger e))
  end.

(** [Handler.CreateMaintenance]: POST /api/maintenance *)
Definition Handler_CreateMaintenance (r : Request) (rbody : string) (e : Env S)
    : option (Env S) :=
  match decode_MaintenanceRecord rbody with
  | None =>
      Some (mkEnv (env_store e)
              (respondError StatusBadRequest "Invalid request body" (env_w e))
              (env_logger e))
  | Some record =>
      if bool_decide (MaintenanceRecord.AssetID record = "") then
        Some (mkEnv (env_store e)
                (respondError StatusBadRequest "Asset ID is required" (env_w e))
                (env_logger e))
      else
        match Store_CreateMaintenance record (env_store e) with
        | None => None
        | Some ((record, Some msg), s) =>
            Some (mkEnv s
                    (respondError StatusInternalServerError
                       "Failed to create maintenance record" (env_w e))
                    (env_logger e ++ ["failed to create maintenance error=" +:+ msg]))
        | Some ((record, None), s) =>
            Some (mkEnv s
                    (respondJSON_payload StatusCreated (of_Record record) (env_w e))
                    (env_logger e))
        end
  end.

End Handlers.

(** A writer after one answer: the JSON content type, the status [code] and
    the document [doc] after whatever the body held. *)
Definition answered (w : ResponseWriter) (code : Z) (doc : json) : ResponseWriter :=
  mkResponseWriter (<["Content-Type" := ["application/json"]]> (header w))
    (Some code) (body w ++ [doc]).

(** A writer after an answer whose document could not be printed: the JSON
    content type and the status [code], the body as it was. *)
Definition status_only (w : ResponseWriter) (code : Z) : ResponseWriter :=
  mkResponseWriter (<["Content-Type" := ["application/json"]]> (header w))
    (Some code) (body w).

(** Every number of every stored asset and maintenance record is finite. *)
Definition store_finite (s : MemoryStore) : Prop :=
  (∀ k a, assets s !! k = Some a → Asset_finite a = true) ∧
  (∀ k rs r, maintenance s !! k = Some rs → r ∈ rs → Record_finite r = true).

(** The numbers the decoders read from the body [raw] are finite. The JSON
    decoder reads no other: a bare NaN or infinity is not JSON, and a
    number too large for a [float64] makes [Decode] fail. *)
Definition decodes_finite (decode_Asset : string → option Asset)
    (decode_MaintenanceRecord : string → option MaintenanceRecord)
    (raw : string) : Prop :=
  (∀ a, decode_Asset raw = Some a → Asset_finite a = true) ∧
  (∀ r, decode_MaintenanceRecord raw = Some r → Record_finite r = true).

(** The envelopes with only an [error] and with only a [data] member. *)
Definition error_doc (msg : string) : json := JObject [("error", JString msg)].
Definition data_doc (data : json) : json := JObject [("data", data)].

(** The envelope of a list: [data] is [null] and [meta] has no [total] for
    the empty list. *)
Definition list_doc (items : list json) : json :=
  match items with
  | [] => JObject [("data", JNull); ("meta", JObject [])]
  | _ => JObject [("data", JArray items);
                  ("meta", JObject [("total", JInt (len items))])]
  end.

(** The routes of [Handler.Router] whose handlers are modelled, and the
    handler each one is bound to. *)
Inductive route :=
  | GET_assets | POST_assets | GET_asset | PUT_asset | DELETE_asset
  | GET_asset_maintenance | GET_maintenance | POST_maintenance.

Definition serve {S} `{Store S}
    (decode_Asset : string → option Asset)
    (decode_MaintenanceRecord : string → option MaintenanceRecord)
    (rt : route) (r : Request) (rbody : string) (e : Env S) : option (Env S) :=
  match rt with
  | GET_assets => Handler_ListAssets r e
  | POST_assets => Handler_CreateAsset decode_Asset r rbody e
  | GET_asset => Handler_GetAsset r e
  | PUT_asset => Handler_UpdateAsset decode_Asset r rbody e
  | DELETE_asset => Handler_DeleteAsset r e
  | GET_asset_maintenance => Handler_GetAssetMaintenance r e
  | GET_maintenance => Handler_ListAllMaintenance r e
  | POST_maintenance => Handler_CreateMaintenance decode_MaintenanceRecord r rbody e
  end.

(** A decoder that reads every body as the asset [a], one that reads every
    body as the record [rec], and the requests of the examples. *)
Definition reads_asset (a : Asset) : string → option Asset := λ _, Some a.
Definition reads_record (rec : MaintenanceRecord)
    : string → option MaintenanceRecord := λ _, Some rec.
Definition no_record : string → option MaintenanceRecord := λ _, None.
Definition no_params : Request := mkRequest ∅ ∅.
Definition at_A002 : Request := mkRequest ∅ {["id" := "A002"]}.
Definition at_Z999 : Request := mkRequest ∅ {["id" := "Z999"]}.
Definition at_A101 : Request := mkRequest ∅ {["id" := "A101"]}.
Definition at_A001 : Request := mkRequest ∅ {["id" := "A001"]}.

(** A maintenance record whose cost is not a number, filed under an id
    with no asset. *)
Definition record_NaN : MaintenanceRecord :=
  MaintenanceRecord.mk "" "Z999" "2025-02-01" "Repair" "Unknown device"
    nan "" "pending" Time_zero.
(** ** package ui (InsureQuote): formatMoney *)

(** The bytes of [s] after the first [n]. *)
Fixpoint str_drop (n : nat) (s : string) : string :=
  match n, s with
  | O, _ => s
  | S n', String _ s' => str_drop n' s'
  | S _, EmptyString => EmptyString
  end.

(** The first [n] bytes of [s]. *)
Fixpoint str_take (n : nat) (s : string) : string :=
  match n, s with
  | S n', String c s' => String c (str_take n' s')
  | _, _ => EmptyString
  end.

(** The slice expression [s[lo:hi]]: a run-time panic ([None]) unless
    [lo <= hi <= len(s)]. *)
Definition slice (s : string) (lo hi : nat) : option string :=
  if bool_decide (lo ≤ hi)%nat && bool_decide (hi ≤ String.length s)%nat
  then Some (str_take (hi - lo) (str_drop lo s))
  else None.

(** The conversion [int64(amount)]: the value with its fraction dropped.
    For a NaN, an infinity or a value outside the range of [int64] the
    language leaves the result to the implementation ([None]). *)
Definition int64_of_float (amount : float64) : option Z :=
  match Prim2SF amount with
  | S754_zero _ => Some 0
  | S754_finite sign m e =>
      let magnitude := if bool_decide (0 ≤ e) then Z.pos m * 2 ^ e
                       else Z.pos m `div` 2 ^ (- e) in
      let v := if sign then - magnitude else magnitude in
      if bool_decide (int_min ≤ v) && bool_decide (v ≤ int_max) then Some v else None
  | _ => None
  end.

(** The loop [for i := offset; i < n; i += 3] of [formatMoney]; [fuel]
    bounds the number of iterations. *)
Fixpoint formatMoney_loop (fuel : nat) (str : string) (n i : nat) (result : string)
    : option string :=
  match fuel with
  | O => if bool_decide (i < n)%nat then None else Some result
  | S fuel' =>
      if bool_decide (i < n)%nat then
        match slice str i (i + 3) with
        | None => None
        | Some group =>
            let result := result +:+ group in
            let result := if bool_decide (i + 3 < n)%nat then result +:+ "," else result in
            formatMoney_loop fuel' str n (i + 3) result
        end
      else Some result
  end.

(** [formatMoney] from [intPart] on. [None] is a panic of a slice
    expression, or a loop that needs more than [len(str)] iterations. *)
Definition formatMoney_int (intPart : Z) : option string :=
  let str := pretty intPart in
  match (if bool_decide (intPart < 0) then slice str 1 (String.length str)
         else Some str) with
  | None => None
  | Some str =>
      let n := String.length str in
      if bool_decide (n ≤ 3)%nat then
        if bool_decide (intPart < 0) then Some ("-$" +:+ str) else Some ("$" +:+ str)
      else
        let offset := (n `mod` 3)%nat in
        match (if bool_decide (0 < offset)%nat then
                 match slice str 0 offset with
                 | None => None
                 | Some head =>
                     Some (if bool_decide (3 < n)%nat then head +:+ "," else head)
                 end
               else Some "") with
        | None => None
        | Some result =>
            match formatMoney_loop n str n offset result with
            | None => None
            | Some result =>
                if bool_decide (intPart < 0) then Some ("-$" +:+ result)
                else Some ("$" +:+ result)
            end
        end
  end.

(** [formatMoney] formats a float64 as a dollar amount with thousand
    separators. *)
Definition formatMoney (amount : float64) : option (option string) :=
  match int64_of_float amount with
  | None => None
  | Some intPart => Some (formatMoney_int intPart)
  end.

(** The strings of a list, one after the other. *)
Fixpoint flatten (l : list string) : string :=
  match l with
  | [] => EmptyString
  | s :: l' => s +:+ flatten l'
  end.

(** A leading group of digits followed by further groups, a comma in front
    of each of these. *)
Definition grouped (head : string) (groups : list string) : string :=
  head +:+ flatten ((λ g, "," +:+ g) <$> groups).

(** ** package middleware: CORS *)

(** What the middleware reads of a [*http.Request]: the method and
    [r.Header.Get], the first value of a header or the empty string, next
    to the part the handlers read. *)
Record HTTPRequest := mkHTTPRequest {
  Method : string;
  Header_Get : string → string;
  request : Request;
}.

(** An [http.Handler] over whatever state [Σ] the handlers below it keep;
    [None] when it does not return. *)
Definition HTTPHandler (Σ : Type) : Type :=
  HTTPRequest → Σ * ResponseWriter → option (Σ * ResponseWriter).

(** The loop of [CORS] over [allowedOrigins], which stops at the first
    entry that is ["*"] or the origin. *)
Fixpoint origin_allowed (allowedOrigins : list string) (origin : string) : bool :=
  match allowedOrigins with
  | [] => false
  | o :: rest =>
      if bool_decide (o = "*") || bool_decide (o = origin) then true
      else origin_allowed rest origin
  end.

(** The four headers [CORS] sets for an allowed origin. *)
Definition cors_headers (origin : string) (w : ResponseWriter) : ResponseWriter :=
  let w := Header_Set "Access-Control-Allow-Origin" origin w in
  let w := Header_Set "Access-Control-Allow-Methods"
             "GET, POST, PUT, DELETE, OPTIONS" w in
  let w := Header_Set "Access-Control-Allow-Headers" "Content-Type, Authorization" w in
  Header_Set "Access-Control-Max-Age" "86400" w.

(** [CORS] adds Cross-Origin Resource Sharing headers. *)
Definition CORS {Σ} (allowedOrigins : list string) (next : HTTPHandler Σ)
    : HTTPHandler Σ :=
  λ r '(σ, w),
    let origin := Header_Get r "Origin" in
    let allowed := origin_allowed allowedOrigins origin in
    let w := if allowed then cors_headers origin w else w in
    if bool_decide (Method r = "OPTIONS") then Some (σ, WriteHeader StatusNoContent w)
    else next r (σ, w).

(** What the loop writes for the groups that are left. *)
Definition joined (gs : list string) : string :=
  match gs with
  | [] => EmptyString
  | g :: gs' => grouped g gs'
  end.

(** A wrapped handler that answers 200 and counts its calls, a request from
    [https://app.example] and the same request as a preflight. *)
Definition counting : HTTPHandler nat :=
  λ _ '(n, w), Some (S n, WriteHeader StatusOK w).
Definition from_app (method : string) : HTTPRequest :=
  mkHTTPRequest method
    (λ k, if bool_decide (k = "Origin") then "https://app.example" else "") no_params.

(** * Properties *)

(** ** Strings *)

Lemma HasPrefix_spec s p : HasPrefix s p = true ↔ ∃ post, s = p +:+ post.
Proof.
  revert s. induction p as [|c p IH]; intros s.
  - split; [intros _; by exists s | by destruct s].
  - destruct s as [|d s]; simpl.
    + split; [done | intros [post H]; discriminate].
    + rewrite andb_true_iff, bool_decide_eq_true, IH. split.
      * intros [-> [post ->]]. by exists post.
      * intros [post H]. injection H as -> ->. split; [done | by exists post].
Qed.

Lemma Contains_unfold s sub :
  Contains s sub = HasPrefix s sub ||
    match s with EmptyString => false | String _ s' => Contains s' sub end.
Proof. by destruct s. Qed.

Lemma Contains_spec s sub : Contains s sub = true ↔ substring sub s.
Proof.
  unfold substring. split.
  - induction s as [|c s IH]; rewrite Contains_unfold, orb_true_iff.
    + intros [H|H]; [|done]. apply HasPrefix_spec in H as [post ->].
      by exists "", post.
    + intros [H|H].
      * apply HasPrefix_spec in H as [post ->]. by exists "", post.
      * destruct (IH H) as (pre & post & ->). by exists (String c pre), post.
  - intros (pre & post & ->). induction pre as [|c pre IH].
    + rewrite Contains_unfold, orb_true_iff. left.
      apply HasPrefix_spec. by exists post.
    + simpl. rewrite orb_true_iff. by right.
Qed.

(** ** Filtering *)

Section Filtering.
Variable unicode_ToLower : string → string.
Abbreviation ToLower' := (ToLower unicode_ToLower).
Abbreviation satisfies' := (satisfies unicode_ToLower).
Abbreviation ListAssets_iter' := (ListAssets_iter unicode_ToLower).

Global Instance substring_dec sub s : Decision (substring sub s).
Proof.
  refine (cast_if (decide (Contains s sub = true))); by rewrite <- Contains_spec.
Defined.

Global Instance satisfies_dec filter a : Decision (satisfies' filter a).
Proof. unfold satisfies, search_hit. apply _. Defined.

Lemma clause_passes (x y : string) :
  bool_decide (x ≠ "") && bool_decide (y ≠ x) = false ↔ x = "" ∨ y = x.
Proof.
  rewrite andb_false_iff, !bool_decide_eq_false.
  destruct (decide (x = "")), (decide (y = x)); tauto.
Qed.

Lemma search_passes (x y : string) :
  bool_decide (x ≠ "") && negb (Contains (ToLower' y) (ToLower' x)) = false
  ↔ x = "" ∨ search_hit unicode_ToLower x y.
Proof.
  unfold search_hit. rewrite <- Contains_spec.
  rewrite andb_false_iff, bool_decide_eq_false, negb_false_iff.
  destruct (decide (x = "")); tauto.
Qed.

Lemma ListAssets_iter_spec flt result a :
  ListAssets_iter' flt result a =
    if decide (satisfies' flt a) then result ++ [a] else result.
Proof.
  unfold ListAssets_iter.
  destruct (decide (satisfies' flt a)) as [(Hs & Hc & Hd & Hq)|Hn].
  - apply clause_passes in Hs, Hc, Hd. apply search_passes in Hq.
    by rewrite Hs, Hc, Hd, Hq.
  - repeat lazymatch goal with
      | |- (if ?b then _ else _) = _ =>
          let E := fresh "E" in destruct b eqn:E; [done | cbv iota]
      end.
    apply clause_passes in E, E0, E1. apply search_passes in E2.
    by destruct Hn.
Qed.

Lemma ListAssets_loop flt (visited acc : list Asset) :
  foldl (ListAssets_iter' flt) acc visited
  = acc ++ filter (satisfies' flt) visited.
Proof.
  revert acc. induction visited as [|a visited IH]; intros acc; simpl.
  - by rewrite app_nil_r.
  - rewrite IH, ListAssets_iter_spec, filter_cons.
    case_decide; [by rewrite <- app_assoc | done].
Qed.

End Filtering.

Lemma range_values_lookup {V} (m : gmap string V) (kvs : list (string * V)) :
  (∀ k v, (k, v) ∈ kvs → m !! k = Some v) →
  range_values m kvs.*1 = kvs.*2.
Proof.
  unfold range_values. induction kvs as [|[k v] kvs IH]; intros Hin; [done|].
  simpl. rewrite (Hin k v) by left. simpl. f_equal. apply IH.
  intros k' v' H. apply Hin. by right.
Qed.

Lemma range_values_perm {V} (m : gmap string V) order :
  range_order m order → range_values m order ≡ₚ (map_to_list m).*2.
Proof.
  unfold range_order. intros Hp.
  rewrite <- (range_values_lookup m (map_to_list m)).
  - unfold range_values. by rewrite Hp.
  - intros k v. apply elem_of_map_to_list.
Qed.

(** ** What each method computes when the mutex is free *)

Ltac open_world w Hmu :=
  destruct w as [[m a mt au n] [nw tk] l]; simpl in Hmu; subst m.

Ltac run_method :=
  unfold defer, bind, ret, reads, writes, Now, time_Now, mu_RLock, mu_RUnlock,
    mu_Lock, mu_Unlock, emit, set_mu, set_assets, set_maintenance, set_audit,
    set_nextID; simpl; rewrite <- ?app_assoc; simpl.

Lemma ListAssets_run lower order flt w :
  mu (store w) = unlocked →
  ListAssets lower order flt w =
    Some ((foldl (ListAssets_iter lower flt) []
             (range_values (assets (store w)) order), None),
          mkWorld (store w) (clock w)
            (log w ++ [EvRLock; EvRead f_assets; EvRUnlock])).
Proof. intros Hmu. open_world w Hmu. unfold ListAssets. by run_method. Qed.

Lemma GetAsset_run id w :
  mu (store w) = unlocked →
  GetAsset id w =
    Some ((assets (store w) !! id,
           match assets (store w) !! id with
           | None => asset_not_found id
           | Some _ => None
           end),
          mkWorld (store w) (clock w)
            (log w ++ [EvRLock; EvRead f_assets; EvRUnlock])).
Proof.
  intros Hmu. open_world w Hmu. unfold GetAsset. run_method.
  destruct (a !! id); by run_method.
Qed.

Lemma CreateAsset_run_fresh asset w :
  mu (store w) = unlocked → Asset.ID asset = "" →
  let n := int_incr (nextID (store w)) in
  let t1 := now (clock w) (ticks (clock w)) in
  let t2 := now (clock w) (S (ticks (clock w))) in
  let asset' := Asset.with_UpdatedAt t2
                  (Asset.with_CreatedAt t1 (Asset.with_ID ("A" +:+ fmt_03d n) asset)) in
  CreateAsset asset w =
    Some ((asset', None),
          mkWorld (set_assets (<[Asset.ID asset' := asset']> (assets (store w)))
                     (set_nextID n (store w)))
                  (mkClock (now (clock w)) (S (S (ticks (clock w)))))
                  (log w ++ [EvLock; EvWrite f_nextID; EvRead f_nextID;
                             EvWrite f_assets; EvUnlock])).
Proof.
  intros Hmu Hid. open_world w Hmu. unfold CreateAsset.
  rewrite bool_decide_eq_true_2 by done. by run_method.
Qed.

Lemma CreateAsset_run_given asset w :
  mu (store w) = unlocked → Asset.ID asset ≠ "" →
  let t1 := now (clock w) (ticks (clock w)) in
  let t2 := now (clock w) (S (ticks (clock w))) in
  let asset' := Asset.with_UpdatedAt t2 (Asset.with_CreatedAt t1 asset) in
  CreateAsset asset w =
    Some ((asset', None),
          mkWorld (set_assets (<[Asset.ID asset := asset']> (assets (store w)))
                     (store w))
                  (mkClock (now (clock w)) (S (S (ticks (clock w)))))
                  (log w ++ [EvLock; EvWrite f_assets; EvUnlock])).
Proof.
  intros Hmu Hid. open_world w Hmu. unfold CreateAsset.
  rewrite bool_decide_eq_false_2 by done. by run_method.
Qed.

Lemma UpdateAsset_run_missing asset w :
  mu (store w) = unlocked → assets (store w) !! Asset.ID asset = None →
  UpdateAsset asset w =
    Some ((asset, asset_not_found (Asset.ID asset)),
          mkWorld (store w) (clock w) (log w ++ [EvLock; EvRead f_assets; EvUnlock])).
Proof.
  intros Hmu Hl. open_world w Hmu. simpl in Hl. unfold UpdateAsset. run_method.
  rewrite Hl. by run_method.
Qed.

Lemma UpdateAsset_run_found asset old w :
  mu (store w) = unlocked → assets (store w) !! Asset.ID asset = Some old →
  let asset' := Asset.with_UpdatedAt (now (clock w) (ticks (clock w))) asset in
  UpdateAsset asset w =
    Some ((asset', None),
          mkWorld (set_assets (<[Asset.ID asset := asset']> (assets (store w)))
                     (store w))
                  (mkClock (now (clock w)) (S (ticks (clock w))))
                  (log w ++ [EvLock; EvRead f_assets; EvWrite f_assets; EvUnlock])).
Proof.
  intros Hmu Hl. open_world w Hmu. simpl in Hl. unfold UpdateAsset. run_method.
  rewrite Hl. by run_method.
Qed.

Lemma DeleteAsset_run_missing id w :
  mu (store w) = unlocked → assets (store w) !! id = None →
  DeleteAsset id w =
    Some (asset_not_found id,
          mkWorld (store w) (clock w) (log w ++ [EvLock; EvRead f_assets; EvUnlock])).
Proof.
  intros Hmu Hl. open_world w Hmu. simpl in Hl. unfold DeleteAsset. run_method.
  rewrite Hl. by run_method.
Qed.

Lemma DeleteAsset_run_found id old w :
  mu (store w) = unlocked → assets (store w) !! id = Some old →
  DeleteAsset id w =
    Some (None,
          mkWorld (set_assets (delete id (assets (store w))) (store w)) (clock w)
                  (log w ++ [EvLock; EvRead f_assets; EvWrite f_assets; EvUnlock])).
Proof.
  intros Hmu Hl. open_world w Hmu. simpl in Hl. unfold DeleteAsset. run_method.
  rewrite Hl. by run_method.
Qed.

Lemma GetAssetStats_run order w :
  mu (store w) = unlocked →
  ∃ stats, GetAssetStats order w =
    Some ((stats, None),
          mkWorld (store w) (clock w)
            (log w ++ [EvRLock; EvRead f_assets; EvRUnlock])).
Proof. intros Hmu. open_world w Hmu. unfold GetAssetStats. eexists. by run_method. Qed.

Lemma ListMaintenance_run assetID w :
  mu (store w) = unlocked →
  ListMaintenance assetID w =
    Some ((slice_at (maintenance (store w)) assetID, None),
          mkWorld (store w) (clock w)
            (log w ++ [EvRLock; EvRead f_maintenance; EvRUnlock])).
Proof. intros Hmu. open_world w Hmu. unfold ListMaintenance. by run_method. Qed.

Lemma ListAllMaintenance_run order w :
  mu (store w) = unlocked →
  ∃ records, ListAllMaintenance order w =
    Some ((records, None),
          mkWorld (store w) (clock w)
            (log w ++ [EvRLock; EvRead f_maintenance; EvRUnlock])).
Proof.
  intros Hmu. open_world w Hmu. unfold ListAllMaintenance. eexists. by run_method.
Qed.

Lemma CreateMaintenance_run record w :
  mu (store w) = unlocked →
  let n := int_incr (nextID (store w)) in
  let record' := MaintenanceRecord.with_CreatedAt (now (clock w) (ticks (clock w)))
                   (MaintenanceRecord.with_ID ("M" +:+ fmt_03d n) record) in
  let k := MaintenanceRecord.AssetID record in
  CreateMaintenance record w =
    Some ((record', None),
          mkWorld (set_maintenance
                     (<[k := slice_at (maintenance (store w)) k ++ [record']]>
                        (maintenance (store w)))
                     (set_nextID n (store w)))
                  (mkClock (now (clock w)) (S (ticks (clock w))))
                  (log w ++ [EvLock; EvWrite f_nextID; EvRead f_nextID;
                             EvRead f_maintenance; EvWrite f_maintenance; EvUnlock])).
Proof. intros Hmu. open_world w Hmu. unfold CreateMaintenance. by run_method. Qed.

Lemma ListAuditEntries_run assetID w :
  mu (store w) = unlocked →
  ListAuditEntries assetID w =
    Some ((slice_at (audit (store w)) assetID, None),
          mkWorld (store w) (clock w)
            (log w ++ [EvRLock; EvRead f_audit; EvRUnlock])).
Proof. intros Hmu. open_world w Hmu. unfold ListAuditEntries. by run_method. Qed.

Lemma CreateAuditEntry_run entry w :
  mu (store w) = unlocked →
  let n := int_incr (nextID (store w)) in
  let entry' := AuditEntry.with_Timestamp (now (clock w) (ticks (clock w)))
                  (AuditEntry.with_ID ("AU" +:+ fmt_03d n) entry) in
  let k := AuditEntry.AssetID entry in
  CreateAuditEntry entry w =
    Some ((entry', None),
          mkWorld (set_audit
                     (<[k := slice_at (audit (store w)) k ++ [entry']]>
                        (audit (store w)))
                     (set_nextID n (store w)))
                  (mkClock (now (clock w)) (S (ticks (clock w))))
                  (log w ++ [EvLock; EvWrite f_nextID; EvRead f_nextID;
                             EvRead f_audit; EvWrite f_audit; EvUnlock])).
Proof. intros Hmu. open_world w Hmu. unfold CreateAuditEntry. by run_method. Qed.

(** ** The sample world *)

Lemma world0_unlocked : mu (store world0) = unlocked.
Proof. vm_compute. reflexivity. Qed.

Lemma order0_ok : range_order (assets (store world0)) order0.
Proof. unfold range_order, order0. reflexivity. Qed.

(** ** ListAssets *)

Lemma filter_all {A} (P : A → Prop) `{∀ x, Decision (P x)} (l : list A) :
  (∀ x, x ∈ l → P x) → filter P l = l.
Proof.
  induction l as [|x l IH]; intros Hall; [done|].
  rewrite filter_cons_True by (apply Hall; left).
  f_equal. apply IH. intros y Hy. apply Hall. by right.
Qed.

(** C1. With the mutex free and any visiting order of the keys, [ListAssets]
    returns a nil error and, up to order, exactly the stored assets
    that satisfy every non-empty field of the filter: equality on [Status],
    [Category] and [Department], and occurrence of [Search] in [Name] with
    the case of letters ignored. The store is left as it was, and a filter
    with the four fields empty returns every stored asset. *)
Theorem ListAssets_returns_matching lower order flt w :
  mu (store w) = unlocked →
  range_order (assets (store w)) order →
  ∃ result w',
    ListAssets lower order flt w = Some ((result, None), w') ∧
    store w' = store w ∧
    result ≡ₚ filter (satisfies lower flt) (stored_assets (store w)) ∧
    (∀ a, a ∈ result ↔ a ∈ stored_assets (store w) ∧ satisfies lower flt a) ∧
    (AssetFilter.Status flt = "" → AssetFilter.Category flt = "" →
     AssetFilter.Department flt = "" → AssetFilter.Search flt = "" →
     result ≡ₚ stored_assets (store w)).
Proof.
  intros Hmu Hord. eexists _, _. split; [by apply ListAssets_run|].
  rewrite ListAssets_loop. simpl.
  assert (filter (satisfies lower flt) (range_values (assets (store w)) order)
          ≡ₚ filter (satisfies lower flt) (stored_assets (store w))) as Hperm.
  { unfold stored_assets. by rewrite (range_values_perm _ _ Hord). }
  split_and!; [done|done| |].
  - intros a. rewrite Hperm, list_elem_of_filter. tauto.
  - intros Hs Hc Hd Hq. rewrite Hperm.
    rewrite filter_all; [done|].
    intros a _. unfold satisfies. tauto.
Qed.

Lemma ListAssets_returns_matching_witness :
  mu (store world0) = unlocked ∧
  range_order (assets (store world0)) order0 ∧
  ∃ result w',
    ListAssets id order0 active_mac world0 = Some ((result, None), w') ∧
    store w' = store world0 ∧
    result ≡ₚ filter (satisfies id active_mac) (stored_assets (store world0)) ∧
    (∀ a, a ∈ result ↔ a ∈ stored_assets (store world0) ∧ satisfies id active_mac a) ∧
    (AssetFilter.Status active_mac = "" → AssetFilter.Category active_mac = "" →
     AssetFilter.Department active_mac = "" → AssetFilter.Search active_mac = "" →
     result ≡ₚ stored_assets (store world0)).
Proof.
  split; [exact world0_unlocked|]. split; [exact order0_ok|].
  apply (ListAssets_returns_matching id order0 active_mac world0);
    [exact world0_unlocked | exact order0_ok].
Defined.

(** On the sample data the filter [status=active], [search=mac] selects the
    MacBook Pro (A001); the MacBook Air (A005) is under maintenance. The
    search ignores the case of ASCII letters on both sides. *)
Example ListAssets_active_mac :
  (λ r : list Asset * error * World, Asset.ID <$> r.1.1) <$>
    ListAssets id order0 active_mac world0 = Some ["A001"] ∧
  (λ r : list Asset * error * World, Asset.ID <$> r.1.1) <$>
    ListAssets id order0 (AssetFilter.mk "" "" "" "BOOK a" 0 0) world0 = Some ["A005"].
Proof. split; vm_compute; reflexivity. Qed.

(** C8. [ListAssets] never looks at [Limit] and [Offset]: two filters that
    differ only there give the same outcome in every world, and with the
    mutex free every stored asset that satisfies the filter is in the
    result, as many times as it is stored, whatever the two fields say. *)
Theorem ListAssets_ignores_Limit_Offset lower order flt limit offset w :
  let paged := AssetFilter.mk (AssetFilter.Status flt) (AssetFilter.Category flt)
                 (AssetFilter.Department flt) (AssetFilter.Search flt) limit offset in
  ListAssets lower order paged w = ListAssets lower order flt w ∧
  (mu (store w) = unlocked → range_order (assets (store w)) order →
   ∃ result w',
     ListAssets lower order paged w = Some ((result, None), w') ∧
     result ≡ₚ filter (satisfies lower flt) (stored_assets (store w))).
Proof.
  intros paged. split; [reflexivity|]. intros Hmu Hord.
  eexists _, _. split; [by apply ListAssets_run|].
  rewrite ListAssets_loop. simpl. unfold stored_assets.
  rewrite (range_values_perm _ _ Hord).
  apply reflexive_eq, list_filter_iff. intros a. by unfold satisfies.
Qed.

Lemma ListAssets_ignores_Limit_Offset_witness :
  let paged := AssetFilter.mk "active" "" "" "mac" 1 5 in
  ListAssets id order0 paged world0 = ListAssets id order0 active_mac world0 ∧
  ∃ result w',
    ListAssets id order0 paged world0 = Some ((result, None), w') ∧
    result ≡ₚ filter (satisfies id active_mac) (stored_assets (store world0)).
Proof.
  destruct (ListAssets_ignores_Limit_Offset id order0 active_mac 1 5 world0)
    as [Heq Hall].
  split; [exact Heq | exact (Hall world0_unlocked order0_ok)].
Defined.

(** ** GetAsset *)

(** What [encoding/json] can print of an asset and of a list of assets. *)
Lemma encodable_marshal_Asset a : encodable (marshal_Asset a) = Asset_finite a.
Proof. unfold Asset_finite. simpl. by rewrite andb_true_r. Qed.

Lemma encodable_marshal_Assets assets :
  encodable (marshal_dynamic (of_Assets assets)) = forallb Asset_finite assets.
Proof.
  destruct assets as [|a assets]; [done|].
  change (forallb encodable (marshal_Asset <$> a :: assets)
          = forallb Asset_finite (a :: assets)).
  induction (a :: assets) as [|a' l IH]; [done|].
  rewrite fmap_cons. cbn [forallb]. by rewrite encodable_marshal_Asset, IH.
Qed.

(** What the three helpers write on a writer with no status yet: the
    content type, the status, and the envelope unless it cannot be
    printed. *)
Lemma respondError_written code msg w :
  status w = None →
  respondError code msg w
  = mkResponseWriter (<["Content-Type" := ["application/json"]]> (header w))
      (Some code) (body w ++ [marshal_apiResponse (mkApiResponse None msg None)]).
Proof.
  intros Hst. destruct w as [hd st bd]. simpl in Hst. subst st.
  unfold respondError, Encode, marshal_apiResponse. simpl.
  by case_bool_decide.
Qed.


Lemma respondList_written d total w :
  status w = None →
  respondList d total w
  = mkResponseWriter (<["Content-Type" := ["application/json"]]> (header w))
      (Some StatusOK)
      (body w ++ if encodable (marshal_dynamic d)
                 then [JObject [("data", marshal_dynamic d);
                                ("meta", marshal_meta (mkMeta total))]]
                 else []).
Proof.
  intros Hst. destruct w as [hd st bd]. simpl in Hst. subst st.
  assert (encodable (marshal_meta (mkMeta total)) = true) as Hmeta
    by (unfold marshal_meta; by case_bool_decide).
  unfold respondList, Encode, marshal_apiResponse. cbn -[marshal_dynamic marshal_meta].
  rewrite (bool_decide_eq_true_2 ("" = "")) by done.
  cbn -[marshal_dynamic marshal_meta]. rewrite Hmeta, !andb_true_r.
  destruct (encodable (marshal_dynamic d)); [done|]. cbn. by rewrite app_nil_r.
Qed.





(** The sample asset A001 has finite costs and is sent as [data]. *)
Example GET_A001_sample :
  (λ e' : Env World, (status (env_w e'), length (body (env_w e')))) <$>
    @Handler_GetAsset World (MemoryStore_Store id sch0) get_A001 env0
  = Some (Some 200, 1%nat).
Proof. vm_compute. reflexivity. Qed.

(** ** UpdateAsset *)

(** C3. [UpdateAsset] returns an error exactly when no asset is stored
    under [asset.ID]. On error the store and the argument are as before. On
    success the argument has its [UpdatedAt] set to the clock reading, the
    store holds that value under [asset.ID], and every other asset, the
    maintenance records, the audit entries and the counter are untouched. *)
Theorem UpdateAsset_error_iff_missing asset w :
  mu (store w) = unlocked →
  ∃ asset' err w',
    UpdateAsset asset w = Some ((asset', err), w') ∧
    (err ≠ None ↔ assets (store w) !! Asset.ID asset = None) ∧
    (err ≠ None → store w' = store w ∧ asset' = asset) ∧
    (err = None →
       asset' = Asset.with_UpdatedAt (now (clock w) (ticks (clock w))) asset ∧
       assets (store w') !! Asset.ID asset = Some asset' ∧
       (∀ id, id ≠ Asset.ID asset → assets (store w') !! id = assets (store w) !! id) ∧
       maintenance (store w') = maintenance (store w) ∧
       audit (store w') = audit (store w) ∧
       nextID (store w') = nextID (store w) ∧
       mu (store w') = mu (store w)).
Proof.
  intros Hmu. destruct (assets (store w) !! Asset.ID asset) as [old|] eqn:Hl.
  - eexists _, _, _. split; [by eapply UpdateAsset_run_found|].
    split; [split; [by intros []|done]|]. split; [by intros []|].
    intros _. simpl. split; [done|]. split; [by rewrite lookup_insert_eq|].
    split; [|done]. intros id Hne. by rewrite lookup_insert_ne.
  - eexists _, _, _. split; [by apply UpdateAsset_run_missing|].
    split; [done|]. split; done.
Qed.

Lemma UpdateAsset_error_iff_missing_witness :
  mu (store world0) = unlocked ∧
  ∃ asset' err w',
    UpdateAsset moved_A002 world0 = Some ((asset', err), w') ∧
    (err ≠ None ↔ assets (store world0) !! Asset.ID moved_A002 = None) ∧
    (err ≠ None → store w' = store world0 ∧ asset' = moved_A002) ∧
    (err = None →
       asset' = Asset.with_UpdatedAt (now (clock world0) (ticks (clock world0)))
                  moved_A002 ∧
       assets (store w') !! Asset.ID moved_A002 = Some asset' ∧
       (∀ id, id ≠ Asset.ID moved_A002 →
              assets (store w') !! id = assets (store world0) !! id) ∧
       maintenance (store w') = maintenance (store world0) ∧
       audit (store w') = audit (store world0) ∧
       nextID (store w') = nextID (store world0) ∧
       mu (store w') = mu (store world0)).
Proof.
  split; [exact world0_unlocked|].
  apply (UpdateAsset_error_iff_missing moved_A002 world0). exact world0_unlocked.
Defined.

(** ** DeleteAsset *)

(** C4. [DeleteAsset] returns an error exactly when no asset is stored
    under the id, and then leaves the store as it was. On success the asset
    map loses that key and nothing else; the maintenance records and audit
    entries, those filed under the deleted id included, and the counter stay
    as they were. *)
Theorem DeleteAsset_removes_only_asset id w :
  mu (store w) = unlocked →
  ∃ err w',
    DeleteAsset id w = Some (err, w') ∧
    (err ≠ None ↔ assets (store w) !! id = None) ∧
    (err ≠ None → store w' = store w) ∧
    (err = None →
       assets (store w') = delete id (assets (store w)) ∧
       assets (store w') !! id = None ∧
       (∀ id', id' ≠ id → assets (store w') !! id' = assets (store w) !! id') ∧
       maintenance (store w') = maintenance (store w) ∧
       audit (store w') = audit (store w) ∧
       nextID (store w') = nextID (store w) ∧
       mu (store w') = mu (store w)).
Proof.
  intros Hmu. destruct (assets (store w) !! id) as [old|] eqn:Hl.
  - eexists _, _. split; [by eapply DeleteAsset_run_found|].
    split; [split; [by intros []|done]|]. split; [by intros []|].
    intros _. simpl. split; [done|]. split; [by rewrite lookup_delete_eq|].
    split; [|done]. intros id' Hne. by rewrite lookup_delete_ne.
  - eexists _, _. split; [by apply DeleteAsset_run_missing|].
    split; [done|]. split; done.
Qed.

Lemma DeleteAsset_removes_only_asset_witness :
  mu (store world0) = unlocked ∧
  ∃ err w',
    DeleteAsset "A001" world0 = Some (err, w') ∧
    (err ≠ None ↔ assets (store world0) !! "A001" = None) ∧
    (err ≠ None → store w' = store world0) ∧
    (err = None →
       assets (store w') = delete "A001" (assets (store world0)) ∧
       assets (store w') !! "A001" = None ∧
       (∀ id', id' ≠ "A001" → assets (store w') !! id' = assets (store world0) !! id') ∧
       maintenance (store w') = maintenance (store world0) ∧
       audit (store w') = audit (store world0) ∧
       nextID (store w') = nextID (store world0) ∧
       mu (store w') = mu (store world0)).
Proof.
  split; [exact world0_unlocked|].
  apply (DeleteAsset_removes_only_asset "A001" world0). exact world0_unlocked.
Defined.

(** ** NewMemoryStore *)

(** C5. A store fresh from [NewMemoryStore] holds exactly the ten sample
    assets, under the IDs A001 to A010, each stamped with the two clock
    readings of its turn in the loop; three maintenance records for A001, two
    for A005 and none under any other key; no audit entry; the counter at
    100; and a free mutex. *)
Theorem NewMemoryStore_seed (c : Clock) :
  let s := (NewMemoryStore c).1 in
  Asset.ID <$> sample_assets = sample_ids ∧
  dom (assets s) = list_to_set sample_ids ∧
  size (assets s) = 10%nat ∧
  (∀ i a, sample_assets !! i = Some a →
     assets s !! Asset.ID a =
       Some (Asset.with_UpdatedAt (now c (2 * i + 1 + ticks c)%nat)
               (Asset.with_CreatedAt (now c (2 * i + ticks c)%nat) a))) ∧
  maintenance s
    = {["A001" := sample_maintenance_A001; "A005" := sample_maintenance_A005]} ∧
  length sample_maintenance_A001 = 3%nat ∧
  length sample_maintenance_A005 = 2%nat ∧
  (∀ k, k ≠ "A001" → k ≠ "A005" → maintenance s !! k = None) ∧
  audit s = ∅ ∧
  nextID s = 100 ∧
  mu s = unlocked.
Proof.
  destruct c as [nw tk]. intros s.
  assert (maintenance s = {["A001" := sample_maintenance_A001;
                            "A005" := sample_maintenance_A005]}) as Hm
    by (vm_compute; reflexivity).
  split_and!; try (vm_compute; reflexivity).
  - intros i a Hi.
    do 10 (destruct i as [|i]; [injection Hi as <-; vm_compute; reflexivity|]).
    discriminate Hi.
  - intros k H1 H5. rewrite Hm, lookup_insert_ne, lookup_singleton_ne; done.
Qed.

(** ** Every method, as one call *)

Ltac exec_with H :=
  unfold exec, bind; rewrite H by done; simpl;
  eexists _, _, _; split; [reflexivity|]; split_and!; done.

Lemma exec_spec lower c w :
  mu (store w) = unlocked →
  ∃ gen w' tr,
    exec lower c w = Some (gen, w') ∧
    mu (store w') = unlocked ∧
    log w' = log w ++ tr ∧
    critical_section (mode_of c) tr = true ∧
    match generated_prefix c with
    | Some p =>
        nextID (store w') = int_incr (nextID (store w)) ∧
        gen = Some (p +:+ fmt_03d (nextID (store w')))
    | None => nextID (store w') = nextID (store w) ∧ gen = None
    end.
Proof.
  intros Hmu. destruct c as [order flt|id|order|k|order|k|a|a|id|r|en]; simpl.
  - exec_with ListAssets_run.
  - exec_with GetAsset_run.
  - destruct (GetAssetStats_run order w Hmu) as [stats Hrun]. exec_with Hrun.
  - exec_with ListMaintenance_run.
  - destruct (ListAllMaintenance_run order w Hmu) as [records Hrun]. exec_with Hrun.
  - exec_with ListAuditEntries_run.
  - case_bool_decide as Hid.
    + exec_with CreateAsset_run_fresh.
    + exec_with CreateAsset_run_given.
  - destruct (assets (store w) !! Asset.ID a) as [old|] eqn:Hl.
    + exec_with (UpdateAsset_run_found a old).
    + exec_with UpdateAsset_run_missing.
  - destruct (assets (store w) !! id) as [old|] eqn:Hl.
    + exec_with (DeleteAsset_run_found id old).
    + exec_with DeleteAsset_run_missing.
  - exec_with CreateMaintenance_run.
  - exec_with CreateAuditEntry_run.
Qed.

(** C7. Each of the eleven methods of [*MemoryStore], called with the
    mutex free, runs as one critical section on [s.mu]: it first takes the
    lock ([RLock] for [ListAssets], [GetAsset], [GetAssetStats],
    [ListMaintenance], [ListAllMaintenance] and [ListAuditEntries], [Lock]
    for [CreateAsset], [UpdateAsset], [DeleteAsset], [CreateMaintenance] and
    [CreateAuditEntry]), then touches the shared fields only in ways that
    lock allows (no write under the read lock), and releases the lock last,
    leaving the mutex free. *)
Theorem methods_hold_the_lock lower c w :
  mu (store w) = unlocked →
  ∃ gen w' tr,
    exec lower c w = Some (gen, w') ∧
    log w' = log w ++ tr ∧
    critical_section (mode_of c) tr = true ∧
    mu (store w') = unlocked.
Proof.
  intros Hmu. destruct (exec_spec lower c w Hmu) as (gen & w' & tr & H1 & H2 & H3 & H4 & _).
  by exists gen, w', tr.
Qed.

Lemma methods_hold_the_lock_witness :
  mu (store world0) = unlocked ∧
  ∃ gen w' tr,
    exec id (call_CreateMaintenance record0) world0 = Some (gen, w') ∧
    log w' = log world0 ++ tr ∧
    critical_section (mode_of (call_CreateMaintenance record0)) tr = true ∧
    mu (store w') = unlocked.
Proof.
  split; [exact world0_unlocked|].
  apply (methods_hold_the_lock id (call_CreateMaintenance record0) world0).
  exact world0_unlocked.
Defined.

(** A write under the read lock, or an access after the unlock, is not a
    critical section. *)
Example critical_section_rejects :
  critical_section ReadMode [EvRLock; EvWrite f_assets; EvRUnlock] = false ∧
  critical_section WriteMode [EvLock; EvUnlock; EvWrite f_assets] = false ∧
  critical_section ReadMode [EvLock; EvRead f_assets; EvUnlock] = false ∧
  critical_section ReadMode [EvRead f_assets] = false.
Proof. by vm_compute. Qed.

(** ** Generated identifiers *)

Lemma int_incr_no_overflow n : int_min ≤ n < int_max → int_incr n = n + 1.
Proof.
  unfold int_incr, int_wrap, int_min, int_max. intros Hn.
  rewrite Z.mod_small by lia. lia.
Qed.

Lemma pretty_N_go_length x s :
  (String.length s ≤ String.length (pretty_N_go x s))%nat.
Proof.
  revert s. induction (N.lt_wf_0 x) as [x _ IH]; intros s.
  destruct (decide (x = 0)%N) as [->|Hx]; [by rewrite pretty_N_go_0|].
  rewrite pretty_N_go_step by lia.
  etrans; [|apply IH; apply N.div_lt; lia]. simpl. lia.
Qed.

Lemma pretty_N_go_head x s :
  (0 < x)%N → ∃ c rest, is_digit c ∧ pretty_N_go x s = String c rest.
Proof.
  revert s. induction (N.lt_wf_0 x) as [x _ IH]; intros s Hx.
  rewrite pretty_N_go_step by done.
  destruct (decide (x `div` 10 = 0)%N) as [Hq|Hq].
  - rewrite Hq, pretty_N_go_0. eexists _, _. split; [by eexists|done].
  - apply IH; [apply N.div_lt; lia | by apply N.neq_0_lt_0].
Qed.


(** From 100 on, [%03d] prints the plain decimal digits. *)
Lemma fmt_03d_plain n :
  100 ≤ n → fmt_03d n = pretty n ∧ ∃ c rest, is_digit c ∧ fmt_03d n = String c rest.
Proof.
  intros Hn. destruct n as [|p|p]; try lia.
  assert (fmt_03d (Z.pos p) = pretty (Z.pos p)) as Heq.
  { unfold fmt_03d. rewrite bool_decide_eq_false_2 by lia.
    unfold pad0, pretty, pretty_Z, pretty, pretty_positive, pretty, pretty_N.
    rewrite decide_False by done.
    assert (3 ≤ String.length (pretty_N_go (N.pos p) ""))%nat as Hlen.
    { assert (0 < N.pos p `div` 10)%N as Hq1
        by (apply N.div_str_pos; lia).
      assert (0 < (N.pos p `div` 10) `div` 10)%N as Hq2.
      { apply N.div_str_pos. split; [lia|]. apply N.div_le_lower_bound; lia. }
      rewrite pretty_N_go_step by lia.
      rewrite pretty_N_go_step by done.
      rewrite pretty_N_go_step by done.
      etrans; [|apply pretty_N_go_length]. simpl. lia. }
    replace (3 - String.length (pretty_N_go (N.pos p) ""))%nat with 0%nat by lia.
    done. }
  split; [done|]. rewrite Heq.
  unfold pretty, pretty_Z, pretty, pretty_positive, pretty, pretty_N.
  rewrite decide_False by done. by apply pretty_N_go_head.
Qed.

Lemma fmt_03d_inj n1 n2 : 100 ≤ n1 → 100 ≤ n2 → fmt_03d n1 = fmt_03d n2 → n1 = n2.
Proof.
  intros H1 H2. destruct (fmt_03d_plain n1 H1) as [-> _].
  destruct (fmt_03d_plain n2 H2) as [-> _]. apply (inj pretty).
Qed.


Lemma generated_count_cons c cs :
  generated_count (c :: cs) =
    match generated_prefix c with Some _ => 1 | None => 0 end + generated_count cs.
Proof. reflexivity. Qed.

Lemma generated_count_nonneg cs : 0 ≤ generated_count cs.
Proof.
  induction cs as [|c cs IH]; [done|].
  rewrite generated_count_cons. destruct (generated_prefix c); lia.
Qed.



Lemma new_world_facts c :
  mu (store (new_world c)) = unlocked ∧ nextID (store (new_world c)) = 100.
Proof. destruct c as [nw tk]. split; vm_compute; reflexivity. Qed.




(** The identifiers of one short run, as the code prints them. *)
Example generated_ids_run :
  fst <$> exec_all id
    [call_CreateMaintenance record0;
     call_CreateAsset (Asset.with_ID "" clash_A003);
     call_CreateAuditEntry (AuditEntry.mk "" "A002" Time_zero "sam" "update" "");
     call_CreateAsset clash_A003]
    world0
  = Some ["M101"; "A102"; "AU103"].
Proof. vm_compute. reflexivity. Qed.



(** ** CreateAsset *)

Lemma pretty_N_go_head_nonzero x s :
  (0 < x)%N → ∃ c rest, c ≠ "0"%char ∧ pretty_N_go x s = String c rest.
Proof.
  revert s. induction (N.lt_wf_0 x) as [x _ IH]; intros s Hx.
  rewrite pretty_N_go_step by done.
  destruct (decide (x `div` 10 = 0)%N) as [Hq|Hq].
  - rewrite Hq, pretty_N_go_0. eexists _, _. split; [|done].
    assert (x < 10)%N as Hlt by (apply N.div_small_iff in Hq; lia).
    rewrite N.mod_small by done.
    assert (x = 1 ∨ x = 2 ∨ x = 3 ∨ x = 4 ∨ x = 5 ∨ x = 6 ∨ x = 7 ∨ x = 8 ∨ x = 9)%N
      as Hcases by lia.
    destruct Hcases as [-> | [-> | [-> | [-> | [-> | [-> | [-> | [-> | ->]]]]]]]];
      discriminate.
  - apply IH; [apply N.div_lt; lia | by apply N.neq_0_lt_0].
Qed.

(** A generated identifier is none of the sample identifiers: its number
    does not start with a zero. *)
Lemma generated_id_not_sample n : 100 ≤ n → "A" +:+ fmt_03d n ∉ sample_ids.
Proof.
  intros Hn. destruct (fmt_03d_plain n Hn) as [Heq _].
  assert (∃ c rest, c ≠ "0"%char ∧ fmt_03d n = String c rest) as (c & rest & Hc & E).
  { rewrite Heq. destruct n as [|p|p]; try lia.
    unfold pretty, pretty_Z, pretty, pretty_positive, pretty, pretty_N.
    rewrite decide_False by done. by apply pretty_N_go_head_nonzero. }
  rewrite E. unfold sample_ids. intros Hin.
  repeat (apply elem_of_cons in Hin as [Hin|Hin];
          [injection Hin as Hc' _; by destruct Hc|]).
  by apply elem_of_nil in Hin.
Qed.

Lemma new_world_keys c : keys_generated (store (new_world c)).
Proof.
  destruct c as [nw tk]. intros k Hk. left.
  assert (dom (assets (store (new_world (mkClock nw tk)))) = list_to_set sample_ids)
    as Hdom by (vm_compute; reflexivity).
  apply elem_of_dom in Hk. rewrite Hdom in Hk. by apply elem_of_list_to_set in Hk.
Qed.

Lemma keys_generated_mono s s' :
  (∀ k, is_Some (assets s' !! k) → is_Some (assets s !! k)) →
  nextID s ≤ nextID s' →
  keys_generated s → keys_generated s'.
Proof.
  intros Hsub Hle Hinv k Hk. destruct (Hinv k (Hsub k Hk)) as [Hs|(n & Hn & ->)].
  - by left.
  - right. exists n. split; [lia|done].
Qed.

Ltac exec_run Hrun :=
  unfold exec, bind; rewrite Hrun by done; simpl;
  eexists _, _; split; [reflexivity|]; simpl.

(** A call that brings no [ID] of its own keeps the keys of the asset map
    among the sample and the generated identifiers. *)
Lemma exec_keys lower c w :
  mu (store w) = unlocked →
  names_own_ID c = false →
  100 ≤ nextID (store w) →
  nextID (store w) + match generated_prefix c with Some _ => 1 | None => 0 end
    ≤ int_max →
  keys_generated (store w) →
  ∃ gen w',
    exec lower c w = Some (gen, w') ∧
    mu (store w') = unlocked ∧
    nextID (store w')
      = nextID (store w) + match generated_prefix c with Some _ => 1 | None => 0 end ∧
    keys_generated (store w').
Proof.
  intros Hmu Hown Hlo Hhi Hinv.
  assert (nextID (store w) < int_max → int_incr (nextID (store w)) = nextID (store w) + 1)
    as Hincr by (intros; apply int_incr_no_overflow; unfold int_min; lia).
  destruct c as [order flt|id|order|k|order|k|a|a|id|r|en]; simpl in Hown, Hhi.
  - exec_run ListAssets_run. split; [done|]. split; [lia|done].
  - exec_run GetAsset_run. split; [done|]. split; [lia|done].
  - destruct (GetAssetStats_run order w Hmu) as [stats Hrun].
    exec_run Hrun. split; [done|]. split; [lia|done].
  - exec_run ListMaintenance_run. split; [done|]. split; [lia|done].
  - destruct (ListAllMaintenance_run order w Hmu) as [records Hrun].
    exec_run Hrun. split; [done|]. split; [lia|done].
  - exec_run ListAuditEntries_run. split; [done|]. split; [lia|done].
  - apply negb_false_iff, bool_decide_eq_true in Hown.
    rewrite bool_decide_eq_true_2 in Hhi by done.
    exec_run CreateAsset_run_fresh. rewrite bool_decide_eq_true_2 by done.
    split; [done|]. split; [apply Hincr; lia|].
    intros k Hk. simpl in Hk |- *. rewrite Hincr in * by lia.
    destruct (decide (k = "A" +:+ fmt_03d (nextID (store w) + 1))) as [->|Hne].
    + right. exists (nextID (store w) + 1). split; [lia|done].
    + rewrite lookup_insert_ne in Hk by done.
      destruct (Hinv k Hk) as [Hs|(n & Hn & ->)]; [by left|].
      right. exists n. split; [lia|done].
  - destruct (assets (store w) !! Asset.ID a) as [old|] eqn:Hl.
    + exec_run (UpdateAsset_run_found a old). split; [done|]. split; [lia|].
      apply (keys_generated_mono (store w)); [|done|done].
      intros k Hk. simpl in Hk. destruct (decide (k = Asset.ID a)) as [->|Hne].
      * by rewrite Hl.
      * by rewrite lookup_insert_ne in Hk.
    + exec_run UpdateAsset_run_missing. split; [done|]. split; [lia|done].
  - destruct (assets (store w) !! id) as [old|] eqn:Hl.
    + exec_run (DeleteAsset_run_found id old). split; [done|]. split; [lia|].
      apply (keys_generated_mono (store w)); [|done|done].
      intros k Hk. simpl in Hk. destruct (decide (k = id)) as [->|Hne].
      * by rewrite lookup_delete_eq in Hk; destruct Hk.
      * by rewrite lookup_delete_ne in Hk.
    + exec_run DeleteAsset_run_missing. split; [done|]. split; [lia|done].
  - exec_run CreateMaintenance_run. split; [done|]. split; [apply Hincr; lia|].
    apply (keys_generated_mono (store w)); [done| |done]. simpl.
    rewrite Hincr by lia. lia.
  - exec_run CreateAuditEntry_run. split; [done|]. split; [apply Hincr; lia|].
    apply (keys_generated_mono (store w)); [done| |done]. simpl.
    rewrite Hincr by lia. lia.
Qed.

Lemma exec_all_keys lower cs w :
  mu (store w) = unlocked →
  Forall (λ c, names_own_ID c = false) cs →
  100 ≤ nextID (store w) →
  nextID (store w) + generated_count cs ≤ int_max →
  keys_generated (store w) →
  ∃ ids w',
    exec_all lower cs w = Some (ids, w') ∧
    mu (store w') = unlocked ∧
    nextID (store w') = nextID (store w) + generated_count cs ∧
    keys_generated (store w').
Proof.
  revert w. induction cs as [|c cs IH]; intros w Hmu Hown Hlo Hhi Hinv.
  - exists [], w. simpl. split; [done|]. split; [done|]. split; [lia|done].
  - apply Forall_cons in Hown as [Hc Hcs].
    rewrite generated_count_cons in Hhi |- *.
    pose proof (generated_count_nonneg cs) as Hnn.
    assert (0 ≤ match generated_prefix c with Some _ => 1 | None => 0 end) as H0
      by (destruct (generated_prefix c); lia).
    destruct (exec_keys lower c w Hmu Hc Hlo ltac:(lia) Hinv)
      as (gen & w1 & Hexec & Hmu1 & Hn1 & Hinv1).
    destruct (IH w1 Hmu1 Hcs ltac:(lia) ltac:(lia) Hinv1)
      as (ids & w' & Hrun & Hmu' & Hn' & Hinv').
    eexists _, w'. split; [simpl; unfold bind; by rewrite Hexec, Hrun|].
    split; [done|]. split; [lia|done].
Qed.

(** C9, as stated, fails for the freshness of the generated [ID]: once a
    caller has created an asset under [A101], the [ID] the counter of a
    fresh store produces next, a [CreateAsset] with an empty [ID] is given
    [A101] as well. The [ID] is in use, and the asset stored under it is
    replaced; the store holds as many assets as before. *)
Lemma CreateAsset_ID_in_use_counterexample :
  ∃ a1 w1 a2 w2,
    CreateAsset given_A101 world0 = Some ((a1, None), w1) ∧
    CreateAsset unnamed_asset w1 = Some ((a2, None), w2) ∧
    Asset.ID unnamed_asset = "" ∧
    Asset.ID a2 = "A101" ∧
    assets (store w1) !! Asset.ID a2 = Some a1 ∧
    Asset.Name a1 ≠ Asset.Name a2 ∧
    assets (store w2) !! "A101" = Some a2 ∧
    size (assets (store w2)) = size (assets (store w1)).
Proof.
  assert (nextID (store world0) = 100) as Hn by (vm_compute; reflexivity).
  revert Hn. generalize world0_unlocked. generalize world0. intros w Hmu Hn.
  eexists _, _, _, _.
  split; [by apply CreateAsset_run_given|].
  split; [by apply CreateAsset_run_fresh|]. simpl. rewrite Hn.
  change ("A" +:+ fmt_03d (int_incr 100)) with "A101".
  split; [done|]. split; [done|].
  split; [by rewrite lookup_insert_eq|]. split; [done|].
  split; [by rewrite lookup_insert_eq|].
  apply map_size_insert_Some. by rewrite lookup_insert_eq.
Qed.

(** C9, as amended. [CreateAsset] always returns a nil error. For an empty
    [ID] it increments the shared counter and names the asset [A] followed
    by the new counter value, without looking that [ID] up; for any other
    [ID] it keeps the [ID] and the counter. In both cases the asset is
    stored under its [ID] whether or not that key was already taken, so an
    asset stored there before is replaced and all other keys keep their
    assets. The generated [ID] is fresh when the store was reached from
    [NewMemoryStore] by calls none of which was a [CreateAsset] with an [ID]
    of its own, and the counter is still below the largest [int]. *)
Theorem CreateAsset_never_fails asset w :
  mu (store w) = unlocked →
  ∃ asset' w',
    CreateAsset asset w = Some ((asset', None), w') ∧
    (Asset.ID asset = "" →
       nextID (store w') = int_incr (nextID (store w)) ∧
       Asset.ID asset' = "A" +:+ fmt_03d (nextID (store w'))) ∧
    (Asset.ID asset ≠ "" →
       nextID (store w') = nextID (store w) ∧ Asset.ID asset' = Asset.ID asset) ∧
    asset' = Asset.with_UpdatedAt (now (clock w) (S (ticks (clock w))))
               (Asset.with_CreatedAt (now (clock w) (ticks (clock w)))
                  (Asset.with_ID (Asset.ID asset') asset)) ∧
    assets (store w') = <[Asset.ID asset' := asset']> (assets (store w)) ∧
    assets (store w') !! Asset.ID asset' = Some asset' ∧
    (∀ id, id ≠ Asset.ID asset' → assets (store w') !! id = assets (store w) !! id) ∧
    (is_Some (assets (store w) !! Asset.ID asset') →
       dom (assets (store w')) = dom (assets (store w))) ∧
    (Asset.ID asset = "" →
     ∀ lower c0 calls ids,
       Forall (λ c, names_own_ID c = false) calls →
       100 + generated_count calls < int_max →
       exec_all lower calls (new_world c0) = Some (ids, w) →
       assets (store w) !! Asset.ID asset' = None).
Proof.
  intros Hmu. destruct (decide (Asset.ID asset = "")) as [Hid|Hid].
  - eexists _, _. split; [by apply CreateAsset_run_fresh|]. simpl.
    split_and!; try done.
    + by rewrite lookup_insert_eq.
    + intros id Hne. by rewrite lookup_insert_ne.
    + intros Hsome. rewrite dom_insert_L. apply elem_of_dom in Hsome.
      by apply subseteq_union_1_L, singleton_subseteq_l.
    + intros _ lower c0 calls ids Hown Hhi Hrun.
      destruct (new_world_facts c0) as [Hmu0 Hn0].
      destruct (exec_all_keys lower calls (new_world c0) Hmu0 Hown
                  ltac:(lia) ltac:(lia) (new_world_keys c0))
        as (ids' & w0 & Hrun' & _ & Hn & Hinv).
      rewrite Hrun in Hrun'. injection Hrun' as _ <-.
      pose proof (generated_count_nonneg calls) as Hnn.
      rewrite int_incr_no_overflow by (unfold int_min, int_max in *; lia).
      destruct (assets (store w) !! ("A" +:+ fmt_03d (nextID (store w) + 1)))
        as [old|] eqn:Hl; [|done].
      destruct (Hinv _ (mk_is_Some _ _ Hl)) as [Hs|(n & Hle & Heq)].
      * exfalso. revert Hs. apply generated_id_not_sample. lia.
      * injection Heq as Heq. apply fmt_03d_inj in Heq; lia.
  - eexists _, _. split; [by apply CreateAsset_run_given|]. simpl.
    split_and!; try done.
    + by rewrite lookup_insert_eq.
    + intros id Hne. by rewrite lookup_insert_ne.
    + intros Hsome. rewrite dom_insert_L. apply elem_of_dom in Hsome.
      by apply subseteq_union_1_L, singleton_subseteq_l.
Qed.

Lemma CreateAsset_never_fails_witness :
  mu (store world0) = unlocked ∧
  ∃ asset' w',
    CreateAsset unnamed_asset world0 = Some ((asset', None), w') ∧
    (Asset.ID unnamed_asset = "" →
       nextID (store w') = int_incr (nextID (store world0)) ∧
       Asset.ID asset' = "A" +:+ fmt_03d (nextID (store w'))) ∧
    (Asset.ID unnamed_asset ≠ "" →
       nextID (store w') = nextID (store world0) ∧
       Asset.ID asset' = Asset.ID unnamed_asset) ∧
    asset' = Asset.with_UpdatedAt (now (clock world0) (S (ticks (clock world0))))
               (Asset.with_CreatedAt (now (clock world0) (ticks (clock world0)))
                  (Asset.with_ID (Asset.ID asset') unnamed_asset)) ∧
    assets (store w') = <[Asset.ID asset' := asset']> (assets (store world0)) ∧
    assets (store w') !! Asset.ID asset' = Some asset' ∧
    (∀ id, id ≠ Asset.ID asset' →
           assets (store w') !! id = assets (store world0) !! id) ∧
    (is_Some (assets (store world0) !! Asset.ID asset') →
       dom (assets (store w')) = dom (assets (store world0))) ∧
    (Asset.ID unnamed_asset = "" →
     ∀ lower c0 calls ids,
       Forall (λ c, names_own_ID c = false) calls →
       100 + generated_count calls < int_max →
       exec_all lower calls (new_world c0) = Some (ids, world0) →
       assets (store world0) !! Asset.ID asset' = None).
Proof.
  split; [exact world0_unlocked|].
  apply (CreateAsset_never_fails unnamed_asset world0). exact world0_unlocked.
Defined.

(** On the fresh store the first generated [ID] is [A101], and no asset is
    stored under it. *)
Example CreateAsset_first_ID :
  (λ r : Asset * error * World, Asset.ID r.1.1) <$> CreateAsset unnamed_asset world0
    = Some "A101" ∧
  assets (store world0) !! "A101" = None.
Proof. split; vm_compute; reflexivity. Qed.

(** ** Handler.ListAssets *)




(** The answer to [GET /api/assets?status=active&search=mac] on the sample
    data: the one active asset whose name contains "mac". *)
Example list_active_mac_total :
  (λ e', (status (env_w e'), (λ doc, member "meta" doc) <$> body (env_w e'))) <$>
    @Handler_ListAssets World (MemoryStore_Store id sch0) list_active_mac env0
  = Some (Some 200, [Some (JObject [("total", JInt 1)])]).
Proof. vm_compute. reflexivity. Qed.

(** Once [ui.AssetCreate] has stored an asset whose cost is not a number,
    the list of all assets is answered 200 with an empty body. *)
Example list_with_NaN :
  (w1 ← snd <$> CreateAsset costs_NaN world0;
   e' ← @Handler_ListAssets World (MemoryStore_Store id sch0) no_params
          (mkEnv w1 (env_w env0) (env_logger env0));
   Some (status (env_w e'), body (env_w e')))
  = Some (Some 200, []).
Proof. vm_compute. reflexivity. Qed.

(** * Further properties of the store *)

(** ** Records are filed under their own key *)

Lemma new_world_filed c : filed_by_id (store (new_world c)).
Proof.
  destruct c as [nw tk]. split; [|split].
  - intros k a Hk.
    refine (map_Forall_lookup_1 (λ k a, Asset.ID a = k) _ _ _ _ Hk).
    apply (bool_decide_unpack _). vm_compute. exact I.
  - intros k rs r Hk Hr.
    assert (map_Forall (λ k rs, Forall (λ r, MaintenanceRecord.AssetID r = k) rs)
              (maintenance (store (new_world (mkClock nw tk))))) as Hall
      by (apply (bool_decide_unpack _); vm_compute; exact I).
    pose proof (map_Forall_lookup_1 _ _ _ _ Hall Hk) as Hrs.
    rewrite Forall_forall in Hrs. by apply Hrs.
  - intros k es e Hk. vm_compute in Hk. discriminate Hk.
Qed.

Lemma filed_assign_asset s a :
  filed_by_id s →
  filed_by_id (set_assets (<[Asset.ID a := a]> (assets s)) s).
Proof.
  intros (Ha & Hm & He). split; [|split]; [|exact Hm|exact He].
  intros k a'. simpl. destruct (decide (Asset.ID a = k)) as [<-|Hne].
  - rewrite lookup_insert_eq. by intros [= <-].
  - rewrite lookup_insert_ne by done. apply Ha.
Qed.

Lemma filed_delete_asset s id :
  filed_by_id s → filed_by_id (set_assets (delete id (assets s)) s).
Proof.
  intros (Ha & Hm & He). split; [|split]; [|exact Hm|exact He].
  intros k a'. simpl. intros Hl. apply lookup_delete_Some in Hl as [_ Hl]. by apply Ha.
Qed.

Lemma filed_set_nextID s n : filed_by_id s → filed_by_id (set_nextID n s).
Proof. by intros (Ha & Hm & He). Qed.

Lemma filed_append_record s r :
  filed_by_id s →
  filed_by_id (set_maintenance
    (<[MaintenanceRecord.AssetID r :=
         slice_at (maintenance s) (MaintenanceRecord.AssetID r) ++ [r]]>
       (maintenance s)) s).
Proof.
  intros (Ha & Hm & He). split; [|split]; [exact Ha| |exact He].
  intros k rs r'. simpl.
  destruct (decide (MaintenanceRecord.AssetID r = k)) as [<-|Hne].
  - rewrite lookup_insert_eq. intros [= <-] Hin.
    apply elem_of_app in Hin as [Hin|Hin].
    + unfold slice_at in Hin.
      destruct (maintenance s !! MaintenanceRecord.AssetID r) as [old|] eqn:Hold;
        simpl in Hin; [by eapply Hm | by apply elem_of_nil in Hin].
    + by apply list_elem_of_singleton in Hin as ->.
  - rewrite lookup_insert_ne by done. apply Hm.
Qed.

Lemma filed_append_entry s e :
  filed_by_id s →
  filed_by_id (set_audit
    (<[AuditEntry.AssetID e := slice_at (audit s) (AuditEntry.AssetID e) ++ [e]]>
       (audit s)) s).
Proof.
  intros (Ha & Hm & He). split; [|split]; [exact Ha|exact Hm|].
  intros k es e'. simpl.
  destruct (decide (AuditEntry.AssetID e = k)) as [<-|Hne].
  - rewrite lookup_insert_eq. intros [= <-] Hin.
    apply elem_of_app in Hin as [Hin|Hin].
    + unfold slice_at in Hin.
      destruct (audit s !! AuditEntry.AssetID e) as [old|] eqn:Hold;
        simpl in Hin; [by eapply He | by apply elem_of_nil in Hin].
    + by apply list_elem_of_singleton in Hin as ->.
  - rewrite lookup_insert_ne by done. apply He.
Qed.

Ltac exec_inv H Hrun :=
  unfold exec, bind in H; rewrite Hrun in H by done; simpl in H;
  injection H as <- <-; simpl.

Lemma exec_filed lower c w gen w' :
  mu (store w) = unlocked →
  filed_by_id (store w) →
  exec lower c w = Some (gen, w') →
  filed_by_id (store w').
Proof.
  intros Hmu Hinv H.
  destruct c as [order flt|id|order|k|order|k|a|a|id|r|en].
  - exec_inv H ListAssets_run. done.
  - exec_inv H GetAsset_run. done.
  - destruct (GetAssetStats_run order w Hmu) as [stats Hrun]. exec_inv H Hrun. done.
  - exec_inv H ListMaintenance_run. done.
  - destruct (ListAllMaintenance_run order w Hmu) as [records Hrun].
    exec_inv H Hrun. done.
  - exec_inv H ListAuditEntries_run. done.
  - destruct (decide (Asset.ID a = "")) as [Hid|Hid].
    + exec_inv H CreateAsset_run_fresh.
      apply (filed_assign_asset (set_nextID _ (store w))
               (Asset.with_UpdatedAt _ (Asset.with_CreatedAt _ (Asset.with_ID _ a)))).
      by apply filed_set_nextID.
    + exec_inv H CreateAsset_run_given.
      by apply (filed_assign_asset (store w)
                  (Asset.with_UpdatedAt _ (Asset.with_CreatedAt _ a))).
  - destruct (assets (store w) !! Asset.ID a) as [old|] eqn:Hl.
    + exec_inv H (UpdateAsset_run_found a old).
      by apply (filed_assign_asset (store w) (Asset.with_UpdatedAt _ a)).
    + exec_inv H UpdateAsset_run_missing. done.
  - destruct (assets (store w) !! id) as [old|] eqn:Hl.
    + exec_inv H (DeleteAsset_run_found id old). by apply filed_delete_asset.
    + exec_inv H DeleteAsset_run_missing. done.
  - exec_inv H CreateMaintenance_run.
    apply (filed_append_record (set_nextID _ (store w))
             (MaintenanceRecord.with_CreatedAt _ (MaintenanceRecord.with_ID _ r))).
    by apply filed_set_nextID.
  - exec_inv H CreateAuditEntry_run.
    apply (filed_append_entry (set_nextID _ (store w))
             (AuditEntry.with_Timestamp _ (AuditEntry.with_ID _ en))).
    by apply filed_set_nextID.
Qed.

Lemma exec_all_filed lower cs w :
  mu (store w) = unlocked →
  filed_by_id (store w) →
  ∃ ids w' trs,
    exec_all lower cs w = Some (ids, w') ∧
    mu (store w') = unlocked ∧
    filed_by_id (store w') ∧
    log w' = log w ++ concat trs ∧
    Forall2 (λ c tr, critical_section (mode_of c) tr = true) cs trs.
Proof.
  revert w. induction cs as [|c cs IH]; intros w Hmu Hinv.
  - exists [], w, []. simpl. by rewrite app_nil_r.
  - destruct (exec_spec lower c w Hmu)
      as (gen & w1 & tr & Hexec & Hmu1 & Hlog1 & Hcs & _).
    pose proof (exec_filed lower c w gen w1 Hmu Hinv Hexec) as Hinv1.
    destruct (IH w1 Hmu1 Hinv1) as (ids & w' & trs & Hrun & Hmu' & Hinv' & Hlog' & Hall).
    eexists _, w', (tr :: trs).
    split; [simpl; unfold bind; rewrite Hexec, Hrun; reflexivity|].
    split; [done|]. split; [done|]. split.
    + rewrite Hlog', Hlog1. simpl. by rewrite <- app_assoc.
    + by constructor.
Qed.

(** X1. Whatever methods are called on a store fresh from
    [NewMemoryStore], in whatever order and with whatever arguments, every
    call returns, and in the store they leave every asset is filed under
    its own [ID] and every maintenance record and audit entry under its
    own [AssetID]. *)
Theorem reachable_stores_filed_by_id lower c0 calls :
  ∃ ids w,
    exec_all lower calls (new_world c0) = Some (ids, w) ∧
    filed_by_id (store w).
Proof.
  destruct (new_world_facts c0) as [Hmu _].
  destruct (exec_all_filed lower calls (new_world c0) Hmu (new_world_filed c0))
    as (ids & w & trs & Hrun & _ & Hinv & _).
  by exists ids, w.
Qed.

(** X2. A run of calls on a fresh store is a sequence of critical
    sections, one per call and in the order of the calls, each in the mode
    of its method; between two calls, and at the end, the mutex is free. *)
Theorem calls_run_as_critical_sections lower c0 calls :
  ∃ ids w trs,
    exec_all lower calls (new_world c0) = Some (ids, w) ∧
    mu (store w) = unlocked ∧
    log w = concat trs ∧
    Forall2 (λ c tr, critical_section (mode_of c) tr = true) calls trs.
Proof.
  destruct (new_world_facts c0) as [Hmu _].
  destruct (exec_all_filed lower calls (new_world c0) Hmu (new_world_filed c0))
    as (ids & w & trs & Hrun & Hmu' & _ & Hlog & Hall).
  exists ids, w, trs. split; [done|]. split; [done|]. split; [|done].
  rewrite Hlog. by destruct c0.
Qed.

(** X3. A read-only method ([ListAssets], [GetAsset], [GetAssetStats],
    [ListMaintenance], [ListAllMaintenance], [ListAuditEntries]) that
    returns leaves the whole store, the mutex included, and the clock as
    they were, also when other readers hold the mutex. *)
Theorem readers_change_nothing lower c w gen w' :
  mode_of c = ReadMode →
  exec lower c w = Some (gen, w') →
  store w' = store w ∧ clock w' = clock w ∧ gen = None.
Proof.
  intros Hmode H.
  destruct w as [[[rd wr] a mt au n] [nw tk] l].
  destruct c; try discriminate Hmode; clear Hmode;
    destruct wr; try discriminate H;
    unfold exec, bind, ListAssets, GetAsset, GetAssetStats, ListMaintenance,
      ListAllMaintenance, ListAuditEntries, defer, bind, ret, reads,
      mu_RLock, mu_RUnlock, emit, set_mu in H; simpl in H;
    repeat case_match; simplify_eq/=; done.
Qed.

Lemma readers_change_nothing_witness :
  let w1 := mkWorld (store world0) (clock world0)
              [EvRLock; EvRead f_assets; EvRUnlock] in
  mode_of (call_GetAsset "A001") = ReadMode ∧
  exec id (call_GetAsset "A001") world0 = Some (None, w1) ∧
  (store w1 = store world0 ∧ clock w1 = clock world0 ∧ None = (None : option string)).
Proof.
  intros w1.
  assert (exec id (call_GetAsset "A001") world0 = Some (None, w1)) as Hexec
    by (vm_compute; reflexivity).
  split; [reflexivity|]. split; [exact Hexec|].
  exact (readers_change_nothing id (call_GetAsset "A001") world0 None w1
           eq_refl Hexec).
Defined.

(** ** Calls in sequence *)

Lemma CreateAsset_effect asset w :
  mu (store w) = unlocked →
  ∃ asset' w1,
    CreateAsset asset w = Some ((asset', None), w1) ∧
    mu (store w1) = unlocked ∧
    assets (store w1) = <[Asset.ID asset' := asset']> (assets (store w)) ∧
    maintenance (store w1) = maintenance (store w) ∧
    audit (store w1) = audit (store w) ∧
    (Asset.ID asset = "" →
       Asset.ID asset' = "A" +:+ fmt_03d (int_incr (nextID (store w)))) ∧
    (Asset.ID asset ≠ "" → Asset.ID asset' = Asset.ID asset).
Proof.
  intros Hmu. destruct (decide (Asset.ID asset = "")) as [Hid|Hid].
  - eexists _, _. split; [by apply CreateAsset_run_fresh|]. by simpl.
  - eexists _, _. split; [by apply CreateAsset_run_given|]. by simpl.
Qed.

(** X4. What [CreateAsset] stores, [GetAsset] returns: right after a
    [CreateAsset], a [GetAsset] of the ID the asset ended up with (given or
    generated) succeeds and returns the asset as [CreateAsset] left it, time
    stamps included. *)
Theorem CreateAsset_then_GetAsset asset w :
  mu (store w) = unlocked →
  ∃ asset' w1 w2,
    CreateAsset asset w = Some ((asset', None), w1) ∧
    GetAsset (Asset.ID asset') w1 = Some ((Some asset', None), w2) ∧
    store w2 = store w1.
Proof.
  intros Hmu.
  destruct (CreateAsset_effect asset w Hmu)
    as (asset' & w1 & Hcreate & Hmu1 & Hassets & _).
  exists asset', w1. eexists. split; [done|].
  rewrite GetAsset_run by done. by rewrite Hassets, lookup_insert_eq.
Qed.

Lemma CreateAsset_then_GetAsset_witness :
  mu (store world0) = unlocked ∧
  ∃ asset' w1 w2,
    CreateAsset (Asset.with_ID "" clash_A003) world0 = Some ((asset', None), w1) ∧
    GetAsset (Asset.ID asset') w1 = Some ((Some asset', None), w2) ∧
    store w2 = store w1.
Proof.
  split; [exact world0_unlocked|].
  exact (CreateAsset_then_GetAsset (Asset.with_ID "" clash_A003) world0
           world0_unlocked).
Defined.

(** X5. Once [DeleteAsset] has removed an asset, the id is gone for
    every method that looks it up: [GetAsset], a second [DeleteAsset] and
    [UpdateAsset] all return the error [asset not found: <id>], and none
    of them changes the store. *)
Theorem DeleteAsset_then_lookups_fail id old asset w :
  mu (store w) = unlocked →
  assets (store w) !! id = Some old →
  Asset.ID asset = id →
  ∃ w1 w2 w3 w4,
    DeleteAsset id w = Some (None, w1) ∧
    GetAsset id w1 = Some ((None, Some ("asset not found: " +:+ id)), w2) ∧
    DeleteAsset id w2 = Some (Some ("asset not found: " +:+ id), w3) ∧
    UpdateAsset asset w3 = Some ((asset, Some ("asset not found: " +:+ id)), w4) ∧
    store w2 = store w1 ∧ store w3 = store w1 ∧ store w4 = store w1.
Proof.
  intros Hmu Hold <-.
  eexists _, _, _, _.
  split; [by eapply DeleteAsset_run_found|].
  split.
  { rewrite GetAsset_run by done. simpl. by rewrite lookup_delete_eq. }
  split.
  { rewrite DeleteAsset_run_missing; [done|done|]. simpl. by rewrite lookup_delete_eq. }
  split.
  { rewrite UpdateAsset_run_missing; [done|done|]. simpl. by rewrite lookup_delete_eq. }
  done.
Qed.

Lemma DeleteAsset_then_lookups_fail_witness :
  mu (store world0) = unlocked ∧
  assets (store world0) !! "A003" = Some (Asset.with_UpdatedAt 5
                                            (Asset.with_CreatedAt 4
                                               (Asset.with_ID "A003"
                                                  (default clash_A003
                                                     (sample_assets !! 2%nat))))) ∧
  Asset.ID clash_A003 = "A003" ∧
  ∃ w1 w2 w3 w4,
    DeleteAsset "A003" world0 = Some (None, w1) ∧
    GetAsset "A003" w1 = Some ((None, Some ("asset not found: " +:+ "A003")), w2) ∧
    DeleteAsset "A003" w2 = Some (Some ("asset not found: " +:+ "A003"), w3) ∧
    UpdateAsset clash_A003 w3
      = Some ((clash_A003, Some ("asset not found: " +:+ "A003")), w4) ∧
    store w2 = store w1 ∧ store w3 = store w1 ∧ store w4 = store w1.
Proof.
  assert (assets (store world0) !! "A003"
          = Some (Asset.with_UpdatedAt 5
                    (Asset.with_CreatedAt 4
                       (Asset.with_ID "A003"
                          (default clash_A003 (sample_assets !! 2%nat))))))
    as Hold by (vm_compute; reflexivity).
  split; [exact world0_unlocked|]. split; [exact Hold|]. split; [reflexivity|].
  exact (DeleteAsset_then_lookups_fail "A003" _ clash_A003 world0
           world0_unlocked Hold eq_refl).
Defined.

(** ** GetAssetStats *)

Lemma GetAssetStats_run_loop order w :
  mu (store w) = unlocked →
  GetAssetStats order w =
    Some ((foldl GetAssetStats_iter stats_zero (range_values (assets (store w)) order),
           None),
          mkWorld (store w) (clock w) (log w ++ [EvRLock; EvRead f_assets; EvRUnlock])).
Proof. intros Hmu. open_world w Hmu. unfold GetAssetStats. by run_method. Qed.

Lemma GetAssetStats_iter_fields st a :
  let st' := GetAssetStats_iter st a in
  AssetStats.Total st' = int_incr (AssetStats.Total st) ∧
  AssetStats.Active st' =
    (if decide (Asset.Status a = "active") then int_incr (AssetStats.Active st)
     else AssetStats.Active st) ∧
  AssetStats.Maintenance st' =
    (if decide (Asset.Status a = "maintenance")
     then int_incr (AssetStats.Maintenance st) else AssetStats.Maintenance st) ∧
  AssetStats.Retired st' =
    (if decide (Asset.Status a = "retired") then int_incr (AssetStats.Retired st)
     else AssetStats.Retired st) ∧
  AssetStats.ByCategory st' = count_incr (Asset.Category a) (AssetStats.ByCategory st) ∧
  AssetStats.ByDepartment st' =
    count_incr (Asset.Department a) (AssetStats.ByDepartment st).
Proof.
  unfold GetAssetStats_iter.
  repeat case_bool_decide; repeat case_decide; simpl; try done; congruence.
Qed.

Lemma count_snoc (P : Asset → Prop) `{∀ a, Decision (P a)} l a :
  len (filter P (l ++ [a])) = len (filter P l) + (if decide (P a) then 1 else 0).
Proof.
  unfold len. rewrite filter_app, length_app, filter_cons, filter_nil.
  case_decide; simpl; lia.
Qed.

Lemma count_le (P : Asset → Prop) `{∀ a, Decision (P a)} l :
  0 ≤ len (filter P l) ≤ len l.
Proof. unfold len. pose proof (length_filter P l). lia. Qed.

Lemma count_incr_counted k m c n_k n_c :
  0 ≤ n_k < int_max →
  m !! k = counted n_k →
  m !! c = counted n_c →
  count_incr k m !! c = counted (n_c + (if decide (k = c) then 1 else 0)).
Proof.
  intros Hk Hmk Hmc. unfold count_incr.
  destruct (decide (k = c)) as [<-|Hne].
  - rewrite lookup_insert_eq, Hmk. rewrite Hmk in Hmc. unfold counted in *.
    assert (n_c = n_k) as -> by (repeat case_decide; simplify_eq; lia).
    rewrite (decide_False (P := n_k + 1 = 0)) by lia.
    f_equal. case_decide; simpl.
    + subst. by vm_compute.
    + apply int_incr_no_overflow. unfold int_min. lia.
  - rewrite lookup_insert_ne, Hmc by done. f_equal. lia.
Qed.

(** What the loop of [GetAssetStats] has counted after visiting [l]. *)
Lemma GetAssetStats_loop l :
  len l ≤ int_max →
  let st := foldl GetAssetStats_iter stats_zero l in
  AssetStats.Total st = len l ∧
  AssetStats.Active st = with_status "active" l ∧
  AssetStats.Maintenance st = with_status "maintenance" l ∧
  AssetStats.Retired st = with_status "retired" l ∧
  (∀ c, AssetStats.ByCategory st !! c = counted (with_category c l)) ∧
  (∀ d, AssetStats.ByDepartment st !! d = counted (with_department d l)).
Proof.
  induction l as [|a l IH] using rev_ind; intros Hlen.
  - simpl. unfold with_status, with_category, with_department, len. simpl.
    split_and!; try done; intros; by rewrite lookup_empty.
  - assert (len (l ++ [a]) = len l + 1) as Hsnoc
      by (unfold len; rewrite length_app; simpl; lia).
    rewrite Hsnoc in Hlen.
    destruct (IH ltac:(lia)) as (Ht & Ha & Hm & Hr & Hc & Hd). clear IH.
    intros st. subst st. rewrite foldl_snoc.
    destruct (GetAssetStats_iter_fields (foldl GetAssetStats_iter stats_zero l) a)
      as (Et & Ea & Em & Er & Ec & Ed).
    rewrite Et, Ea, Em, Er, Ec, Ed, Ht, Ha, Hm, Hr. clear Et Ea Em Er Ec Ed.
    assert (0 ≤ len l) by (unfold len; lia).
    unfold with_status, with_category, with_department in *.
    pose proof (count_le (λ a, Asset.Status a = "active") l).
    pose proof (count_le (λ a, Asset.Status a = "maintenance") l).
    pose proof (count_le (λ a, Asset.Status a = "retired") l).
    pose proof (count_le (λ x, Asset.Category x = Asset.Category a) l).
    pose proof (count_le (λ x, Asset.Department x = Asset.Department a) l).
    rewrite !count_snoc.
    split; [rewrite int_incr_no_overflow; [lia | unfold int_min; lia]|].
    split; [case_decide; [rewrite int_incr_no_overflow; [done | unfold int_min; lia] | lia]|].
    split; [case_decide; [rewrite int_incr_no_overflow; [done | unfold int_min; lia] | lia]|].
    split; [case_decide; [rewrite int_incr_no_overflow; [done | unfold int_min; lia] | lia]|].
    split.
    + intros c. rewrite count_snoc.
      rewrite (count_incr_counted (Asset.Category a) _ c
                 (len (filter (λ x, Asset.Category x = Asset.Category a) l))
                 (len (filter (λ x, Asset.Category x = c) l)));
        [|lia|apply Hc|apply Hc].
      done.
    + intros d. rewrite count_snoc.
      rewrite (count_incr_counted (Asset.Department a) _ d
                 (len (filter (λ x, Asset.Department x = Asset.Department a) l))
                 (len (filter (λ x, Asset.Department x = d) l)));
        [|lia|apply Hd|apply Hd].
      done.
Qed.

Lemma GetAssetStats_iter_value st a :
  AssetStats.TotalValue (GetAssetStats_iter st a)
  = (AssetStats.TotalValue st + Asset.CurrentValue a)%float.
Proof. unfold GetAssetStats_iter. by repeat case_bool_decide. Qed.

Lemma GetAssetStats_loop_value l st :
  AssetStats.TotalValue (foldl GetAssetStats_iter st l)
  = foldl (λ v a, (v + Asset.CurrentValue a)%float) (AssetStats.TotalValue st) l.
Proof.
  revert st. induction l as [|a l IH]; intros st; [done|].
  simpl. by rewrite IH, GetAssetStats_iter_value.
Qed.

(** X6. [GetAssetStats] counts what is stored: [Total] is the number of
    stored assets, [Active], [Maintenance] and [Retired] are the numbers of
    assets with exactly that status (any other status counts only in
    [Total]), and [ByCategory] and [ByDepartment] have one entry per category
    and department that occurs, holding the number of its assets. None of
    these depends on the order in which the map is visited; [TotalValue] is
    the floating-point sum of [CurrentValue] in visiting order. The store is
    not changed and the error is nil. *)
Theorem GetAssetStats_counts order w :
  mu (store w) = unlocked →
  range_order (assets (store w)) order →
  len (stored_assets (store w)) ≤ int_max →
  ∃ stats w',
    GetAssetStats order w = Some ((stats, None), w') ∧
    store w' = store w ∧
    AssetStats.Total stats = len (stored_assets (store w)) ∧
    AssetStats.Active stats = with_status "active" (stored_assets (store w)) ∧
    AssetStats.Maintenance stats = with_status "maintenance" (stored_assets (store w)) ∧
    AssetStats.Retired stats = with_status "retired" (stored_assets (store w)) ∧
    (∀ c, AssetStats.ByCategory stats !! c
          = counted (with_category c (stored_assets (store w)))) ∧
    (∀ d, AssetStats.ByDepartment stats !! d
          = counted (with_department d (stored_assets (store w)))) ∧
    AssetStats.TotalValue stats
      = foldl (λ v a, (v + Asset.CurrentValue a)%float) 0%float
          (range_values (assets (store w)) order).
Proof.
  intros Hmu Hord Hlen.
  pose proof (range_values_perm _ _ Hord) as Hperm. fold (stored_assets (store w)) in Hperm.
  assert (∀ (P : Asset → Prop) `{∀ a, Decision (P a)},
            len (filter P (range_values (assets (store w)) order))
            = len (filter P (stored_assets (store w)))) as Hcount.
  { intros P HP. unfold len. by rewrite Hperm. }
  assert (len (range_values (assets (store w)) order) = len (stored_assets (store w)))
    as Hlen' by (unfold len; by rewrite Hperm).
  destruct (GetAssetStats_loop (range_values (assets (store w)) order)
              ltac:(by rewrite Hlen'))
    as (Ht & Ha & Hm & Hr & Hc & Hd).
  eexists _, _. split; [by apply GetAssetStats_run_loop|]. simpl.
  unfold with_status, with_category, with_department in *.
  split; [done|]. split; [by rewrite Ht|].
  split; [by rewrite Ha, Hcount|]. split; [by rewrite Hm, Hcount|].
  split; [by rewrite Hr, Hcount|].
  split; [intros c; by rewrite Hc, Hcount|].
  split; [intros d; by rewrite Hd, Hcount|].
  by rewrite GetAssetStats_loop_value.
Qed.

Lemma GetAssetStats_counts_witness :
  mu (store world0) = unlocked ∧
  range_order (assets (store world0)) order0 ∧
  len (stored_assets (store world0)) ≤ int_max ∧
  ∃ stats w',
    GetAssetStats order0 world0 = Some ((stats, None), w') ∧
    store w' = store world0 ∧
    AssetStats.Total stats = len (stored_assets (store world0)) ∧
    AssetStats.Active stats = with_status "active" (stored_assets (store world0)) ∧
    AssetStats.Maintenance stats
      = with_status "maintenance" (stored_assets (store world0)) ∧
    AssetStats.Retired stats = with_status "retired" (stored_assets (store world0)) ∧
    (∀ c, AssetStats.ByCategory stats !! c
          = counted (with_category c (stored_assets (store world0)))) ∧
    (∀ d, AssetStats.ByDepartment stats !! d
          = counted (with_department d (stored_assets (store world0)))) ∧
    AssetStats.TotalValue stats
      = foldl (λ v a, (v + Asset.CurrentValue a)%float) 0%float
          (range_values (assets (store world0)) order0).
Proof.
  assert (len (stored_assets (store world0)) ≤ int_max) as Hlen
    by (vm_compute; discriminate).
  split; [exact world0_unlocked|]. split; [exact order0_ok|]. split; [exact Hlen|].
  exact (GetAssetStats_counts order0 world0 world0_unlocked order0_ok Hlen).
Defined.

(** The statistics of the sample data. *)
Example GetAssetStats_sample :
  (λ r : AssetStats * error * World,
     let st := r.1.1 in
     (AssetStats.Total st, AssetStats.Active st, AssetStats.Maintenance st,
      AssetStats.Retired st, AssetStats.ByCategory st !! "Laptops",
      AssetStats.ByCategory st !! "Phones")) <$> GetAssetStats order0 world0
  = Some (10, 8, 1, 1, Some 5, None).
Proof. vm_compute. reflexivity. Qed.

(** ** Maintenance records and audit entries *)

(** X7. [CreateMaintenance] files the record under its [AssetID] without
    looking at the assets, so it succeeds whether or not such an asset
    exists, and it replaces whatever [ID] the caller sent by [M] and the new
    counter value. Right after it, [ListMaintenance] of that asset returns
    the records it had before followed by the new one, and the records of
    every other asset are as before. The asset map is untouched. *)
Theorem CreateMaintenance_then_ListMaintenance record w :
  mu (store w) = unlocked →
  ∃ record' w1 w2,
    CreateMaintenance record w = Some ((record', None), w1) ∧
    record' = MaintenanceRecord.with_CreatedAt (now (clock w) (ticks (clock w)))
                (MaintenanceRecord.with_ID
                   ("M" +:+ fmt_03d (int_incr (nextID (store w)))) record) ∧
    ListMaintenance (MaintenanceRecord.AssetID record) w1
      = Some ((slice_at (maintenance (store w)) (MaintenanceRecord.AssetID record)
               ++ [record'], None), w2) ∧
    (∀ k, k ≠ MaintenanceRecord.AssetID record →
          slice_at (maintenance (store w1)) k = slice_at (maintenance (store w)) k) ∧
    assets (store w1) = assets (store w) ∧
    audit (store w1) = audit (store w).
Proof.
  intros Hmu. eexists _, _, _.
  split; [by apply CreateMaintenance_run|]. split; [done|].
  split.
  { rewrite ListMaintenance_run by done. simpl. unfold slice_at at 1.
    by rewrite lookup_insert_eq. }
  split; [|done].
  intros k Hne. simpl. unfold slice_at. by rewrite lookup_insert_ne.
Qed.

Lemma CreateMaintenance_then_ListMaintenance_witness :
  mu (store world0) = unlocked ∧
  ∃ record' w1 w2,
    CreateMaintenance record_orphan world0 = Some ((record', None), w1) ∧
    record' = MaintenanceRecord.with_CreatedAt
                (now (clock world0) (ticks (clock world0)))
                (MaintenanceRecord.with_ID
                   ("M" +:+ fmt_03d (int_incr (nextID (store world0))))
                   record_orphan) ∧
    ListMaintenance (MaintenanceRecord.AssetID record_orphan) w1
      = Some ((slice_at (maintenance (store world0))
                 (MaintenanceRecord.AssetID record_orphan) ++ [record'], None), w2) ∧
    (∀ k, k ≠ MaintenanceRecord.AssetID record_orphan →
          slice_at (maintenance (store w1)) k
          = slice_at (maintenance (store world0)) k) ∧
    assets (store w1) = assets (store world0) ∧
    audit (store w1) = audit (store world0).
Proof.
  split; [exact world0_unlocked|].
  exact (CreateMaintenance_then_ListMaintenance record_orphan world0 world0_unlocked).
Defined.

(** X8. [CreateAuditEntry] appends the entry, named [AU] and the new
    counter value and stamped with the clock reading, to the entries of its
    [AssetID]; right after it [ListAuditEntries] of that asset returns the
    old entries followed by the new one, the entries of every other asset
    are as before, and assets and maintenance records are untouched. *)
Theorem CreateAuditEntry_then_ListAuditEntries entry w :
  mu (store w) = unlocked →
  ∃ entry' w1 w2,
    CreateAuditEntry entry w = Some ((entry', None), w1) ∧
    entry' = AuditEntry.with_Timestamp (now (clock w) (ticks (clock w)))
               (AuditEntry.with_ID
                  ("AU" +:+ fmt_03d (int_incr (nextID (store w)))) entry) ∧
    ListAuditEntries (AuditEntry.AssetID entry) w1
      = Some ((slice_at (audit (store w)) (AuditEntry.AssetID entry) ++ [entry'],
               None), w2) ∧
    (∀ k, k ≠ AuditEntry.AssetID entry →
          slice_at (audit (store w1)) k = slice_at (audit (store w)) k) ∧
    assets (store w1) = assets (store w) ∧
    maintenance (store w1) = maintenance (store w).
Proof.
  intros Hmu. eexists _, _, _.
  split; [by apply CreateAuditEntry_run|]. split; [done|].
  split.
  { rewrite ListAuditEntries_run by done. simpl. unfold slice_at at 1.
    by rewrite lookup_insert_eq. }
  split; [|done].
  intros k Hne. simpl. unfold slice_at. by rewrite lookup_insert_ne.
Qed.

Lemma CreateAuditEntry_then_ListAuditEntries_witness :
  mu (store world0) = unlocked ∧
  ∃ entry' w1 w2,
    CreateAuditEntry entry0 world0 = Some ((entry', None), w1) ∧
    entry' = AuditEntry.with_Timestamp (now (clock world0) (ticks (clock world0)))
               (AuditEntry.with_ID
                  ("AU" +:+ fmt_03d (int_incr (nextID (store world0)))) entry0) ∧
    ListAuditEntries (AuditEntry.AssetID entry0) w1
      = Some ((slice_at (audit (store world0)) (AuditEntry.AssetID entry0)
               ++ [entry'], None), w2) ∧
    (∀ k, k ≠ AuditEntry.AssetID entry0 →
          slice_at (audit (store w1)) k = slice_at (audit (store world0)) k) ∧
    assets (store w1) = assets (store world0) ∧
    maintenance (store w1) = maintenance (store world0).
Proof.
  split; [exact world0_unlocked|].
  exact (CreateAuditEntry_then_ListAuditEntries entry0 world0 world0_unlocked).
Defined.

Lemma ListAllMaintenance_run_loop order w :
  mu (store w) = unlocked →
  ListAllMaintenance order w =
    Some ((foldl (λ result records, result ++ records) []
             (range_values (maintenance (store w)) order), None),
          mkWorld (store w) (clock w)
            (log w ++ [EvRLock; EvRead f_maintenance; EvRUnlock])).
Proof. intros Hmu. open_world w Hmu. unfold ListAllMaintenance. by run_method. Qed.

Lemma append_loop {A} (ls : list (list A)) (acc : list A) :
  foldl (λ result records, result ++ records) acc ls = acc ++ mjoin ls.
Proof.
  revert acc. induction ls as [|l ls IH]; intros acc; simpl.
  - by rewrite app_nil_r.
  - by rewrite IH, app_assoc.
Qed.

(** X9. [ListAllMaintenance] returns, with a nil error and without
    changing the store, every maintenance record of every key of the
    maintenance map, each as often as it is filed: the records of one key
    stay together and in their order, the keys come in the order the map is
    visited. Whether an asset with that key is stored plays no part. *)
Theorem ListAllMaintenance_returns_all order w :
  mu (store w) = unlocked →
  range_order (maintenance (store w)) order →
  ∃ result w',
    ListAllMaintenance order w = Some ((result, None), w') ∧
    store w' = store w ∧
    result = mjoin (range_values (maintenance (store w)) order) ∧
    result ≡ₚ mjoin (map_to_list (maintenance (store w))).*2 ∧
    (∀ r, r ∈ result ↔ ∃ k rs, maintenance (store w) !! k = Some rs ∧ r ∈ rs).
Proof.
  intros Hmu Hord. eexists _, _.
  split; [by apply ListAllMaintenance_run_loop|]. simpl.
  rewrite append_loop. simpl.
  pose proof (range_values_perm _ _ Hord) as Hperm.
  split; [done|]. split; [done|]. split; [by rewrite Hperm|].
  intros r. rewrite Hperm, list_elem_of_join. split.
  - intros (rs & Hr & Hrs). apply list_elem_of_fmap in Hrs as ([k rs'] & -> & Hin).
    apply elem_of_map_to_list in Hin. by exists k, rs'.
  - intros (k & rs & Hk & Hr). exists rs. split; [done|].
    apply list_elem_of_fmap. exists (k, rs). split; [done|].
    by apply elem_of_map_to_list.
Qed.

Lemma ListAllMaintenance_returns_all_witness :
  mu (store world0) = unlocked ∧
  range_order (maintenance (store world0)) morder0 ∧
  ∃ result w',
    ListAllMaintenance morder0 world0 = Some ((result, None), w') ∧
    store w' = store world0 ∧
    result = mjoin (range_values (maintenance (store world0)) morder0) ∧
    result ≡ₚ mjoin (map_to_list (maintenance (store world0))).*2 ∧
    (∀ r, r ∈ result ↔ ∃ k rs, maintenance (store world0) !! k = Some rs ∧ r ∈ rs).
Proof.
  assert (range_order (maintenance (store world0)) morder0) as Hord
    by (unfold range_order, morder0; reflexivity).
  split; [exact world0_unlocked|]. split; [exact Hord|].
  exact (ListAllMaintenance_returns_all morder0 world0 world0_unlocked Hord).
Defined.

(** ** Identifiers of assets *)

(** X10. [CreateAsset] does not check a generated [ID] against the stored
    keys. If a caller has created an asset under the very [ID] the counter
    produces next, a following [CreateAsset] with an empty [ID] gets the
    same [ID] and takes the place of that asset: the store holds the second
    asset under the [ID] and has no more keys than after the first call. *)
Theorem generated_ID_replaces_given_ID a b w :
  mu (store w) = unlocked →
  Asset.ID a = "A" +:+ fmt_03d (int_incr (nextID (store w))) →
  Asset.ID b = "" →
  ∃ a' w1 b' w2,
    CreateAsset a w = Some ((a', None), w1) ∧
    assets (store w1) !! Asset.ID a = Some a' ∧
    CreateAsset b w1 = Some ((b', None), w2) ∧
    Asset.ID b' = Asset.ID a ∧
    assets (store w2) !! Asset.ID a = Some b' ∧
    dom (assets (store w2)) = dom (assets (store w1)).
Proof.
  intros Hmu Ha Hb.
  assert (Asset.ID a ≠ "") as Hne by (by rewrite Ha).
  eexists _, _, _, _.
  split; [by apply CreateAsset_run_given|].
  split; [simpl; by rewrite lookup_insert_eq|].
  split; [by apply CreateAsset_run_fresh|]. simpl.
  split; [done|]. rewrite <- Ha.
  split; [by rewrite lookup_insert_eq|].
  by rewrite insert_insert_eq, !dom_insert_L.
Qed.

Lemma generated_ID_replaces_given_ID_witness :
  mu (store world0) = unlocked ∧
  Asset.ID given_A101 = "A" +:+ fmt_03d (int_incr (nextID (store world0))) ∧
  Asset.ID (Asset.with_ID "" moved_A002) = "" ∧
  ∃ a' w1 b' w2,
    CreateAsset given_A101 world0 = Some ((a', None), w1) ∧
    assets (store w1) !! Asset.ID given_A101 = Some a' ∧
    CreateAsset (Asset.with_ID "" moved_A002) w1 = Some ((b', None), w2) ∧
    Asset.ID b' = Asset.ID given_A101 ∧
    assets (store w2) !! Asset.ID given_A101 = Some b' ∧
    dom (assets (store w2)) = dom (assets (store w1)).
Proof.
  assert (Asset.ID given_A101 = "A" +:+ fmt_03d (int_incr (nextID (store world0))))
    as Ha by (vm_compute; reflexivity).
  split; [exact world0_unlocked|]. split; [exact Ha|]. split; [reflexivity|].
  exact (generated_ID_replaces_given_ID given_A101 (Asset.with_ID "" moved_A002)
           world0 world0_unlocked Ha eq_refl).
Defined.

(** X11. In a store whose assets are filed under their own [ID], as every
    store reached from [NewMemoryStore] is, [ListAssets] returns no two
    assets with the same [ID], and no more assets than the store holds. *)
Theorem ListAssets_distinct_IDs lower order flt w :
  mu (store w) = unlocked →
  range_order (assets (store w)) order →
  filed_by_id (store w) →
  ∃ result w',
    ListAssets lower order flt w = Some ((result, None), w') ∧
    NoDup (Asset.ID <$> result) ∧
    (length result ≤ size (assets (store w)))%nat.
Proof.
  intros Hmu Hord (Hfiled & _). eexists _, _.
  split; [by apply ListAssets_run|].
  rewrite ListAssets_loop. simpl.
  pose proof (range_values_perm _ _ Hord) as Hperm.
  assert (NoDup (Asset.ID <$> (map_to_list (assets (store w))).*2)) as Hkeys.
  { replace (Asset.ID <$> (map_to_list (assets (store w))).*2)
      with ((map_to_list (assets (store w))).*1);
      [apply NoDup_fst_map_to_list|].
    rewrite <- list_fmap_compose. apply list_fmap_ext.
    intros i [k a] Hka. simpl. symmetry. apply Hfiled.
    apply elem_of_map_to_list. by eapply list_elem_of_lookup_2. }
  split.
  - eapply sublist_NoDup.
    + rewrite <- Hperm in Hkeys. exact Hkeys.
    + apply fmap_sublist, (sublist_filter (satisfies lower flt)).
  - etrans; [apply length_filter|].
    by rewrite Hperm, length_fmap, length_map_to_list.
Qed.

Lemma ListAssets_distinct_IDs_witness :
  mu (store world0) = unlocked ∧
  range_order (assets (store world0)) order0 ∧
  filed_by_id (store world0) ∧
  ∃ result w',
    ListAssets id order0 active_mac world0 = Some ((result, None), w') ∧
    NoDup (Asset.ID <$> result) ∧
    (length result ≤ size (assets (store world0)))%nat.
Proof.
  split; [exact world0_unlocked|]. split; [exact order0_ok|].
  split; [exact (new_world_filed clock0)|].
  exact (ListAssets_distinct_IDs id order0 active_mac world0 world0_unlocked
           order0_ok (new_world_filed clock0)).
Defined.

(** * Further properties of the REST handlers *)

Lemma forallb_elem_of {A} (f : A → bool) (l : list A) :
  forallb f l = true ↔ ∀ x, x ∈ l → f x = true.
Proof.
  rewrite forallb_forall. by setoid_rewrite list_elem_of_In.
Qed.

Lemma encodable_marshal_Record r :
  encodable (marshal_MaintenanceRecord r) = Record_finite r.
Proof. unfold Record_finite. simpl. by rewrite andb_true_r. Qed.

Lemma encodable_marshal_Records records :
  encodable (marshal_payload (of_Records records)) = forallb Record_finite records.
Proof.
  destruct records as [|r records]; [done|].
  change (forallb encodable (marshal_MaintenanceRecord <$> r :: records)
          = forallb Record_finite (r :: records)).
  induction (r :: records) as [|r' l IH]; [done|].
  rewrite fmap_cons. cbn [forallb]. by rewrite encodable_marshal_Record, IH.
Qed.

Lemma respondJSON_payload_dynamic code d w :
  respondJSON_payload code (of_dynamic d) w = respondJSON code d w.
Proof. reflexivity. Qed.

Lemma respondList_payload_dynamic d total w :
  respondList_payload (of_dynamic d) total w = respondList d total w.
Proof. reflexivity. Qed.

Lemma respondError_answered code msg w :
  status w = None → msg ≠ "" →
  respondError code msg w = answered w code (error_doc msg).
Proof.
  intros Hst Hmsg. rewrite respondError_written by done.
  unfold answered, error_doc, marshal_apiResponse. simpl.
  by rewrite bool_decide_eq_false_2.
Qed.

(** [respondJSON] and [respondList] write the envelope when its data can be
    printed, and nothing after the status when they cannot. *)
Lemma respondJSON_payload_written code p w :
  status w = None →
  respondJSON_payload code p w
  = if encodable (marshal_payload p)
    then answered w code (data_doc (marshal_payload p))
    else status_only w code.
Proof.
  intros Hst. destruct w as [hd st bd]. simpl in Hst. subst st.
  unfold respondJSON_payload, Encode_json, apiResponse_json.
  cbn -[marshal_payload]. rewrite andb_true_r.
  by destruct (encodable (marshal_payload p)).
Qed.

Lemma respondJSON_payload_answered code p w :
  status w = None →
  encodable (marshal_payload p) = true →
  respondJSON_payload code p w = answered w code (data_doc (marshal_payload p)).
Proof. intros Hst Hp. by rewrite respondJSON_payload_written, Hp. Qed.

Lemma respondList_Records_written records w :
  status w = None →
  respondList_payload (of_Records records) (len records) w
  = if forallb Record_finite records
    then answered w StatusOK (list_doc (marshal_MaintenanceRecord <$> records))
    else status_only w StatusOK.
Proof.
  intros Hst. rewrite <- encodable_marshal_Records.
  destruct w as [hd st bd]. simpl in Hst. subst st.
  assert (encodable (marshal_meta (mkMeta (len records))) = true) as Hmeta
    by (unfold marshal_meta; by case_bool_decide).
  unfold respondList_payload, Encode_json, apiResponse_json.
  cbn -[marshal_payload marshal_meta].
  rewrite (bool_decide_eq_true_2 ("" = "")) by done.
  cbn -[marshal_payload marshal_meta]. rewrite Hmeta, !andb_true_r.
  destruct (encodable (marshal_payload (of_Records records))); [|done].
  destruct records as [|r records]; [done|].
  unfold answered, list_doc, marshal_meta. simpl.
  unfold len. simpl. by rewrite length_fmap.
Qed.

Lemma respondList_Assets_written assets w :
  status w = None →
  respondList (of_Assets assets) (len assets) w
  = if forallb Asset_finite assets
    then answered w StatusOK (list_doc (marshal_Asset <$> assets))
    else status_only w StatusOK.
Proof.
  intros Hst. rewrite respondList_written by done.
  rewrite encodable_marshal_Assets.
  destruct (forallb Asset_finite assets); [|unfold status_only; by rewrite app_nil_r].
  destruct assets as [|a assets]; [done|].
  unfold answered, list_doc, marshal_meta. simpl.
  unfold len. simpl. by rewrite length_fmap.
Qed.

(** [CreateAsset] leaves the two numbers of the asset alone. *)
Lemma CreateAsset_keeps_costs asset w asset' w' :
  mu (store w) = unlocked →
  CreateAsset asset w = Some ((asset', None), w') →
  Asset_finite asset' = Asset_finite asset.
Proof.
  intros Hmu Hrun. destruct (decide (Asset.ID asset = "")) as [Hid|Hid].
  - rewrite CreateAsset_run_fresh in Hrun by done. by injection Hrun as <- _.
  - rewrite CreateAsset_run_given in Hrun by done. by injection Hrun as <- _.
Qed.

(** What keeps the numbers of the store finite. *)
Lemma store_finite_insert_asset s s' k a :
  store_finite s → Asset_finite a = true →
  assets s' = <[k := a]> (assets s) → maintenance s' = maintenance s →
  store_finite s'.
Proof.
  intros [Ha Hm] Hfin Hassets Hmaint. split.
  - intros k' a'. rewrite Hassets. destruct (decide (k = k')) as [<-|Hne].
    + rewrite lookup_insert_eq. by intros [= <-].
    + rewrite lookup_insert_ne by done. apply Ha.
  - rewrite Hmaint. apply Hm.
Qed.

Lemma store_finite_delete_asset s s' k :
  store_finite s →
  assets s' = delete k (assets s) → maintenance s' = maintenance s →
  store_finite s'.
Proof.
  intros [Ha Hm] Hassets Hmaint. split.
  - intros k' a'. rewrite Hassets. intros Hl.
    apply lookup_delete_Some in Hl as [_ Hl]. by eapply Ha.
  - rewrite Hmaint. apply Hm.
Qed.

Lemma store_finite_append_record s s' k r :
  store_finite s → Record_finite r = true →
  assets s' = assets s →
  maintenance s' = <[k := slice_at (maintenance s) k ++ [r]]> (maintenance s) →
  store_finite s'.
Proof.
  intros [Ha Hm] Hfin Hassets Hmaint. split.
  - rewrite Hassets. apply Ha.
  - intros k' rs r'. rewrite Hmaint. destruct (decide (k = k')) as [<-|Hne].
    + rewrite lookup_insert_eq. intros [= <-] Hin.
      apply elem_of_app in Hin as [Hin|Hin].
      * unfold slice_at in Hin. destruct (maintenance s !! k) as [rs|] eqn:Hl.
        -- by eapply Hm.
        -- by apply elem_of_nil in Hin.
      * apply list_elem_of_singleton in Hin. by subst r'.
    + rewrite lookup_insert_ne by done. apply Hm.
Qed.

Lemma store_finite_slice s k :
  store_finite s → forallb Record_finite (slice_at (maintenance s) k) = true.
Proof.
  intros [_ Hm]. apply forallb_elem_of. intros r Hin. unfold slice_at in Hin.
  destruct (maintenance s !! k) as [rs|] eqn:Hl; [by eapply Hm|].
  by apply elem_of_nil in Hin.
Qed.

Lemma store_finite_all_records s order :
  store_finite s →
  forallb Record_finite (mjoin (range_values (maintenance s) order)) = true.
Proof.
  intros [_ Hm]. apply forallb_elem_of. intros r Hin.
  apply list_elem_of_join in Hin as (rs & Hr & Hrs).
  apply list_elem_of_omap in Hrs as (k & _ & Hk). by eapply Hm.
Qed.

Lemma store_finite_listed lower flt s order :
  store_finite s →
  forallb Asset_finite
    (foldl (ListAssets_iter lower flt) [] (range_values (assets s) order)) = true.
Proof.
  intros [Ha _]. apply forallb_elem_of. intros a Hin.
  rewrite ListAssets_loop in Hin. simpl in Hin.
  apply list_elem_of_filter in Hin as [_ Hin].
  apply list_elem_of_omap in Hin as (k & _ & Hk). by eapply Ha.
Qed.

Section OnMemoryStore.
Variable decode_Asset : string → option Asset.
Variable decode_MaintenanceRecord : string → option MaintenanceRecord.
Variable lower : string → string.
Variable sch : Schedule.

(** X12. POST /api/assets on the in-memory store, for a body whose numbers
    the decoder reads as finite, as the JSON decoder always does. A body
    that does not decode is answered 400 [Invalid request body] and a
    decoded asset with an empty [Name] 400 [Name is required], both without
    touching the store or its lock. Every other body is answered 201 with
    the asset as stored: its [ID] is the one of the body, or [A] and the new
    counter value when the body has none, and the store holds exactly that
    asset under that [ID]. Nothing is logged. *)
Theorem POST_assets_on_MemoryStore r raw (e : Env World) :
  mu (store (env_store e)) = unlocked →
  status (env_w e) = None →
  (∀ asset, decode_Asset raw = Some asset → Asset_finite asset = true) →
  ∃ e',
    Handler_CreateAsset (H := MemoryStore_Store lower sch) decode_Asset r raw e
    = Some e' ∧
    env_logger e' = env_logger e ∧
    match decode_Asset raw with
    | None =>
        env_store e' = env_store e ∧
        env_w e' = answered (env_w e) StatusBadRequest (error_doc "Invalid request body")
    | Some asset =>
        if decide (Asset.Name asset = "") then
          env_store e' = env_store e ∧
          env_w e' = answered (env_w e) StatusBadRequest (error_doc "Name is required")
        else
          ∃ asset',
            env_w e' = answered (env_w e) StatusCreated (data_doc (marshal_Asset asset')) ∧
            assets (store (env_store e')) !! Asset.ID asset' = Some asset' ∧
            (Asset.ID asset = "" →
               Asset.ID asset'
               = "A" +:+ fmt_03d (int_incr (nextID (store (env_store e))))) ∧
            (Asset.ID asset ≠ "" → Asset.ID asset' = Asset.ID asset)
    end.
Proof.
  intros Hmu Hst Hfin. unfold Handler_CreateAsset.
  destruct (decode_Asset raw) as [asset|].
  - destruct (decide (Asset.Name asset = "")) as [Hname|Hname].
    + rewrite bool_decide_eq_true_2 by done.
      eexists. split; [done|]. simpl.
      by rewrite respondError_answered.
    + rewrite bool_decide_eq_false_2 by done.
      destruct (CreateAsset_effect asset (env_store e) Hmu)
        as (asset' & w1 & Hcreate & Hmu1 & Hassets & _ & _ & Hfresh & Hgiven).
      simpl. rewrite Hcreate. eexists. split; [done|]. simpl. split; [done|].
      exists asset'. rewrite respondJSON_payload_answered; [|done|].
      * split; [done|]. split; [by rewrite Hassets, lookup_insert_eq|]. done.
      * cbn [marshal_payload]. rewrite encodable_marshal_Asset.
        rewrite (CreateAsset_keeps_costs _ _ _ _ Hmu Hcreate). by apply Hfin.
  - eexists. split; [done|]. simpl. by rewrite respondError_answered.
Qed.

(** X13. PUT /api/assets/{id} on the in-memory store, for a body whose
    numbers the decoder reads as finite. A body that does not decode is
    answered 400 without touching the store. Otherwise the [id] of the path
    decides, whatever [ID] the body carries: when no asset is stored under
    it the answer is 404 [Asset not found] and the store is unchanged; when
    one is, it is replaced by the decoded body with [ID] set to the path
    [id] and [UpdatedAt] to the clock reading, every other field,
    [CreatedAt] included, coming from the body and none from the asset
    stored before, and that asset is the [data] of the 200 answer. *)
Theorem PUT_asset_on_MemoryStore r raw (e : Env World) :
  mu (store (env_store e)) = unlocked →
  status (env_w e) = None →
  (∀ asset, decode_Asset raw = Some asset → Asset_finite asset = true) →
  ∃ e',
    Handler_UpdateAsset (H := MemoryStore_Store lower sch) decode_Asset r raw e
    = Some e' ∧
    env_logger e' = env_logger e ∧
    match decode_Asset raw with
    | None =>
        env_store e' = env_store e ∧
        env_w e' = answered (env_w e) StatusBadRequest (error_doc "Invalid request body")
    | Some asset =>
        let id := URLParam r "id" in
        match assets (store (env_store e)) !! id with
        | None =>
            store (env_store e') = store (env_store e) ∧
            env_w e' = answered (env_w e) StatusNotFound (error_doc "Asset not found")
        | Some _ =>
            let asset' :=
              Asset.with_UpdatedAt
                (now (clock (env_store e)) (ticks (clock (env_store e))))
                (Asset.with_ID id asset) in
            env_w e' = answered (env_w e) StatusOK (data_doc (marshal_Asset asset')) ∧
            assets (store (env_store e'))
              = <[id := asset']> (assets (store (env_store e))) ∧
            maintenance (store (env_store e')) = maintenance (store (env_store e)) ∧
            audit (store (env_store e')) = audit (store (env_store e))
        end
    end.
Proof.
  intros Hmu Hst Hfin. unfold Handler_UpdateAsset.
  destruct (decode_Asset raw) as [asset|].
  - simpl.
    destruct (assets (store (env_store e)) !! URLParam r "id") as [old|] eqn:Hl.
    + rewrite (UpdateAsset_run_found (Asset.with_ID (URLParam r "id") asset) old)
        by done.
      eexists. split; [done|]. simpl. split; [done|].
      rewrite respondJSON_payload_answered; [done|done|].
      cbn [marshal_payload]. rewrite encodable_marshal_Asset.
      exact (Hfin asset eq_refl).
    + rewrite UpdateAsset_run_missing by done.
      eexists. split; [done|]. simpl. split; [done|].
      by rewrite respondError_answered.
  - eexists. split; [done|]. simpl. by rewrite respondError_answered.
Qed.

(** X14. DELETE /api/assets/{id} on the in-memory store. For an id that
    is not stored the answer is 404 [Asset not found] and the store is
    unchanged. For a stored id the answer is the bare status 204, with no
    body and no header written by the handler, the asset is removed, and
    the same request sent again is answered 404. *)
Theorem DELETE_asset_on_MemoryStore r (e : Env World) :
  mu (store (env_store e)) = unlocked →
  status (env_w e) = None →
  let id := URLParam r "id" in
  ∃ e',
    Handler_DeleteAsset (H := MemoryStore_Store lower sch) r e = Some e' ∧
    env_logger e' = env_logger e ∧
    match assets (store (env_store e)) !! id with
    | None =>
        store (env_store e') = store (env_store e) ∧
        env_w e' = answered (env_w e) StatusNotFound (error_doc "Asset not found")
    | Some _ =>
        env_w e' = mkResponseWriter (header (env_w e)) (Some StatusNoContent)
                     (body (env_w e)) ∧
        assets (store (env_store e')) = delete id (assets (store (env_store e))) ∧
        ∃ e'',
          Handler_DeleteAsset (H := MemoryStore_Store lower sch) r
            (mkEnv (env_store e') (env_w e) (env_logger e'))
            = Some e'' ∧
          env_w e'' = answered (env_w e) StatusNotFound (error_doc "Asset not found") ∧
          store (env_store e'') = store (env_store e')
    end.
Proof.
  intros Hmu Hst id. unfold Handler_DeleteAsset. fold id. simpl.
  destruct (assets (store (env_store e)) !! id) as [old|] eqn:Hl.
  - rewrite (DeleteAsset_run_found id old) by done.
    eexists. split; [done|]. simpl. split; [done|].
    destruct (env_w e) as [hd st bd] eqn:Hw. simpl in Hst. subst st.
    split; [done|]. split; [done|].
    rewrite DeleteAsset_run_missing; [|done|simpl; by rewrite lookup_delete_eq].
    eexists. split; [done|]. simpl. split; [|done].
    by rewrite respondError_answered.
  - rewrite DeleteAsset_run_missing by done.
    eexists. split; [done|]. simpl. split; [done|].
    by rewrite respondError_answered.
Qed.

(** X15. POST /api/maintenance on the in-memory store, for a body whose
    [cost] the decoder reads as finite, as the JSON decoder always does. A
    body that does not decode, or a record with an empty [AssetID], is
    answered 400 without touching the store. Every other record is answered
    201, also when no asset is stored under its [AssetID]: the record gets
    the [ID] [M] and the new counter value, whatever [ID] the body carried,
    and the clock reading as [CreatedAt], and is appended to the records of
    its [AssetID]. *)
Theorem POST_maintenance_on_MemoryStore r raw (e : Env World) :
  mu (store (env_store e)) = unlocked →
  status (env_w e) = None →
  (∀ record, decode_MaintenanceRecord raw = Some record →
             Record_finite record = true) →
  ∃ e',
    Handler_CreateMaintenance (H := MemoryStore_Store lower sch)
      decode_MaintenanceRecord r raw e = Some e' ∧
    env_logger e' = env_logger e ∧
    match decode_MaintenanceRecord raw with
    | None =>
        env_store e' = env_store e ∧
        env_w e' = answered (env_w e) StatusBadRequest (error_doc "Invalid request body")
    | Some record =>
        if decide (MaintenanceRecord.AssetID record = "") then
          env_store e' = env_store e ∧
          env_w e' = answered (env_w e) StatusBadRequest
                       (error_doc "Asset ID is required")
        else
          let record' :=
            MaintenanceRecord.with_CreatedAt
              (now (clock (env_store e)) (ticks (clock (env_store e))))
              (MaintenanceRecord.with_ID
                 ("M" +:+ fmt_03d (int_incr (nextID (store (env_store e))))) record) in
          env_w e' = answered (env_w e) StatusCreated
                       (data_doc (marshal_MaintenanceRecord record')) ∧
          slice_at (maintenance (store (env_store e')))
            (MaintenanceRecord.AssetID record)
          = slice_at (maintenance (store (env_store e)))
              (MaintenanceRecord.AssetID record) ++ [record'] ∧
          assets (store (env_store e')) = assets (store (env_store e))
    end.
Proof.
  intros Hmu Hst Hfin. unfold Handler_CreateMaintenance.
  destruct (decode_MaintenanceRecord raw) as [record|].
  - destruct (decide (MaintenanceRecord.AssetID record = "")) as [Hid|Hid].
    + rewrite bool_decide_eq_true_2 by done.
      eexists. split; [done|]. simpl. by rewrite respondError_answered.
    + rewrite bool_decide_eq_false_2 by done. simpl.
      rewrite CreateMaintenance_run by done.
      eexists. split; [done|]. simpl. split; [done|].
      rewrite respondJSON_payload_answered; [|done|].
      * split; [done|]. split; [|done]. unfold slice_at at 1.
        by rewrite lookup_insert_eq.
      * cbn [marshal_payload]. rewrite encodable_marshal_Record.
        exact (Hfin record eq_refl).
  - eexists. split; [done|]. simpl. by rewrite respondError_answered.
Qed.

(** X16. GET /api/assets/{id}/maintenance on the in-memory store is
    answered 200 for every id, stored or not, and never 404. When the
    [Cost] of every record filed under the id is finite, the envelope lists
    these records, with [meta.total] their number, and for an id without
    records it has [null] for [data] and a [meta] without [total]. When
    some [Cost] is a NaN or an infinity, nothing is written after the
    status. The store is unchanged. *)
Theorem GET_asset_maintenance_on_MemoryStore r (e : Env World) :
  mu (store (env_store e)) = unlocked →
  status (env_w e) = None →
  let records := slice_at (maintenance (store (env_store e))) (URLParam r "id") in
  ∃ e',
    Handler_GetAssetMaintenance (H := MemoryStore_Store lower sch) r e = Some e' ∧
    env_logger e' = env_logger e ∧
    store (env_store e') = store (env_store e) ∧
    status (env_w e') = Some StatusOK ∧
    env_w e' =
      if forallb Record_finite records
      then answered (env_w e) StatusOK
             (list_doc (marshal_MaintenanceRecord <$> records))
      else status_only (env_w e) StatusOK.
Proof.
  intros Hmu Hst records. unfold Handler_GetAssetMaintenance. simpl.
  rewrite ListMaintenance_run by done.
  eexists. split; [done|]. simpl. split; [done|]. split; [done|].
  rewrite respondList_Records_written by done. fold records.
  split; [|done]. by destruct (forallb Record_finite records).
Qed.

(** X17. GET /api/maintenance on the in-memory store is answered 200.
    When the [Cost] of every record of the maintenance map is finite, the
    envelope lists all of them, those filed under an id with no stored
    asset included; [meta.total] is their number, and with no record at all
    [data] is [null] and [meta] has no [total]. When some [Cost] is a NaN
    or an infinity, nothing is written after the status. The store is
    unchanged. *)
Theorem GET_maintenance_on_MemoryStore r (e : Env World) :
  mu (store (env_store e)) = unlocked →
  status (env_w e) = None →
  range_order (maintenance (store (env_store e)))
    (maintenance_order sch (maintenance (store (env_store e)))) →
  ∃ e' records,
    Handler_ListAllMaintenance (H := MemoryStore_Store lower sch) r e = Some e' ∧
    env_logger e' = env_logger e ∧
    store (env_store e') = store (env_store e) ∧
    records ≡ₚ mjoin (map_to_list (maintenance (store (env_store e)))).*2 ∧
    status (env_w e') = Some StatusOK ∧
    env_w e' =
      if forallb Record_finite records
      then answered (env_w e) StatusOK
             (list_doc (marshal_MaintenanceRecord <$> records))
      else status_only (env_w e) StatusOK.
Proof.
  intros Hmu Hst Hord. unfold Handler_ListAllMaintenance. simpl.
  rewrite ListAllMaintenance_run_loop by done.
  eexists _, _. split; [done|]. simpl. split; [done|]. split; [done|].
  rewrite respondList_Records_written by done.
  split; [|split; [|reflexivity]].
  - rewrite append_loop. simpl. by rewrite (range_values_perm _ _ Hord).
  - by destruct (forallb Record_finite _).
Qed.

(** X18. Served from the in-memory store with the mutex free, each of the
    eight modelled routes returns, never answers 500 and never writes to
    the log: the status is 200, 201, 204, 400 or 404, the mutex is free
    again afterwards, and the answer is the bare status 204, or exactly one
    JSON document with the content type [application/json], or that content
    type and the status with no document. The last happens only for a
    number that is a NaN or an infinity: when the numbers of the decoded
    body and of every stored asset and maintenance record are finite, the
    answer is the bare 204 or one document, and the numbers of the store
    are finite afterwards as well. *)
Theorem routes_never_fail_on_MemoryStore rt r raw (e : Env World) :
  mu (store (env_store e)) = unlocked →
  status (env_w e) = None →
  ∃ e' code,
    serve (H := MemoryStore_Store lower sch) decode_Asset decode_MaintenanceRecord
      rt r raw e = Some e' ∧
    status (env_w e') = Some code ∧
    code ∈ [StatusOK; StatusCreated; StatusNoContent; StatusBadRequest;
            StatusNotFound] ∧
    env_logger e' = env_logger e ∧
    mu (store (env_store e')) = unlocked ∧
    (code = StatusNoContent ∧ env_w e' = mkResponseWriter (header (env_w e))
                                           (Some code) (body (env_w e))
     ∨ (∃ doc, env_w e' = answered (env_w e) code doc)
     ∨ env_w e' = status_only (env_w e) code) ∧
    (decodes_finite decode_Asset decode_MaintenanceRecord raw →
     store_finite (store (env_store e)) →
     store_finite (store (env_store e')) ∧
     (code = StatusNoContent ∧ env_w e' = mkResponseWriter (header (env_w e))
                                            (Some code) (body (env_w e))
      ∨ ∃ doc, env_w e' = answered (env_w e) code doc)).
Proof.
  intros Hmu Hst.
  destruct e as [w0 [hd st bd] lg]. simpl in Hmu, Hst. subst st.
  set (w := mkResponseWriter hd None bd).
  set (codes := [StatusOK; StatusCreated; StatusNoContent; StatusBadRequest;
                 StatusNotFound]).
  set (fin := decodes_finite decode_Asset decode_MaintenanceRecord raw).
  (* an answer with one document *)
  assert (∀ code doc (s : World),
            mu (store s) = unlocked → code ∈ codes →
            (fin → store_finite (store w0) → store_finite (store s)) →
            ∃ e' code',
              Some (mkEnv s (answered w code doc) lg) = Some e' ∧
              status (env_w e') = Some code' ∧ code' ∈ codes ∧
              env_logger e' = lg ∧ mu (store (env_store e')) = unlocked ∧
              (code' = StatusNoContent ∧ env_w e' = mkResponseWriter hd (Some code') bd
               ∨ (∃ doc', env_w e' = answered w code' doc')
               ∨ env_w e' = status_only w code') ∧
              (fin → store_finite (store w0) →
               store_finite (store (env_store e')) ∧
               (code' = StatusNoContent ∧
                env_w e' = mkResponseWriter hd (Some code') bd
                ∨ ∃ doc', env_w e' = answered w code' doc')))
    as Hanswer.
  { intros code doc s Hs Hcode Hkeep. eexists _, code. split; [done|]. simpl.
    split; [done|]. split; [done|]. split; [done|]. split; [done|].
    split; [right; left; by eexists|].
    intros Hf Hs0. split; [by apply Hkeep|]. right. by eexists. }
  (* an answer whose document could not be printed *)
  assert (∀ code (s : World),
            mu (store s) = unlocked → code ∈ codes →
            (fin → store_finite (store w0) → False) →
            ∃ e' code',
              Some (mkEnv s (status_only w code) lg) = Some e' ∧
              status (env_w e') = Some code' ∧ code' ∈ codes ∧
              env_logger e' = lg ∧ mu (store (env_store e')) = unlocked ∧
              (code' = StatusNoContent ∧ env_w e' = mkResponseWriter hd (Some code') bd
               ∨ (∃ doc', env_w e' = answered w code' doc')
               ∨ env_w e' = status_only w code') ∧
              (fin → store_finite (store w0) →
               store_finite (store (env_store e')) ∧
               (code' = StatusNoContent ∧
                env_w e' = mkResponseWriter hd (Some code') bd
                ∨ ∃ doc', env_w e' = answered w code' doc')))
    as Hsilent.
  { intros code s Hs Hcode Hno. eexists _, code. split; [done|]. simpl.
    split; [done|]. split; [done|]. split; [done|]. split; [done|].
    split; [by right; right|].
    intros Hf Hs0. destruct (Hno Hf Hs0). }
  assert (StatusOK ∈ codes) as H200 by (repeat constructor).
  assert (StatusCreated ∈ codes) as H201 by (repeat constructor).
  assert (StatusBadRequest ∈ codes) as H400 by (repeat constructor).
  assert (StatusNotFound ∈ codes) as H404 by (repeat constructor).
  destruct rt; simpl.
  - (* GET /assets *)
    unfold Handler_ListAssets. simpl. rewrite ListAssets_run by done. simpl.
    rewrite respondList_Assets_written by done.
    destruct (forallb Asset_finite _) eqn:Hall.
    + by eapply Hanswer.
    + eapply Hsilent; [done|done|]. intros _ Hs0.
      by rewrite store_finite_listed in Hall.
  - (* POST /assets *)
    unfold Handler_CreateAsset. simpl.
    destruct (decode_Asset raw) as [asset|] eqn:Hdec;
      [|rewrite respondError_answered by done; by eapply Hanswer].
    case_bool_decide;
      [rewrite respondError_answered by done; by eapply Hanswer|].
    destruct (CreateAsset_effect asset w0 Hmu)
      as (asset' & w1 & Hcreate & Hmu1 & Hassets & Hmaint & _).
    rewrite Hcreate. rewrite respondJSON_payload_written by done.
    cbn [marshal_payload]. rewrite encodable_marshal_Asset.
    rewrite (CreateAsset_keeps_costs _ _ _ _ Hmu Hcreate).
    destruct (Asset_finite asset) eqn:Hfin.
    + eapply Hanswer; [done|done|]. intros _ Hs0.
      eapply store_finite_insert_asset; [exact Hs0| |exact Hassets|exact Hmaint].
      by rewrite (CreateAsset_keeps_costs _ _ _ _ Hmu Hcreate).
    + eapply Hsilent; [done|done|]. intros [Hf _] _.
      rewrite (Hf _ Hdec) in Hfin. discriminate Hfin.
  - (* GET /assets/{id} *)
    unfold Handler_GetAsset. simpl. rewrite GetAsset_run by done.
    destruct (assets (store w0) !! URLParam r "id") as [a|] eqn:Hl; simpl.
    + rewrite <- respondJSON_payload_dynamic, respondJSON_payload_written by done.
      cbn [marshal_payload marshal_dynamic]. rewrite encodable_marshal_Asset.
      destruct (Asset_finite a) eqn:Hfin.
      * by eapply Hanswer.
      * eapply Hsilent; [done|done|]. intros _ [Ha _].
        rewrite (Ha _ _ Hl) in Hfin. discriminate Hfin.
    + rewrite respondError_answered by done. by eapply Hanswer.
  - (* PUT /assets/{id} *)
    unfold Handler_UpdateAsset. simpl.
    destruct (decode_Asset raw) as [asset|] eqn:Hdec;
      [|rewrite respondError_answered by done; by eapply Hanswer].
    destruct (assets (store w0) !! URLParam r "id") as [old|] eqn:Hl.
    + rewrite (UpdateAsset_run_found (Asset.with_ID (URLParam r "id") asset) old)
        by done.
      rewrite respondJSON_payload_written by done.
      cbn [marshal_payload]. rewrite encodable_marshal_Asset.
      change (Asset_finite (Asset.with_UpdatedAt _ (Asset.with_ID _ asset)))
        with (Asset_finite asset).
      destruct (Asset_finite asset) eqn:Hfin.
      * eapply Hanswer; [done|done|]. intros _ Hs0.
        eapply store_finite_insert_asset; [exact Hs0| |reflexivity|reflexivity].
        exact Hfin.
      * eapply Hsilent; [done|done|]. intros [Hf _] _.
        rewrite (Hf _ Hdec) in Hfin. discriminate Hfin.
    + rewrite UpdateAsset_run_missing by done.
      rewrite respondError_answered by done. by eapply Hanswer.
  - (* DELETE /assets/{id} *)
    unfold Handler_DeleteAsset. simpl.
    destruct (assets (store w0) !! URLParam r "id") as [old|] eqn:Hl.
    + rewrite (DeleteAsset_run_found _ old) by done.
      eexists _, StatusNoContent. split; [done|]. simpl.
      split; [done|]. split; [repeat constructor|]. split; [done|].
      split; [done|]. split; [by left|].
      intros _ Hs0. split; [|by left].
      eapply store_finite_delete_asset; [exact Hs0|reflexivity|reflexivity].
    + rewrite DeleteAsset_run_missing by done.
      rewrite respondError_answered by done. by eapply Hanswer.
  - (* GET /assets/{id}/maintenance *)
    unfold Handler_GetAssetMaintenance. simpl. rewrite ListMaintenance_run by done.
    rewrite respondList_Records_written by done.
    destruct (forallb Record_finite _) eqn:Hall.
    + by eapply Hanswer.
    + eapply Hsilent; [done|done|]. intros _ Hs0.
      by rewrite store_finite_slice in Hall.
  - (* GET /maintenance *)
    unfold Handler_ListAllMaintenance. simpl.
    rewrite ListAllMaintenance_run_loop by done.
    rewrite respondList_Records_written by done.
    destruct (forallb Record_finite _) eqn:Hall.
    + by eapply Hanswer.
    + eapply Hsilent; [done|done|]. intros _ Hs0.
      rewrite append_loop in Hall. simpl in Hall.
      by rewrite store_finite_all_records in Hall.
  - (* POST /maintenance *)
    unfold Handler_CreateMaintenance. simpl.
    destruct (decode_MaintenanceRecord raw) as [record|] eqn:Hdec;
      [|rewrite respondError_answered by done; by eapply Hanswer].
    case_bool_decide;
      [rewrite respondError_answered by done; by eapply Hanswer|].
    rewrite CreateMaintenance_run by done.
    rewrite respondJSON_payload_written by done.
    cbn [marshal_payload]. rewrite encodable_marshal_Record.
    change (Record_finite (MaintenanceRecord.with_CreatedAt _
                             (MaintenanceRecord.with_ID _ record)))
      with (Record_finite record).
    destruct (Record_finite record) eqn:Hfin.
    + eapply Hanswer; [done|done|]. intros _ Hs0.
      eapply store_finite_append_record; [exact Hs0| |reflexivity|reflexivity].
      exact Hfin.
    + eapply Hsilent; [done|done|]. intros [_ Hf] _.
      rewrite (Hf _ Hdec) in Hfin. discriminate Hfin.
Qed.

End OnMemoryStore.

Lemma env0_unlocked : mu (store (env_store env0)) = unlocked.
Proof. exact world0_unlocked. Qed.

Lemma env0_fresh : status (env_w env0) = None.
Proof. reflexivity. Qed.

Lemma reads_asset_finite a raw :
  Asset_finite a = true →
  ∀ asset, reads_asset a raw = Some asset → Asset_finite asset = true.
Proof. intros Ha asset [= <-]. exact Ha. Qed.

Lemma reads_record_finite rec raw :
  Record_finite rec = true →
  ∀ record, reads_record rec raw = Some record → Record_finite record = true.
Proof. intros Hr record [= <-]. exact Hr. Qed.

Lemma POST_assets_on_MemoryStore_witness :
  mu (store (env_store env0)) = unlocked ∧
  status (env_w env0) = None ∧
  (∀ asset, reads_asset unnamed_asset "{}" = Some asset → Asset_finite asset = true) ∧
  ∃ e',
    @Handler_CreateAsset (reads_asset unnamed_asset) World
      (MemoryStore_Store id sch0) no_params "{}" env0 = Some e' ∧
    env_logger e' = env_logger env0 ∧
    ∃ asset',
      env_w e' = answered (env_w env0) StatusCreated (data_doc (marshal_Asset asset')) ∧
      assets (store (env_store e')) !! Asset.ID asset' = Some asset' ∧
      (Asset.ID unnamed_asset = "" →
         Asset.ID asset'
         = "A" +:+ fmt_03d (int_incr (nextID (store (env_store env0))))) ∧
      (Asset.ID unnamed_asset ≠ "" → Asset.ID asset' = Asset.ID unnamed_asset).
Proof.
  assert (∀ asset, reads_asset unnamed_asset "{}" = Some asset →
                   Asset_finite asset = true) as Hfin
    by (apply reads_asset_finite; vm_compute; reflexivity).
  split; [exact env0_unlocked|]. split; [exact env0_fresh|]. split; [exact Hfin|].
  exact (POST_assets_on_MemoryStore (reads_asset unnamed_asset)
           id sch0 no_params "{}" env0 env0_unlocked env0_fresh Hfin).
Defined.

Lemma PUT_asset_on_MemoryStore_witness :
  mu (store (env_store env0)) = unlocked ∧
  status (env_w env0) = None ∧
  (∀ asset, reads_asset clash_A003 "{}" = Some asset → Asset_finite asset = true) ∧
  ∃ e',
    @Handler_UpdateAsset (reads_asset clash_A003) World (MemoryStore_Store id sch0)
      at_A002 "{}" env0 = Some e' ∧
    env_logger e' = env_logger env0 ∧
    let asset' :=
      Asset.with_UpdatedAt
        (now (clock (env_store env0)) (ticks (clock (env_store env0))))
        (Asset.with_ID "A002" clash_A003) in
    env_w e' = answered (env_w env0) StatusOK (data_doc (marshal_Asset asset')) ∧
    assets (store (env_store e'))
      = <["A002" := asset']> (assets (store (env_store env0))) ∧
    maintenance (store (env_store e')) = maintenance (store (env_store env0)) ∧
    audit (store (env_store e')) = audit (store (env_store env0)).
Proof.
  assert (∀ asset, reads_asset clash_A003 "{}" = Some asset →
                   Asset_finite asset = true) as Hfin
    by (apply reads_asset_finite; vm_compute; reflexivity).
  split; [exact env0_unlocked|]. split; [exact env0_fresh|]. split; [exact Hfin|].
  exact (PUT_asset_on_MemoryStore (reads_asset clash_A003) id sch0 at_A002 "{}" env0
           env0_unlocked env0_fresh Hfin).
Defined.

Lemma DELETE_asset_on_MemoryStore_witness :
  mu (store (env_store env0)) = unlocked ∧
  status (env_w env0) = None ∧
  ∃ e',
    @Handler_DeleteAsset World (MemoryStore_Store id sch0) at_A002 env0 = Some e' ∧
    env_logger e' = env_logger env0 ∧
    env_w e' = mkResponseWriter (header (env_w env0)) (Some StatusNoContent)
                 (body (env_w env0)) ∧
    assets (store (env_store e')) = delete "A002" (assets (store (env_store env0))) ∧
    ∃ e'',
      @Handler_DeleteAsset World (MemoryStore_Store id sch0) at_A002
        (mkEnv (env_store e') (env_w env0) (env_logger e')) = Some e'' ∧
      env_w e'' = answered (env_w env0) StatusNotFound (error_doc "Asset not found") ∧
      store (env_store e'') = store (env_store e').
Proof.
  split; [exact env0_unlocked|]. split; [exact env0_fresh|].
  exact (DELETE_asset_on_MemoryStore id sch0 at_A002 env0 env0_unlocked env0_fresh).
Defined.

Lemma POST_maintenance_on_MemoryStore_witness :
  mu (store (env_store env0)) = unlocked ∧
  status (env_w env0) = None ∧
  (∀ record, reads_record record_orphan "{}" = Some record →
             Record_finite record = true) ∧
  ∃ e',
    @Handler_CreateMaintenance (reads_record record_orphan) World
      (MemoryStore_Store id sch0) no_params "{}" env0 = Some e' ∧
    env_logger e' = env_logger env0 ∧
    let record' :=
      MaintenanceRecord.with_CreatedAt
        (now (clock (env_store env0)) (ticks (clock (env_store env0))))
        (MaintenanceRecord.with_ID
           ("M" +:+ fmt_03d (int_incr (nextID (store (env_store env0)))))
           record_orphan) in
    env_w e' = answered (env_w env0) StatusCreated
                 (data_doc (marshal_MaintenanceRecord record')) ∧
    slice_at (maintenance (store (env_store e')))
      (MaintenanceRecord.AssetID record_orphan)
    = slice_at (maintenance (store (env_store env0)))
        (MaintenanceRecord.AssetID record_orphan) ++ [record'] ∧
    assets (store (env_store e')) = assets (store (env_store env0)).
Proof.
  assert (∀ record, reads_record record_orphan "{}" = Some record →
                    Record_finite record = true) as Hfin
    by (apply reads_record_finite; vm_compute; reflexivity).
  split; [exact env0_unlocked|]. split; [exact env0_fresh|]. split; [exact Hfin|].
  exact (POST_maintenance_on_MemoryStore (reads_record record_orphan) id sch0
           no_params "{}" env0 env0_unlocked env0_fresh Hfin).
Defined.

Lemma GET_asset_maintenance_on_MemoryStore_witness :
  mu (store (env_store env0)) = unlocked ∧
  status (env_w env0) = None ∧
  let records :=
    slice_at (maintenance (store (env_store env0))) (URLParam at_A001 "id") in
  ∃ e',
    @Handler_GetAssetMaintenance World (MemoryStore_Store id sch0) at_A001 env0
      = Some e' ∧
    env_logger e' = env_logger env0 ∧
    store (env_store e') = store (env_store env0) ∧
    status (env_w e') = Some StatusOK ∧
    env_w e' =
      if forallb Record_finite records
      then answered (env_w env0) StatusOK
             (list_doc (marshal_MaintenanceRecord <$> records))
      else status_only (env_w env0) StatusOK.
Proof.
  split; [exact env0_unlocked|]. split; [exact env0_fresh|].
  exact (GET_asset_maintenance_on_MemoryStore id sch0 at_A001 env0
           env0_unlocked env0_fresh).
Defined.

(** For an id nobody knows the answer is 200 with an empty envelope; for
    the sample asset A001 it lists the three sample records; and once a
    record whose cost is not a number is filed under an id, the answer for
    that id is 200 with no body. *)
Example GET_asset_maintenance_sample :
  env_w <$> @Handler_GetAssetMaintenance World (MemoryStore_Store id sch0) at_Z999 env0
  = Some (mkResponseWriter {["Content-Type" := ["application/json"]]} (Some 200)
            [JObject [("data", JNull); ("meta", JObject [])]]) ∧
  (λ e' : Env World, (λ doc, member "meta" doc) <$> body (env_w e')) <$>
    @Handler_GetAssetMaintenance World (MemoryStore_Store id sch0) at_A001 env0
  = Some [Some (JObject [("total", JInt 3)])] ∧
  (w1 ← snd <$> CreateMaintenance record_NaN world0;
   env_w <$> @Handler_GetAssetMaintenance World (MemoryStore_Store id sch0) at_Z999
               (mkEnv w1 (env_w env0) (env_logger env0)))
  = Some (mkResponseWriter {["Content-Type" := ["application/json"]]} (Some 200) []).
Proof. split; [|split]; vm_compute; reflexivity. Qed.

Lemma sch0_maintenance_ok :
  range_order (maintenance (store (env_store env0)))
    (maintenance_order sch0 (maintenance (store (env_store env0)))).
Proof. unfold range_order. reflexivity. Qed.

Lemma GET_maintenance_on_MemoryStore_witness :
  mu (store (env_store env0)) = unlocked ∧
  status (env_w env0) = None ∧
  range_order (maintenance (store (env_store env0)))
    (maintenance_order sch0 (maintenance (store (env_store env0)))) ∧
  ∃ e' records,
    @Handler_ListAllMaintenance World (MemoryStore_Store id sch0) no_params env0
      = Some e' ∧
    env_logger e' = env_logger env0 ∧
    store (env_store e') = store (env_store env0) ∧
    records ≡ₚ mjoin (map_to_list (maintenance (store (env_store env0)))).*2 ∧
    status (env_w e') = Some StatusOK ∧
    env_w e' =
      if forallb Record_finite records
      then answered (env_w env0) StatusOK
             (list_doc (marshal_MaintenanceRecord <$> records))
      else status_only (env_w env0) StatusOK.
Proof.
  split; [exact env0_unlocked|]. split; [exact env0_fresh|].
  split; [exact sch0_maintenance_ok|].
  exact (GET_maintenance_on_MemoryStore id sch0 no_params env0
           env0_unlocked env0_fresh sch0_maintenance_ok).
Defined.

(** On the sample data the list of all maintenance records has five
    entries. *)
Example GET_maintenance_sample :
  (λ e' : Env World, (status (env_w e'),
                      (λ doc, member "meta" doc) <$> body (env_w e'))) <$>
    @Handler_ListAllMaintenance World (MemoryStore_Store id sch0) no_params env0
  = Some (Some 200, [Some (JObject [("total", JInt 5)])]).
Proof. vm_compute. reflexivity. Qed.

Lemma routes_never_fail_on_MemoryStore_witness :
  mu (store (env_store env0)) = unlocked ∧
  status (env_w env0) = None ∧
  ∃ e' code,
    @serve World (MemoryStore_Store id sch0) (reads_asset clash_A003) no_record
      GET_assets no_params "" env0 = Some e' ∧
    status (env_w e') = Some code ∧
    code ∈ [StatusOK; StatusCreated; StatusNoContent; StatusBadRequest;
            StatusNotFound] ∧
    env_logger e' = env_logger env0 ∧
    mu (store (env_store e')) = unlocked ∧
    (code = StatusNoContent ∧ env_w e' = mkResponseWriter (header (env_w env0))
                                           (Some code) (body (env_w env0))
     ∨ (∃ doc, env_w e' = answered (env_w env0) code doc)
     ∨ env_w e' = status_only (env_w env0) code) ∧
    (decodes_finite (reads_asset clash_A003) no_record "" →
     store_finite (store (env_store env0)) →
     store_finite (store (env_store e')) ∧
     (code = StatusNoContent ∧ env_w e' = mkResponseWriter (header (env_w env0))
                                            (Some code) (body (env_w env0))
      ∨ ∃ doc, env_w e' = answered (env_w env0) code doc)).
Proof.
  split; [exact env0_unlocked|]. split; [exact env0_fresh|].
  exact (routes_never_fail_on_MemoryStore (reads_asset clash_A003) no_record id sch0
           GET_assets no_params "" env0 env0_unlocked env0_fresh).
Defined.

(** The sample store holds only finite numbers, so on it, and on every
    store reached from it by requests with finite bodies, no answer lacks
    its document. *)
Example sample_store_finite :
  store_finite (store (env_store env0)) ∧
  decodes_finite (reads_asset clash_A003) no_record "".
Proof.
  split; [split|split].
  - intros k a Hk.
    refine (map_Forall_lookup_1 (λ _ a, Asset_finite a = true) _ _ _ _ Hk).
    apply (bool_decide_unpack _). vm_compute. exact I.
  - intros k rs r Hk Hr.
    assert (map_Forall (λ _ rs, Forall (λ r, Record_finite r = true) rs)
              (maintenance (store (env_store env0)))) as Hall
      by (apply (bool_decide_unpack _); vm_compute; exact I).
    pose proof (map_Forall_lookup_1 _ _ _ _ Hall Hk) as Hrs.
    rewrite Forall_forall in Hrs. by apply Hrs.
  - intros a [= <-]. vm_compute. reflexivity.
  - intros rec. discriminate.
Qed.

(** * formatMoney *)

Lemma str_app_cons c s t : String c s +:+ t = String c (s +:+ t).
Proof. reflexivity. Qed.

Lemma str_app_nil_r s : s +:+ "" = s.
Proof. induction s as [|c s IH]; [done|]. by rewrite str_app_cons, IH. Qed.

Lemma str_app_assoc s1 s2 s3 : (s1 +:+ s2) +:+ s3 = s1 +:+ (s2 +:+ s3).
Proof. induction s1 as [|c s1 IH]; [done|]. by rewrite !str_app_cons, IH. Qed.

Lemma str_length_app s1 s2 :
  String.length (s1 +:+ s2) = (String.length s1 + String.length s2)%nat.
Proof. induction s1 as [|c s1 IH]; [done|]. rewrite str_app_cons. simpl. by rewrite IH. Qed.

Lemma str_drop_app s1 s2 : str_drop (String.length s1) (s1 +:+ s2) = s2.
Proof. induction s1 as [|c s1 IH]; [by destruct s2|]. by rewrite str_app_cons. Qed.

Lemma str_take_app s1 s2 : str_take (String.length s1) (s1 +:+ s2) = s1.
Proof.
  induction s1 as [|c s1 IH]; [by destruct s2|].
  rewrite str_app_cons. simpl. by rewrite IH.
Qed.

Lemma str_take_drop n s : str_take n s +:+ str_drop n s = s.
Proof.
  revert s. induction n as [|n IH]; intros [|c s]; try done.
  simpl str_take. simpl str_drop. by rewrite str_app_cons, IH.
Qed.

Lemma str_length_take n s :
  (n ≤ String.length s)%nat → String.length (str_take n s) = n.
Proof.
  revert s. induction n as [|n IH]; intros [|c s]; simpl; try done; try lia.
  intros Hn. rewrite IH; [done | lia].
Qed.

Lemma str_length_drop n s :
  String.length (str_drop n s) = (String.length s - n)%nat.
Proof. revert s. induction n as [|n IH]; intros [|c s]; simpl; try done. Qed.

Lemma slice_middle pre g post :
  slice (pre +:+ g +:+ post) (String.length pre)
    (String.length pre + String.length g) = Some g.
Proof.
  unfold slice. rewrite !str_length_app.
  rewrite !bool_decide_eq_true_2 by lia. simpl.
  rewrite str_drop_app.
  replace (String.length pre + String.length g - String.length pre)%nat
    with (String.length g) by lia.
  by rewrite str_take_app.
Qed.

Lemma formatMoney_loop_groups gs pre result fuel :
  Forall (λ g, String.length g = 3%nat) gs →
  (length gs ≤ fuel)%nat →
  formatMoney_loop fuel (pre +:+ flatten gs)
    (String.length pre + 3 * length gs) (String.length pre) result
  = Some (result +:+ joined gs).
Proof.
  revert pre result fuel. induction gs as [|g gs IH]; intros pre result fuel Hall Hfuel.
  - simpl. rewrite !str_app_nil_r.
    destruct fuel; simpl; by rewrite bool_decide_eq_false_2 by lia.
  - apply Forall_cons in Hall as [Hg Hall].
    destruct fuel as [|fuel]; [simpl in Hfuel; lia|].
    cbn [formatMoney_loop flatten]. simpl length.
    rewrite bool_decide_eq_true_2 by lia.
    replace (String.length pre + 3)%nat
      with (String.length pre + String.length g)%nat by lia.
    rewrite slice_middle.
    replace (pre +:+ g +:+ flatten gs) with ((pre +:+ g) +:+ flatten gs)
      by apply str_app_assoc.
    replace (String.length pre + 3 * S (length gs))%nat
      with (String.length (pre +:+ g) + 3 * length gs)%nat
      by (rewrite str_length_app; lia).
    replace (String.length pre + String.length g)%nat
      with (String.length (pre +:+ g)) by (by rewrite str_length_app).
    destruct gs as [|g' gs].
    + rewrite bool_decide_eq_false_2 by (simpl; lia).
      rewrite IH by (done || simpl in *; lia). simpl.
      unfold grouped. simpl. by rewrite !str_app_nil_r.
    + rewrite bool_decide_eq_true_2 by (simpl; lia).
      rewrite IH by (done || simpl in *; lia).
      f_equal. unfold joined, grouped. simpl.
      by rewrite !str_app_assoc.
Qed.

(** A string of [3 * k] bytes is [k] groups of three. *)
Lemma groups_of_three k s :
  String.length s = (3 * k)%nat →
  ∃ gs, length gs = k ∧ Forall (λ g, String.length g = 3%nat) gs ∧ flatten gs = s.
Proof.
  revert s. induction k as [|k IH]; intros s Hlen.
  - exists []. destruct s; [done | simpl in Hlen; lia].
  - destruct (IH (str_drop 3 s)) as (gs & Hk & Hall & Hflat).
    { rewrite str_length_drop. lia. }
    exists (str_take 3 s :: gs). split; [simpl; by rewrite Hk|]. split.
    + constructor; [|done]. apply str_length_take. lia.
    + cbn [flatten]. rewrite Hflat. apply str_take_drop.
Qed.

Lemma pretty_pos_nonempty p : (1 ≤ String.length (pretty (Z.pos p)))%nat.
Proof.
  unfold pretty, pretty_Z, pretty, pretty_positive, pretty, pretty_N.
  rewrite decide_False by done.
  destruct (pretty_N_go_head (N.pos p) "" ltac:(lia)) as (c & rest & _ & ->).
  simpl. lia.
Qed.

Lemma pretty_abs_nonempty z : (1 ≤ String.length (pretty (Z.abs z)))%nat.
Proof.
  destruct z as [|p|p]; [simpl; lia|apply pretty_pos_nonempty..].
Qed.

Lemma formatMoney_digits z :
  (if bool_decide (z < 0) then slice (pretty z) 1 (String.length (pretty z))
   else Some (pretty z)) = Some (pretty (Z.abs z)).
Proof.
  destruct z as [|p|p].
  - by rewrite bool_decide_eq_false_2 by lia.
  - by rewrite bool_decide_eq_false_2 by lia.
  - rewrite bool_decide_eq_true_2 by lia.
    change (pretty (Z.neg p)) with ("-" +:+ pretty (Z.abs (Z.neg p))).
    generalize (pretty (Z.abs (Z.neg p))). intros d.
    pose proof (slice_middle "-" d "") as Hs.
    rewrite str_app_nil_r in Hs. simpl String.length in Hs.
    rewrite str_app_cons. simpl String.length. exact Hs.
Qed.

(** X19. [formatMoney], from the integer part on, never panics and
    writes the sign, a dollar and the decimal digits of the absolute value
    in groups: a leading group of one to three digits, then groups of
    exactly three digits, each with a comma in front. The groups, read
    without the commas, are the digits. *)
Theorem formatMoney_int_groups z :
  ∃ head groups,
    formatMoney_int z
      = Some ((if bool_decide (z < 0) then "-$" else "$") +:+ grouped head groups) ∧
    head +:+ flatten groups = pretty (Z.abs z) ∧
    (1 ≤ String.length head ≤ 3)%nat ∧
    Forall (λ g, String.length g = 3%nat) groups.
Proof.
  unfold formatMoney_int. rewrite formatMoney_digits.
  pose proof (pretty_abs_nonempty z) as Hne.
  generalize dependent (pretty (Z.abs z)). intros d Hne.
  set (n := String.length d) in *. cbv zeta.
  destruct (decide (n ≤ 3)%nat) as [Hsmall|Hbig].
  - rewrite (bool_decide_eq_true_2 (n ≤ 3)%nat) by done.
    exists d, []. unfold grouped. simpl flatten. rewrite !str_app_nil_r.
    split; [by case_bool_decide|]. done.
  - rewrite (bool_decide_eq_false_2 (n ≤ 3)%nat) by done.
    pose proof (Nat.div_mod_eq n 3) as Hdiv.
    pose proof (Nat.mod_upper_bound n 3 ltac:(lia)) as Hmod.
    destruct (decide (0 < n `mod` 3)%nat) as [Hoff|Hoff].
    + rewrite (bool_decide_eq_true_2 (0 < n `mod` 3)%nat) by done.
      assert (slice d 0 (n `mod` 3) = Some (str_take (n `mod` 3) d)) as ->.
      { unfold slice. rewrite !bool_decide_eq_true_2 by (fold n; lia). simpl.
        by rewrite Nat.sub_0_r. }
      rewrite (bool_decide_eq_true_2 (3 < n)%nat) by lia.
      set (head := str_take (n `mod` 3) d).
      assert (String.length head = (n `mod` 3)%nat) as Hhead
        by (apply str_length_take; fold n; lia).
      destruct (groups_of_three (n `div` 3) (str_drop (n `mod` 3) d))
        as (gs & Hk & Hall & Hflat).
      { rewrite str_length_drop. fold n. lia. }
      assert (d = head +:+ flatten gs) as Hd
        by (rewrite Hflat; symmetry; apply str_take_drop).
      destruct gs as [|g1 gs]; [cbn [length] in Hk; lia|].
      pose proof (formatMoney_loop_groups (g1 :: gs) head (head +:+ ",") n Hall
                    ltac:(rewrite Hk; lia)) as Hloop.
      rewrite <- Hd in Hloop.
      replace (String.length head + 3 * length (g1 :: gs))%nat with n in Hloop
        by (rewrite Hhead, Hk; lia).
      rewrite Hhead in Hloop. rewrite Hloop.
      exists head, (g1 :: gs).
      split.
      { unfold joined, grouped. simpl. rewrite !str_app_assoc.
        by case_bool_decide. }
      split; [done|]. split; [lia | done].
    + rewrite (bool_decide_eq_false_2 (0 < n `mod` 3)%nat) by done.
      destruct (groups_of_three (n `div` 3) d) as (gs & Hk & Hall & Hflat);
        [fold n; lia|].
      destruct gs as [|g1 gs]; [cbn [length] in Hk; lia|].
      pose proof (formatMoney_loop_groups (g1 :: gs) "" "" n Hall
                    ltac:(rewrite Hk; lia)) as Hloop.
      change ("" +:+ flatten (g1 :: gs)) with (flatten (g1 :: gs)) in Hloop.
      rewrite Hflat in Hloop.
      replace (String.length "" + 3 * length (g1 :: gs))%nat with n in Hloop
        by (cbn [String.length]; rewrite Hk; lia).
      replace (String.length "") with (n `mod` 3)%nat in Hloop
        by (cbn [String.length]; lia).
      rewrite Hloop.
      apply Forall_cons in Hall as [Hg1 Hall].
      exists g1, gs.
      split; [simpl; by case_bool_decide|]. split; [done|]. split; [lia | done].
Qed.

(** The cents are dropped, not rounded, and an amount between -1 and 0 loses
    its sign; an amount beyond the range of [int64] has no defined
    conversion. *)
Example formatMoney_sample :
  formatMoney 1234567.5%float = Some (Some "$1,234,567") ∧
  formatMoney (-1234.5)%float = Some (Some "-$1,234") ∧
  formatMoney 999.75%float = Some (Some "$999") ∧
  formatMoney (-0.5)%float = Some (Some "$0") ∧
  formatMoney 100000%float = Some (Some "$100,000") ∧
  formatMoney 0x1p+70%float = None ∧
  formatMoney_int int_min = Some "-$9,223,372,036,854,775,808".
Proof. repeat split; vm_compute; reflexivity. Qed.

(** * CORS *)

Lemma origin_allowed_spec allowedOrigins origin :
  origin_allowed allowedOrigins origin = true
  ↔ "*" ∈ allowedOrigins ∨ origin ∈ allowedOrigins.
Proof.
  induction allowedOrigins as [|o rest IH]; simpl.
  - split; [done|]. intros [H|H]; by apply elem_of_nil in H.
  - rewrite !elem_of_cons.
    destruct (decide (o = "*")) as [->|Hstar].
    + rewrite bool_decide_eq_true_2 by done. simpl. split; [by auto|done].
    + rewrite (bool_decide_eq_false_2 (o = "*")) by done. simpl.
      destruct (decide (o = origin)) as [->|Ho].
      * rewrite bool_decide_eq_true_2 by done. split; [by auto|done].
      * rewrite bool_decide_eq_false_2 by done. rewrite IH.
        split; [tauto|]. intros [[H|H]|[H|H]]; auto; congruence.
Qed.

(** X20. [CORS] sets its four headers exactly when the list of allowed
    origins holds ["*"] or the origin of the request, and then
    [Access-Control-Allow-Origin] repeats the origin of the request, also
    under ["*"]. Whether or not the origin is allowed, an [OPTIONS]
    request is answered 204 without reaching the wrapped handler, and every
    other request is passed on to it: [CORS] never rejects a request. *)
Theorem CORS_behaviour {Σ} allowedOrigins (next : HTTPHandler Σ) r σ w :
  status w = None →
  let origin := Header_Get r "Origin" in
  ∃ w1,
    (("*" ∈ allowedOrigins ∨ origin ∈ allowedOrigins) ∧
       w1 = cors_headers origin w ∧
       header w1 !! "Access-Control-Allow-Origin" = Some [origin]
     ∨ ¬ ("*" ∈ allowedOrigins ∨ origin ∈ allowedOrigins) ∧ w1 = w) ∧
    (Method r = "OPTIONS" →
       CORS allowedOrigins next r (σ, w)
       = Some (σ, mkResponseWriter (header w1) (Some StatusNoContent) (body w1))) ∧
    (Method r ≠ "OPTIONS" →
       CORS allowedOrigins next r (σ, w) = next r (σ, w1)).
Proof.
  intros Hst origin. unfold CORS. fold origin.
  destruct (origin_allowed allowedOrigins origin) eqn:Hallowed.
  - apply origin_allowed_spec in Hallowed.
    exists (cors_headers origin w). split; [left|split].
    + split; [done|]. split; [done|]. unfold cors_headers, Header_Set. simpl.
      rewrite !lookup_insert_ne by done. by rewrite lookup_insert_eq.
    + intros Hm. rewrite bool_decide_eq_true_2 by done.
      destruct w as [hd st bd]. simpl in Hst. by subst st.
    + intros Hm. by rewrite bool_decide_eq_false_2.
  - assert (¬ ("*" ∈ allowedOrigins ∨ origin ∈ allowedOrigins)) as Hnot
      by (rewrite <- origin_allowed_spec; congruence).
    exists w. split; [by right|split].
    + intros Hm. rewrite bool_decide_eq_true_2 by done.
      destruct w as [hd st bd]. simpl in Hst. by subst st.
    + intros Hm. by rewrite bool_decide_eq_false_2.
Qed.

Lemma CORS_behaviour_witness :
  status (env_w env0) = None ∧
  ∃ w1,
    (("*" ∈ ["*"] ∨ "https://app.example" ∈ ["*"]) ∧
       w1 = cors_headers "https://app.example" (env_w env0) ∧
       header w1 !! "Access-Control-Allow-Origin" = Some ["https://app.example"]
     ∨ ¬ ("*" ∈ ["*"] ∨ "https://app.example" ∈ ["*"]) ∧ w1 = env_w env0) ∧
    (Method (from_app "OPTIONS") = "OPTIONS" →
       CORS ["*"] counting (from_app "OPTIONS") (0%nat, env_w env0)
       = Some (0%nat, mkResponseWriter (header w1) (Some StatusNoContent) (body w1))) ∧
    (Method (from_app "OPTIONS") ≠ "OPTIONS" →
       CORS ["*"] counting (from_app "OPTIONS") (0%nat, env_w env0)
       = counting (from_app "OPTIONS") (0%nat, w1)).
Proof.
  split; [exact env0_fresh|].
  exact (CORS_behaviour ["*"] counting (from_app "OPTIONS") 0%nat (env_w env0)
           env0_fresh).
Defined.

(** With the list [["*"]] of [main], a preflight from any origin is
    answered 204 with the origin repeated, and the wrapped handler is not
    called; a request with an origin outside the list still reaches it. *)
Example CORS_wildcard_preflight :
  CORS ["*"] counting (from_app "OPTIONS") (0%nat, env_w env0)
  = Some (0%nat, mkResponseWriter
      {["Access-Control-Allow-Origin" := ["https://app.example"];
        "Access-Control-Allow-Methods" := ["GET, POST, PUT, DELETE, OPTIONS"];
        "Access-Control-Allow-Headers" := ["Content-Type, Authorization"];
        "Access-Control-Max-Age" := ["86400"]]} (Some 204) []) ∧
  CORS ["https://other.example"] counting (from_app "GET") (0%nat, env_w env0)
  = Some (1%nat, mkResponseWriter ∅ (Some 200) []).
Proof. split; vm_compute; reflexivity. Qed.

(** * The REST handlers, one request after another *)

Section RoundTrip.
Variable decode_Asset : string → option Asset.
Variable lower : string → string.
Variable sch : Schedule.

(** X21. POST /api/assets and then GET /api/assets/{id} on the in-memory
    store: when a POST whose body has finite numbers is answered 201, a GET
    of the [id] member of its document, on a fresh writer, is answered 200
    with the same [data] document, time stamps included, and nothing is
    logged. *)
Theorem POST_then_GET_on_MemoryStore r raw asset (e : Env World) r2 w2 :
  mu (store (env_store e)) = unlocked →
  status (env_w e) = None →
  decode_Asset raw = Some asset →
  Asset_finite asset = true →
  Asset.Name asset ≠ "" →
  status w2 = None →
  ∃ e1 asset',
    Handler_CreateAsset (H := MemoryStore_Store lower sch) decode_Asset r raw e
    = Some e1 ∧
    env_w e1 = answered (env_w e) StatusCreated (data_doc (marshal_Asset asset')) ∧
    (URLParam r2 "id" = Asset.ID asset' →
     ∃ e2,
       Handler_GetAsset (H := MemoryStore_Store lower sch) r2
         (mkEnv (env_store e1) w2 (env_logger e1)) = Some e2 ∧
       env_w e2 = answered w2 StatusOK (data_doc (marshal_Asset asset')) ∧
       store (env_store e2) = store (env_store e1) ∧
       env_logger e2 = env_logger e).
Proof.
  intros Hmu Hst Hdec Hfin Hname Hst2. unfold Handler_CreateAsset. rewrite Hdec.
  rewrite bool_decide_eq_false_2 by done.
  destruct (CreateAsset_effect asset (env_store e) Hmu)
    as (asset' & w1 & Hcreate & Hmu1 & Hassets & _).
  assert (encodable (marshal_Asset asset') = true) as Henc.
  { rewrite encodable_marshal_Asset.
    by rewrite (CreateAsset_keeps_costs _ _ _ _ Hmu Hcreate). }
  simpl. rewrite Hcreate. eexists _, asset'. split; [done|]. simpl.
  rewrite respondJSON_payload_answered by done. split; [done|].
  intros Hid. unfold Handler_GetAsset. simpl. rewrite Hid.
  rewrite (GetAsset_run _ _ Hmu1). rewrite Hassets, lookup_insert_eq.
  eexists. split; [done|]. simpl.
  rewrite <- respondJSON_payload_dynamic.
  by rewrite respondJSON_payload_answered.
Qed.

End RoundTrip.

Lemma POST_then_GET_on_MemoryStore_witness :
  mu (store (env_store env0)) = unlocked ∧
  status (env_w env0) = None ∧
  reads_asset unnamed_asset "{}" = Some unnamed_asset ∧
  Asset_finite unnamed_asset = true ∧
  Asset.Name unnamed_asset ≠ "" ∧
  status (env_w env0) = None ∧
  ∃ e1 asset',
    @Handler_CreateAsset (reads_asset unnamed_asset) World
      (MemoryStore_Store id sch0) no_params "{}" env0 = Some e1 ∧
    env_w e1 = answered (env_w env0) StatusCreated (data_doc (marshal_Asset asset')) ∧
    (URLParam at_A101 "id" = Asset.ID asset' →
     ∃ e2,
       Handler_GetAsset (H := MemoryStore_Store id sch0) at_A101
         (mkEnv (env_store e1) (env_w env0) (env_logger e1)) = Some e2 ∧
       env_w e2 = answered (env_w env0) StatusOK (data_doc (marshal_Asset asset')) ∧
       store (env_store e2) = store (env_store e1) ∧
       env_logger e2 = env_logger env0).
Proof.
  assert (Asset_finite unnamed_asset = true) as Hfin by (vm_compute; reflexivity).
  assert (Asset.Name unnamed_asset ≠ "") as Hname by (by vm_compute).
  split; [exact env0_unlocked|]. split; [exact env0_fresh|].
  split; [reflexivity|]. split; [exact Hfin|]. split; [exact Hname|].
  split; [exact env0_fresh|].
  exact (POST_then_GET_on_MemoryStore (reads_asset unnamed_asset)
           id sch0 no_params "{}" unnamed_asset env0 at_A101
           (env_w env0) env0_unlocked env0_fresh eq_refl Hfin Hname env0_fresh).
Defined.

(** On the sample store the asset posted without an [ID] is filed as
    [A101], and a GET of [A101] is answered 200. *)
Example POST_then_GET_sample :
  match
    e1 ← @Handler_CreateAsset (reads_asset unnamed_asset) World
           (MemoryStore_Store id sch0) no_params "{}" env0;
    e2 ← Handler_GetAsset (H := MemoryStore_Store id sch0) at_A101
           (mkEnv (env_store e1) (env_w env0) (env_logger e1));
    Some (env_w e1, env_w e2)
  with
  | Some (w1, w2) =>
      status w1 = Some 201 ∧ status w2 = Some 200 ∧ body w1 = body w2
  | None => False
  end.
Proof. vm_compute. done. Qed.
